(** * Time-Warp-O-Matic: the wear-levelled settings store and the
      interrupt-driven parameter controller

    Shallow embedding of [Eeprom.hpp] (class [Eeprom]), [main.h]
    ([SettingsObjType]), [config.h] (constants) and of the handlers
    [rotate], [extClock], [updateEepromTimer], [writeSettingsToEeprom],
    the loading part of [setup] and the clock time-out of [loop] of the
    v0.5 firmware.

    Target: AVR (Arduino Nano).  [byte], [bool], [int8_t] are 8 bits,
    [unsigned int] and [size_t] 16 bits, [unsigned long] 32 bits; every
    wrap-around is written out. *)

From Stdlib Require Import ZArith Lia Bool.
From stdpp Require Import base list.

Local Open Scope Z_scope.

(** ** Machine integers *)

Definition u8 (x : Z) : Z := x mod 256.
Definition i8 (x : Z) : Z := (x + 128) mod 256 - 128.
Definition u16 (x : Z) : Z := x mod 65536.
Definition u32 (x : Z) : Z := x mod 4294967296.

(** ** config.h *)

Definition COUNTER_INIT_VALUE : Z := 100.
Definition EXT_CLOCK_TIMEOUT : Z := 2000000.
Definition DIV_FACTOR : Z := 1000.

Definition DECELERATOR : Z := 0.
Definition SHORT_DELAY : Z := 1.
Definition DELAY : Z := 2.
Definition ECHO1 : Z := 3.
Definition ECHO2 : Z := 4.
Definition ECHO3 : Z := 5.
Definition CHORUS : Z := 6.
Definition FAST_CHORUS : Z := 7.
Definition REVERB : Z := 8.
Definition WOW_NOT_FLUTTER : Z := 9.
Definition TELEGRAPH : Z := 10.
Definition TELEVERB : Z := 11.
Definition PSYCHO : Z := 12.

Definition NR_OF_EFFECTS : Z := 13.
Definition INITIAL_EFFECT : Z := SHORT_DELAY.
Definition DELAY_TIME_MIN : Z := 7.

Definition LEFT : Z := -1.
Definition RIGHT : Z := 1.

Definition MAX_COUNTER : Z := 255.
Definition NR_OF_CYCLES : Z := 3.
Definition DELAY_TIME_BEFORE_WRITING_TO_EEPROM_IN_MS : Z := 10000.
Definition NR_OF_MULT_FACTORS : Z := 16.
Definition INITIAL_BASE_FACTOR : Z := 7.
Definition INITIAL_DELAY_TIME : Z := 220.
Definition LED_DELAY : Z := 1000.

(** ** The EEPROM device (Arduino [EEPROM] object)

    One byte per cell.  [EEPROM.put] and [EEPROM.get] copy the object
    representation of a value cell by cell and check no bound; what the
    device does with an address past its last cell is not fixed by the
    sources, so the store is total and the statements below say where
    the accesses fall. *)

Module EEPROM.

Definition cells : Type := Z -> Z.

Definition read (m : cells) (idx : Z) : Z := m idx.

Definition write (m : cells) (idx val : Z) : cells :=
  fun a => if a =? idx then u8 val else m a.

Fixpoint put_bytes (m : cells) (idx : Z) (bs : list Z) : cells :=
  match bs with
  | [] => m
  | b :: bs' => put_bytes (write m idx b) (idx + 1) bs'
  end.

Fixpoint get_bytes (m : cells) (idx : Z) (n : nat) : list Z :=
  match n with
  | O => []
  | S n' => read m idx :: get_bytes m (idx + 1) n'
  end.

(** A freshly erased part: every cell 0xff (see [Eeprom::erase]). *)
Definition blank : cells := fun _ => 255.

End EEPROM.

(** Types that [EEPROM.put] / [EEPROM.get] (templates over [T]) move:
    [sizeof(T)] and the object representation. *)
Class Stored (T : Type) := {
  sizeof : Z;
  object_bytes : T -> list Z;
  object_of_bytes : list Z -> T
}.

Definition is_byte (x : Z) : Prop := 0 <= x < 256.

(** The representation of every object is [sizeof(T)] bytes long. *)
Class StoredOk (T : Type) `{Stored T} : Prop := {
  object_bytes_length : forall x : T, Z.of_nat (length (object_bytes x)) = sizeof;
  object_bytes_range : forall x : T, Forall is_byte (object_bytes x)
}.

Definition EEPROM_put {T} `{Stored T} (m : EEPROM.cells) (idx : Z) (t : T) : EEPROM.cells :=
  EEPROM.put_bytes m idx (object_bytes t).

Definition EEPROM_get {T} `{Stored T} (m : EEPROM.cells) (idx : Z) : T :=
  object_of_bytes (EEPROM.get_bytes m idx (Z.to_nat (sizeof (T := T)))).

(** [unsigned long], little endian on AVR. *)
Definition ulong_bytes (v : Z) : list Z :=
  [v mod 256; (v / 256) mod 256; (v / 65536) mod 256; (v / 16777216) mod 256].

Definition ulong_of_bytes (bs : list Z) : Z :=
  match bs with
  | [b0; b1; b2; b3] => b0 + 256 * b1 + 65536 * b2 + 16777216 * b3
  | _ => 0
  end.

#[export] Instance Stored_ulong : Stored Z := {|
  sizeof := 4;
  object_bytes := ulong_bytes;
  object_of_bytes := ulong_of_bytes
|}.

(** ** main.h: the settings struct *)

Record SettingsObjType := {
  delayTime : list Z;            (* volatile byte delayTime[NR_OF_EFFECTS] *)
  isWetAndDrySelected : bool;    (* volatile bool *)
  effect : Z;                    (* volatile int8_t, = INITIAL_EFFECT *)
  baseFactorIndex : list Z       (* volatile byte baseFactorIndex[NR_OF_EFFECTS] *)
}.

(** The values a [SettingsObjType] object can hold. *)
Record representable (s : SettingsObjType) : Prop := {
  rep_delayTime_length : length (delayTime s) = 13%nat;
  rep_delayTime_bytes : Forall is_byte (delayTime s);
  rep_effect : -128 <= effect s < 128;
  rep_baseFactorIndex_length : length (baseFactorIndex s) = 13%nat;
  rep_baseFactorIndex_bytes : Forall is_byte (baseFactorIndex s)
}.

(** Object representation: 13 + 1 + 1 + 13 = 28 bytes, no padding. *)
Definition settings_bytes (s : SettingsObjType) : list Z :=
  resize 13 0 (map u8 (delayTime s))
  ++ [if isWetAndDrySelected s then 1 else 0]
  ++ [u8 (effect s)]
  ++ resize 13 0 (map u8 (baseFactorIndex s)).

Definition settings_of_bytes (bs : list Z) : SettingsObjType :=
  {| delayTime := take 13 bs;
     isWetAndDrySelected := negb (nth 13 bs 0 =? 0);
     effect := i8 (nth 14 bs 0);
     baseFactorIndex := take 13 (drop 15 bs) |}.

#[export] Instance Stored_settings : Stored SettingsObjType := {|
  sizeof := 28;
  object_bytes := settings_bytes;
  object_of_bytes := settings_of_bytes
|}.

(** ** Eeprom.hpp: class [Eeprom] *)

Definition DATA_MARKER : Z := 0x66666666.
Definition ERASE_MARKER : Z := 0x33333333.
Definition EMPTY_MARKER : Z := 0x22222222.
Definition SIZE_OF_DATA_MARKER : Z := 4.

Record Eeprom := {
  eeprom_currentAddress : Z;   (* unsigned int *)
  eeprom_sizeInBytes : Z;      (* unsigned int *)
  eeprom_dataItem : Z;         (* unsigned long, = 0 *)
  blocked : bool               (* = false *)
}.

Definition set_currentAddress (a : Z) (e : Eeprom) : Eeprom :=
  {| eeprom_currentAddress := a; eeprom_sizeInBytes := eeprom_sizeInBytes e;
     eeprom_dataItem := eeprom_dataItem e; blocked := blocked e |}.

Definition set_dataItem (d : Z) (e : Eeprom) : Eeprom :=
  {| eeprom_currentAddress := eeprom_currentAddress e;
     eeprom_sizeInBytes := eeprom_sizeInBytes e;
     eeprom_dataItem := d; blocked := blocked e |}.

Definition set_blocked (b : bool) (e : Eeprom) : Eeprom :=
  {| eeprom_currentAddress := eeprom_currentAddress e;
     eeprom_sizeInBytes := eeprom_sizeInBytes e;
     eeprom_dataItem := eeprom_dataItem e; blocked := b |}.

(** The class is compiled against whatever struct main.h declares as
    [SettingsObjType]; [SIZE_OF_SETTINGS_STRUCT] is its [sizeof].  The
    embedding keeps that struct a parameter, so that the store can be
    run with the firmware's 28-byte struct and with other record
    sizes. *)
Section EepromClass.

Context {Obj : Type} `{Stored Obj}.

Definition SIZE_OF_SETTINGS_STRUCT : Z := sizeof (T := Obj).

(** [eraseMarkerByte]: the marker is always at the read address. *)
Definition eraseMarkerByte (m : EEPROM.cells) (e : Eeprom) : EEPROM.cells :=
  EEPROM_put m (eeprom_currentAddress e) ERASE_MARKER.

(** The [for] loop of [init]: [Some (e, true)] when a marker was
    found, [Some (e, false)] when the loop ran to its end, [None]
    when [fuel] iterations were not enough. *)
Fixpoint init_scan (fuel : nat) (m : EEPROM.cells) (e : Eeprom) : option (Eeprom * bool) :=
  match fuel with
  | O => None
  | S fuel' =>
      if eeprom_currentAddress e <? u16 (eeprom_sizeInBytes e - SIZE_OF_SETTINGS_STRUCT) then
        let e1 := set_dataItem (EEPROM_get m (eeprom_currentAddress e)) e in
        if eeprom_dataItem e1 =? DATA_MARKER then Some (e1, true)
        else init_scan fuel' m
               (set_currentAddress (u16 (eeprom_currentAddress e1 + SIZE_OF_DATA_MARKER)) e1)
      else Some (e, false)
  end.

(** [init]; the address space of an [unsigned int] has 16384 marker
    slots, so 16385 iterations are allowed for. *)
Definition init_fuel : nat := Z.to_nat 16385.

Definition init_with (fuel : nat) (m : EEPROM.cells) (e : Eeprom)
  : option (EEPROM.cells * Eeprom) :=
  if negb (SIZE_OF_SETTINGS_STRUCT mod SIZE_OF_DATA_MARKER =? 0) then
    Some (m, set_blocked true e)
  else if u16 (SIZE_OF_SETTINGS_STRUCT + SIZE_OF_DATA_MARKER) >? eeprom_sizeInBytes e then
    Some (m, set_currentAddress 0 e)
  else
    match init_scan fuel m (set_currentAddress 0 e) with
    | None => None
    | Some (e1, true) => Some (m, e1)
    | Some (e1, false) =>
        let e2 := set_currentAddress 0 e1 in
        Some (EEPROM_put m (eeprom_currentAddress e2) EMPTY_MARKER, e2)
    end.

Definition init := init_with init_fuel.

(** Constructor [Eeprom(unsigned int length)].  The member
    [eeprom_currentAddress] has no initialiser; it is taken as 0. *)
Definition Eeprom_new (m : EEPROM.cells) (length : Z) : option (EEPROM.cells * Eeprom) :=
  init m {| eeprom_currentAddress := 0; eeprom_sizeInBytes := u16 length;
            eeprom_dataItem := 0; blocked := false |}.

Definition isEmpty (m : EEPROM.cells) (e : Eeprom) : bool :=
  let dataItem : Z := EEPROM_get m (eeprom_currentAddress e) in
  if dataItem =? EMPTY_MARKER then true else false.

Definition getCurrentAddress (e : Eeprom) : Z := eeprom_currentAddress e.

(** [write]: the new device contents, the new object and the
    returned [long]. *)
Definition write (m : EEPROM.cells) (e : Eeprom) (settings : Obj)
  : EEPROM.cells * Eeprom * Z :=
  if blocked e then (m, e, -1)
  else
    let e := set_dataItem (EEPROM_get m (eeprom_currentAddress e)) e in
    let m := eraseMarkerByte m e in
    if eeprom_dataItem e =? EMPTY_MARKER then
      let m := EEPROM_put m (eeprom_currentAddress e) DATA_MARKER in
      let m := EEPROM_put m (u16 (eeprom_currentAddress e + SIZE_OF_DATA_MARKER)) settings in
      (m, e, u16 (SIZE_OF_SETTINGS_STRUCT + SIZE_OF_DATA_MARKER))
    else
      let tmpAddress :=
        u16 (u16 (eeprom_currentAddress e + SIZE_OF_SETTINGS_STRUCT) + SIZE_OF_DATA_MARKER) in
      let e :=
        if tmpAddress >? u16 (eeprom_sizeInBytes e - 1)
        then set_currentAddress 0 e
        else set_currentAddress tmpAddress e in
      let m := EEPROM_put m (eeprom_currentAddress e) DATA_MARKER in
      let m := EEPROM_put m (u16 (eeprom_currentAddress e + SIZE_OF_DATA_MARKER)) settings in
      (m, e, u16 (SIZE_OF_SETTINGS_STRUCT + SIZE_OF_DATA_MARKER)).

(** [read]: the new object, the returned [long] and, when the marker
    was found, the struct copied to [*p]. *)
Definition read (m : EEPROM.cells) (e : Eeprom) : Eeprom * Z * option Obj :=
  if blocked e then (e, -1, None)
  else if u16 (eeprom_currentAddress e + SIZE_OF_SETTINGS_STRUCT) >? eeprom_sizeInBytes e then
    (e, -1, None)
  else
    let e := set_dataItem (EEPROM_get m (eeprom_currentAddress e)) e in
    if eeprom_dataItem e =? DATA_MARKER then
      (e, SIZE_OF_SETTINGS_STRUCT,
       Some (EEPROM_get m (u16 (eeprom_currentAddress e + SIZE_OF_DATA_MARKER))))
    else (e, -1, None).

(** The address [write] moves the cursor to. *)
Definition next_cursor (m : EEPROM.cells) (e : Eeprom) : Z :=
  if EEPROM_get (T := Z) m (eeprom_currentAddress e) =? EMPTY_MARKER
  then eeprom_currentAddress e
  else
    let tmpAddress :=
      u16 (u16 (eeprom_currentAddress e + SIZE_OF_SETTINGS_STRUCT) + SIZE_OF_DATA_MARKER) in
    if tmpAddress >? u16 (eeprom_sizeInBytes e - 1) then 0 else tmpAddress.

(** [write] stopped right after [eraseMarkerByte], before the new
    marker is put: the device contents at that point. *)
Definition write_interrupted (m : EEPROM.cells) (e : Eeprom) : EEPROM.cells :=
  if blocked e then m
  else eraseMarkerByte m (set_dataItem (EEPROM_get m (eeprom_currentAddress e)) e).

End EepromClass.

(** A 16-byte record, for running the store with record size 16. *)
Record Record16 := { record16_bytes : list Z }.

#[export] Instance Stored_record16 : Stored Record16 := {|
  sizeof := 16;
  object_bytes := fun r => resize 16 0 (map u8 (record16_bytes r));
  object_of_bytes := fun bs => {| record16_bytes := take 16 bs |}
|}.

(** [n] successive calls of [write] with the same struct. *)
Fixpoint write_n {Obj} `{Stored Obj} (n : nat) (m : EEPROM.cells) (e : Eeprom) (s : Obj)
  : EEPROM.cells * Eeprom :=
  match n with
  | O => (m, e)
  | S n' => let '(m1, e1, _) := write m e s in write_n n' m1 e1 s
  end.

(** ** The sketch: global variables

    The globals read or written by the handlers below.  The display,
    the CD4066 switches, the PWM outputs, the push button and the
    screen saver are ports outside this development and are left out. *)

Record Globals := {
  settings : SettingsObjType         (* SettingsObjType_t settings *);
  delayTimeMax : list Z              (* volatile byte delayTimeMax[NR_OF_EFFECTS] *);
  oldDelayTime : list Z              (* volatile byte oldDelayTime[NR_OF_EFFECTS] *);
  coarseDelayTime : Z                (* volatile byte *);
  oldEffect : Z                      (* int8_t, = -1 *);
  countDirection : Z                 (* byte, = RIGHT *);
  inSelectMode : bool                (* volatile bool, = true *);
  writeToEeprom : bool               (* bool, = false *);
  writeTimer : Z                     (* unsigned long, = millis() *);
  oldTime : Z                        (* volatile unsigned long *);
  thisTime : Z                       (* volatile unsigned long *);
  sumTime : Z                        (* volatile unsigned long *);
  cycleTime : Z                      (* volatile unsigned long *);
  irqCounter : Z                     (* volatile byte, = 0 *);
  useSymbolicTimeString : bool       (* volatile bool, = false *);
  fineTuneDelayTime : bool           (* volatile bool, = false *);
  ledDelay : Z                       (* volatile unsigned int, = LED_DELAY *)
}.

Definition set_settings (v : SettingsObjType) (g : Globals) : Globals :=
  {| settings := v; delayTimeMax := delayTimeMax g; oldDelayTime := oldDelayTime g;
     coarseDelayTime := coarseDelayTime g; oldEffect := oldEffect g;
     countDirection := countDirection g; inSelectMode := inSelectMode g;
     writeToEeprom := writeToEeprom g; writeTimer := writeTimer g; oldTime := oldTime g;
     thisTime := thisTime g; sumTime := sumTime g; cycleTime := cycleTime g;
     irqCounter := irqCounter g; useSymbolicTimeString := useSymbolicTimeString g;
     fineTuneDelayTime := fineTuneDelayTime g; ledDelay := ledDelay g |}.

Definition set_delayTimeMax (v : list Z) (g : Globals) : Globals :=
  {| settings := settings g; delayTimeMax := v; oldDelayTime := oldDelayTime g;
     coarseDelayTime := coarseDelayTime g; oldEffect := oldEffect g;
     countDirection := countDirection g; inSelectMode := inSelectMode g;
     writeToEeprom := writeToEeprom g; writeTimer := writeTimer g; oldTime := oldTime g;
     thisTime := thisTime g; sumTime := sumTime g; cycleTime := cycleTime g;
     irqCounter := irqCounter g; useSymbolicTimeString := useSymbolicTimeString g;
     fineTuneDelayTime := fineTuneDelayTime g; ledDelay := ledDelay g |}.

Definition set_oldDelayTime (v : list Z) (g : Globals) : Globals :=
  {| settings := settings g; delayTimeMax := delayTimeMax g; oldDelayTime := v;
     coarseDelayTime := coarseDelayTime g; oldEffect := oldEffect g;
     countDirection := countDirection g; inSelectMode := inSelectMode g;
     writeToEeprom := writeToEeprom g; writeTimer := writeTimer g; oldTime := oldTime g;
     thisTime := thisTime g; sumTime := sumTime g; cycleTime := cycleTime g;
     irqCounter := irqCounter g; useSymbolicTimeString := useSymbolicTimeString g;
     fineTuneDelayTime := fineTuneDelayTime g; ledDelay := ledDelay g |}.

Definition set_coarseDelayTime (v : Z) (g : Globals) : Globals :=
  {| settings := settings g; delayTimeMax := delayTimeMax g;
     oldDelayTime := oldDelayTime g; coarseDelayTime := v; oldEffect := oldEffect g;
     countDirection := countDirection g; inSelectMode := inSelectMode g;
     writeToEeprom := writeToEeprom g; writeTimer := writeTimer g; oldTime := oldTime g;
     thisTime := thisTime g; sumTime := sumTime g; cycleTime := cycleTime g;
     irqCounter := irqCounter g; useSymbolicTimeString := useSymbolicTimeString g;
     fineTuneDelayTime := fineTuneDelayTime g; ledDelay := ledDelay g |}.

Definition set_oldEffect (v : Z) (g : Globals) : Globals :=
  {| settings := settings g; delayTimeMax := delayTimeMax g;
     oldDelayTime := oldDelayTime g; coarseDelayTime := coarseDelayTime g;
     oldEffect := v; countDirection := countDirection g; inSelectMode := inSelectMode g;
     writeToEeprom := writeToEeprom g; writeTimer := writeTimer g; oldTime := oldTime g;
     thisTime := thisTime g; sumTime := sumTime g; cycleTime := cycleTime g;
     irqCounter := irqCounter g; useSymbolicTimeString := useSymbolicTimeString g;
     fineTuneDelayTime := fineTuneDelayTime g; ledDelay := ledDelay g |}.

Definition set_countDirection (v : Z) (g : Globals) : Globals :=
  {| settings := settings g; delayTimeMax := delayTimeMax g;
     oldDelayTime := oldDelayTime g; coarseDelayTime := coarseDelayTime g;
     oldEffect := oldEffect g; countDirection := v; inSelectMode := inSelectMode g;
     writeToEeprom := writeToEeprom g; writeTimer := writeTimer g; oldTime := oldTime g;
     thisTime := thisTime g; sumTime := sumTime g; cycleTime := cycleTime g;
     irqCounter := irqCounter g; useSymbolicTimeString := useSymbolicTimeString g;
     fineTuneDelayTime := fineTuneDelayTime g; ledDelay := ledDelay g |}.

Definition set_inSelectMode (v : bool) (g : Globals) : Globals :=
  {| settings := settings g; delayTimeMax := delayTimeMax g;
     oldDelayTime := oldDelayTime g; coarseDelayTime := coarseDelayTime g;
     oldEffect := oldEffect g; countDirection := countDirection g; inSelectMode := v;
     writeToEeprom := writeToEeprom g; writeTimer := writeTimer g; oldTime := oldTime g;
     thisTime := thisTime g; sumTime := sumTime g; cycleTime := cycleTime g;
     irqCounter := irqCounter g; useSymbolicTimeString := useSymbolicTimeString g;
     fineTuneDelayTime := fineTuneDelayTime g; ledDelay := ledDelay g |}.

Definition set_writeToEeprom (v : bool) (g : Globals) : Globals :=
  {| settings := settings g; delayTimeMax := delayTimeMax g;
     oldDelayTime := oldDelayTime g; coarseDelayTime := coarseDelayTime g;
     oldEffect := oldEffect g; countDirection := countDirection g;
     inSelectMode := inSelectMode g; writeToEeprom := v; writeTimer := writeTimer g;
     oldTime := oldTime g; thisTime := thisTime g; sumTime := sumTime g;
     cycleTime := cycleTime g; irqCounter := irqCounter g;
     useSymbolicTimeString := useSymbolicTimeString g;
     fineTuneDelayTime := fineTuneDelayTime g; ledDelay := ledDelay g |}.

Definition set_writeTimer (v : Z) (g : Globals) : Globals :=
  {| settings := settings g; delayTimeMax := delayTimeMax g;
     oldDelayTime := oldDelayTime g; coarseDelayTime := coarseDelayTime g;
     oldEffect := oldEffect g; countDirection := countDirection g;
     inSelectMode := inSelectMode g; writeToEeprom := writeToEeprom g; writeTimer := v;
     oldTime := oldTime g; thisTime := thisTime g; sumTime := sumTime g;
     cycleTime := cycleTime g; irqCounter := irqCounter g;
     useSymbolicTimeString := useSymbolicTimeString g;
     fineTuneDelayTime := fineTuneDelayTime g; ledDelay := ledDelay g |}.

Definition set_oldTime (v : Z) (g : Globals) : Globals :=
  {| settings := settings g; delayTimeMax := delayTimeMax g;
     oldDelayTime := oldDelayTime g; coarseDelayTime := coarseDelayTime g;
     oldEffect := oldEffect g; countDirection := countDirection g;
     inSelectMode := inSelectMode g; writeToEeprom := writeToEeprom g;
     writeTimer := writeTimer g; oldTime := v; thisTime := thisTime g;
     sumTime := sumTime g; cycleTime := cycleTime g; irqCounter := irqCounter g;
     useSymbolicTimeString := useSymbolicTimeString g;
     fineTuneDelayTime := fineTuneDelayTime g; ledDelay := ledDelay g |}.

Definition set_thisTime (v : Z) (g : Globals) : Globals :=
  {| settings := settings g; delayTimeMax := delayTimeMax g;
     oldDelayTime := oldDelayTime g; coarseDelayTime := coarseDelayTime g;
     oldEffect := oldEffect g; countDirection := countDirection g;
     inSelectMode := inSelectMode g; writeToEeprom := writeToEeprom g;
     writeTimer := writeTimer g; oldTime := oldTime g; thisTime := v;
     sumTime := sumTime g; cycleTime := cycleTime g; irqCounter := irqCounter g;
     useSymbolicTimeString := useSymbolicTimeString g;
     fineTuneDelayTime := fineTuneDelayTime g; ledDelay := ledDelay g |}.

Definition set_sumTime (v : Z) (g : Globals) : Globals :=
  {| settings := settings g; delayTimeMax := delayTimeMax g;
     oldDelayTime := oldDelayTime g; coarseDelayTime := coarseDelayTime g;
     oldEffect := oldEffect g; countDirection := countDirection g;
     inSelectMode := inSelectMode g; writeToEeprom := writeToEeprom g;
     writeTimer := writeTimer g; oldTime := oldTime g; thisTime := thisTime g;
     sumTime := v; cycleTime := cycleTime g; irqCounter := irqCounter g;
     useSymbolicTimeString := useSymbolicTimeString g;
     fineTuneDelayTime := fineTuneDelayTime g; ledDelay := ledDelay g |}.

Definition set_cycleTime (v : Z) (g : Globals) : Globals :=
  {| settings := settings g; delayTimeMax := delayTimeMax g;
     oldDelayTime := oldDelayTime g; coarseDelayTime := coarseDelayTime g;
     oldEffect := oldEffect g; countDirection := countDirection g;
     inSelectMode := inSelectMode g; writeToEeprom := writeToEeprom g;
     writeTimer := writeTimer g; oldTime := oldTime g; thisTime := thisTime g;
     sumTime := sumTime g; cycleTime := v; irqCounter := irqCounter g;
     useSymbolicTimeString := useSymbolicTimeString g;
     fineTuneDelayTime := fineTuneDelayTime g; ledDelay := ledDelay g |}.

Definition set_irqCounter (v : Z) (g : Globals) : Globals :=
  {| settings := settings g; delayTimeMax := delayTimeMax g;
     oldDelayTime := oldDelayTime g; coarseDelayTime := coarseDelayTime g;
     oldEffect := oldEffect g; countDirection := countDirection g;
     inSelectMode := inSelectMode g; writeToEeprom := writeToEeprom g;
     writeTimer := writeTimer g; oldTime := oldTime g; thisTime := thisTime g;
     sumTime := sumTime g; cycleTime := cycleTime g; irqCounter := v;
     useSymbolicTimeString := useSymbolicTimeString g;
     fineTuneDelayTime := fineTuneDelayTime g; ledDelay := ledDelay g |}.

Definition set_useSymbolicTimeString (v : bool) (g : Globals) : Globals :=
  {| settings := settings g; delayTimeMax := delayTimeMax g;
     oldDelayTime := oldDelayTime g; coarseDelayTime := coarseDelayTime g;
     oldEffect := oldEffect g; countDirection := countDirection g;
     inSelectMode := inSelectMode g; writeToEeprom := writeToEeprom g;
     writeTimer := writeTimer g; oldTime := oldTime g; thisTime := thisTime g;
     sumTime := sumTime g; cycleTime := cycleTime g; irqCounter := irqCounter g;
     useSymbolicTimeString := v; fineTuneDelayTime := fineTuneDelayTime g;
     ledDelay := ledDelay g |}.

Definition set_fineTuneDelayTime (v : bool) (g : Globals) : Globals :=
  {| settings := settings g; delayTimeMax := delayTimeMax g;
     oldDelayTime := oldDelayTime g; coarseDelayTime := coarseDelayTime g;
     oldEffect := oldEffect g; countDirection := countDirection g;
     inSelectMode := inSelectMode g; writeToEeprom := writeToEeprom g;
     writeTimer := writeTimer g; oldTime := oldTime g; thisTime := thisTime g;
     sumTime := sumTime g; cycleTime := cycleTime g; irqCounter := irqCounter g;
     useSymbolicTimeString := useSymbolicTimeString g; fineTuneDelayTime := v;
     ledDelay := ledDelay g |}.

Definition set_ledDelay (v : Z) (g : Globals) : Globals :=
  {| settings := settings g; delayTimeMax := delayTimeMax g;
     oldDelayTime := oldDelayTime g; coarseDelayTime := coarseDelayTime g;
     oldEffect := oldEffect g; countDirection := countDirection g;
     inSelectMode := inSelectMode g; writeToEeprom := writeToEeprom g;
     writeTimer := writeTimer g; oldTime := oldTime g; thisTime := thisTime g;
     sumTime := sumTime g; cycleTime := cycleTime g; irqCounter := irqCounter g;
     useSymbolicTimeString := useSymbolicTimeString g;
     fineTuneDelayTime := fineTuneDelayTime g; ledDelay := v |}.

(** Array cells [a[i]] for a signed index.  An index outside the array
    is undefined behaviour in the sketch; here such a read gives 0 and
    such a write is dropped, and the statements below say where the
    index lies. *)
Definition arr_get (a : list Z) (i : Z) : Z :=
  if i <? 0 then 0 else default 0 (a !! Z.to_nat i).

Definition arr_set (a : list Z) (i v : Z) : list Z :=
  if i <? 0 then a else <[Z.to_nat i := v]> a.

Definition set_effect (v : Z) (g : Globals) : Globals :=
  set_settings {| delayTime := delayTime (settings g);
                  isWetAndDrySelected := isWetAndDrySelected (settings g);
                  effect := v;
                  baseFactorIndex := baseFactorIndex (settings g) |} g.

Definition set_isWetAndDrySelected (v : bool) (g : Globals) : Globals :=
  set_settings {| delayTime := delayTime (settings g);
                  isWetAndDrySelected := v;
                  effect := effect (settings g);
                  baseFactorIndex := baseFactorIndex (settings g) |} g.

(** [settings.delayTime[i] = v] *)
Definition set_delayTime (i v : Z) (g : Globals) : Globals :=
  set_settings {| delayTime := arr_set (delayTime (settings g)) i v;
                  isWetAndDrySelected := isWetAndDrySelected (settings g);
                  effect := effect (settings g);
                  baseFactorIndex := baseFactorIndex (settings g) |} g.

(** [settings.baseFactorIndex[i] = v] *)
Definition set_baseFactorIndex (i v : Z) (g : Globals) : Globals :=
  set_settings {| delayTime := delayTime (settings g);
                  isWetAndDrySelected := isWetAndDrySelected (settings g);
                  effect := effect (settings g);
                  baseFactorIndex := arr_set (baseFactorIndex (settings g)) i v |} g.

Definition delayTime_at (g : Globals) (i : Z) : Z := arr_get (delayTime (settings g)) i.
Definition baseFactorIndex_at (g : Globals) (i : Z) : Z :=
  arr_get (baseFactorIndex (settings g)) i.
Definition delayTimeMax_at (g : Globals) (i : Z) : Z := arr_get (delayTimeMax g) i.

(** [isChorusOrReverb] (config.h) *)
Definition isChorusOrReverb (g : Globals) : bool :=
  (effect (settings g) =? CHORUS) || (effect (settings g) =? FAST_CHORUS)
  || (effect (settings g) =? REVERB).

(** The static initial values of the globals; [settings] is zeroed
    static storage with [effect = INITIAL_EFFECT]. *)
Definition initial_settings : SettingsObjType :=
  {| delayTime := replicate 13 0; isWetAndDrySelected := false;
     effect := INITIAL_EFFECT; baseFactorIndex := replicate 13 0 |}.

Definition initial_globals (millis : Z) : Globals :=
  {| settings := initial_settings; delayTimeMax := replicate 13 0;
     oldDelayTime := replicate 13 0; coarseDelayTime := 0; oldEffect := -1;
     countDirection := u8 RIGHT; inSelectMode := true; writeToEeprom := false;
     writeTimer := millis; oldTime := 0; thisTime := 0; sumTime := 0;
     cycleTime := 0; irqCounter := 0; useSymbolicTimeString := false;
     fineTuneDelayTime := false; ledDelay := LED_DELAY |}.

(** Events of the rotary decoder ([rotary.process()], library Rotary). *)
Inductive RotaryEvent := DIR_NONE | DIR_CW | DIR_CCW.

Section Handlers.

(** [symbolicDelay i c] is the value of
    [236.88 * pow(0.9978, baseFactor[i] * c / DIV_FACTOR)]
    truncated to an integer, for the table index [i] and the cycle
    time [c].  It is floating-point arithmetic over the [baseFactor]
    table and is kept abstract; the handlers cast it with [byte(..)]. *)
Variable symbolicDelay : Z -> Z -> Z.

(** The [DIR_CCW] branch of [rotate]. *)
Definition rotate_ccw (g : Globals) : Globals :=
  if inSelectMode g then
    if effect (settings g) >? 0
    then set_effect (i8 (effect (settings g) - 1)) g
    else set_effect (NR_OF_EFFECTS - 1) g
  else
    let e := effect (settings g) in
    let g :=
      if baseFactorIndex_at g e >? 0
      then set_baseFactorIndex e (u8 (baseFactorIndex_at g e - countDirection g)) g
      else set_baseFactorIndex e 0 g in
    let g :=
      if negb (fineTuneDelayTime g) then
        if useSymbolicTimeString g && negb (isChorusOrReverb g) then
          let g := set_delayTime e
                     (u8 (symbolicDelay (baseFactorIndex_at g e) (cycleTime g))) g in
          set_coarseDelayTime (delayTime_at g e) g
        else set_delayTime e (u8 (delayTime_at g e - countDirection g)) g
      else set_delayTime e (u8 (delayTime_at g e - countDirection g)) g in
    if delayTime_at g e <? DELAY_TIME_MIN
    then set_delayTime e DELAY_TIME_MIN g
    else g.

(** The [DIR_CW] branch of [rotate]. *)
Definition rotate_cw (g : Globals) : Globals :=
  if inSelectMode g then
    let g := set_effect (i8 (effect (settings g) + 1)) g in
    if effect (settings g) >? NR_OF_EFFECTS - 1
    then set_effect 0 g
    else g
  else
    let e := effect (settings g) in
    let g := set_baseFactorIndex e (u8 (baseFactorIndex_at g e + countDirection g)) g in
    let g :=
      if baseFactorIndex_at g e >? NR_OF_MULT_FACTORS - 1
      then set_baseFactorIndex e (NR_OF_MULT_FACTORS - 1) g
      else g in
    let g :=
      if negb (fineTuneDelayTime g) then
        if useSymbolicTimeString g && negb (isChorusOrReverb g) then
          let g := set_delayTime e
                     (u8 (symbolicDelay (baseFactorIndex_at g e) (cycleTime g))) g in
          set_coarseDelayTime (delayTime_at g e) g
        else set_delayTime e (u8 (delayTime_at g e + countDirection g)) g
      else set_delayTime e (u8 (delayTime_at g e + countDirection g)) g in
    if delayTime_at g e >? delayTimeMax_at g e
    then set_delayTime e (delayTimeMax_at g e) g
    else g.

(** [rotate], the interrupt service routine of the encoder, for the
    event [rotary.process()] returned.  The restart of the screen saver
    at its end is left out. *)
Definition rotate (rotationDirection : RotaryEvent) (g : Globals) : Globals :=
  match rotationDirection with
  | DIR_CCW => rotate_ccw g
  | DIR_CW => rotate_cw g
  | DIR_NONE => g
  end.

(** [extClock], the interrupt service routine of the clock input, up
    to its closing [button.tick()]; [micros] is the value [micros()]
    returns in it.  [button.tick()] may run the callbacks of the push
    button, which toggle [inSelectMode], [fineTuneDelayTime] and the
    wet/dry flag; the handler with that call is [extClock_isr]
    below. *)
Definition extClock (micros : Z) (g : Globals) : Globals :=
  let g := set_irqCounter (u8 (irqCounter g + 1)) g in
  let g := set_thisTime (u32 micros) g in
  let g := set_sumTime (u32 (sumTime g + u32 (thisTime g - oldTime g))) g in
  let g := set_oldTime (thisTime g) g in
  if irqCounter g >? NR_OF_CYCLES then
    let g := set_cycleTime (sumTime g / irqCounter g) g in
    let g :=
      if negb (fineTuneDelayTime g) then
        let e := effect (settings g) in
        let tmp := u8 (symbolicDelay (baseFactorIndex_at g e) (cycleTime g)) in
        let tmp := if tmp >? delayTimeMax_at g e then delayTimeMax_at g e else tmp in
        let tmp := if tmp <? DELAY_TIME_MIN then DELAY_TIME_MIN else tmp in
        set_delayTime e tmp g
      else g in
    let g := set_useSymbolicTimeString true g in
    let g := set_ledDelay (LED_DELAY / 10) g in
    let g := set_irqCounter 0 g in
    set_sumTime 0 g
  else g.

(** A run of clock pulses, one call of [extClock] per time stamp. *)
Fixpoint pulses (ts : list Z) (g : Globals) : Globals :=
  match ts with
  | [] => g
  | t :: ts' => pulses ts' (extClock t g)
  end.

End Handlers.

(** Button callbacks: single click and double click. *)
Definition setDelayTime (g : Globals) : Globals :=
  set_inSelectMode (negb (inSelectMode g)) g.

Definition finetuneDelayTime (g : Globals) : Globals :=
  set_fineTuneDelayTime (negb (fineTuneDelayTime g)) g.

(** [updateEepromTimer]; [millis] is the value [millis()] returns. *)
Definition updateEepromTimer (millis : Z) (g : Globals) : Globals :=
  let g := set_writeToEeprom true g in
  set_writeTimer (u32 (u32 millis + DELAY_TIME_BEFORE_WRITING_TO_EEPROM_IN_MS)) g.

(** [writeSettingsToEeprom] (with WRITE_TO_EEPROM defined); the last
    component tells whether [eeprom.write(settings)] was called. *)
Definition writeSettingsToEeprom (millis : Z) (m : EEPROM.cells) (e : Eeprom)
           (g : Globals) : EEPROM.cells * Eeprom * Globals * bool :=
  if writeToEeprom g && (u32 millis >? writeTimer g) then
    let g := set_writeToEeprom false g in
    let '(m, e, _) := write m e (settings g) in
    (m, e, g, true)
  else (m, e, g, false).

(** The sign convention [loop] picks for the active effect:
    [countDirection = RIGHT] and then, in the [switch], [LEFT] for the
    effects whose counter is a speed.  [countDirection] is a [byte]. *)
Definition loop_countDirection (effect : Z) : Z :=
  if (effect =? REVERB) || (effect =? WOW_NOT_FLUTTER) || (effect =? TELEGRAPH)
     || (effect =? TELEVERB) || (effect =? PSYCHO)
  then u8 LEFT else u8 RIGHT.

(** The test of [loop] that marks the settings dirty. *)
Definition loop_dirty (g : Globals) : bool :=
  negb (effect (settings g) =? oldEffect g)
  || negb (delayTime_at g (effect (settings g))
           =? arr_get (oldDelayTime g) (effect (settings g))).

(** The last statement of [loop]: the clock is taken as absent when
    the last pulse is more than EXT_CLOCK_TIMEOUT ago. *)
Definition loop_clockTimeout (micros : Z) (g : Globals) : Globals :=
  if useSymbolicTimeString g && (u32 (u32 micros - thisTime g) >? EXT_CLOCK_TIMEOUT) then
    let g := set_useSymbolicTimeString false g in
    set_ledDelay LED_DELAY g
  else g.

(** The table [setup] fills: 255 everywhere, then the decelerator, the
    short delay and wow-not-flutter. *)
Definition DECELERATOR_UPDATE_TIME_MAX : Z := 100.
Definition WOW_NOT_FLUTTER_TIME_MAX : Z := 60.

Definition setup_delayTimeMax : list Z :=
  <[Z.to_nat WOW_NOT_FLUTTER := WOW_NOT_FLUTTER_TIME_MAX]>
    (<[Z.to_nat SHORT_DELAY := 255]>
       (<[Z.to_nat DECELERATOR := DECELERATOR_UPDATE_TIME_MAX]>
          (replicate (Z.to_nat NR_OF_EFFECTS) 255))).

(** [setup] without PRIME_THE_EEPROM, as far as it touches the store
    and the globals above: the store is constructed over the device,
    the record is read into [settings] and the return value of [read]
    is dropped.  [length] is [EEPROM.length()], [micros] the value of
    [micros()].  Interrupts arriving while [setup] runs (the handlers
    are attached in front of its [delay(6000)]) are left out.  [setup]
    indexes [delayTime], [baseFactorIndex] and [oldDelayTime] with the
    loaded [settings.effect]: the definition follows the sketch for an
    effect index in 0..12, and the statements about [setup] are made
    for such an index. *)
Definition setup (m : EEPROM.cells) (length micros : Z) (g : Globals)
  : option (EEPROM.cells * Eeprom * Globals) :=
  match Eeprom_new (Obj := SettingsObjType) m length with
  | None => None
  | Some (m, eeprom) =>
      let '(eeprom, _, p) := read (Obj := SettingsObjType) m eeprom in
      let g := match p with Some s => set_settings s g | None => g end in
      let g := set_delayTimeMax setup_delayTimeMax g in
      let g := set_oldDelayTime (delayTime (settings g)) g in
      let g := set_oldTime (u32 micros) g in
      let g := set_oldEffect (effect (settings g)) g in
      let g := set_oldDelayTime
                 (arr_set (oldDelayTime g) (effect (settings g))
                          (delayTime_at g (effect (settings g)))) g in
      Some (m, eeprom, g)
  end.

(** The deferred write as [loop] drives it: a dirty mark calls
    [updateEepromTimer], every pass polls [writeSettingsToEeprom]. *)
Inductive SchedulerEvent := Dirty (millis : Z) | Poll (millis : Z).

Fixpoint scheduler_run (evs : list SchedulerEvent) (m : EEPROM.cells) (e : Eeprom)
         (g : Globals) : EEPROM.cells * Eeprom * Globals * nat :=
  match evs with
  | [] => (m, e, g, O)
  | Dirty t :: evs' => scheduler_run evs' m e (updateEepromTimer t g)
  | Poll t :: evs' =>
      let '(m1, e1, g1, w) := writeSettingsToEeprom t m e g in
      let '(m2, e2, g2, n) := scheduler_run evs' m1 e1 g1 in
      (m2, e2, g2, if w then S n else n)
  end.

(** ** Vocabulary of the statements *)

(** Markers are [unsigned long] values. *)
Definition is_ulong (v : Z) : Prop := 0 <= v < 4294967296.

(** Marker-aligned addresses: multiples of the marker size. *)
Definition aligned (a : Z) : Prop := a mod SIZE_OF_DATA_MARKER = 0.

(** No marker-aligned address other than [cur] holds the live marker. *)
Definition single_marker (m : EEPROM.cells) (cur : Z) : Prop :=
  forall a, aligned a -> a <> cur -> EEPROM_get (T := Z) m a <> DATA_MARKER.

(** No marker-aligned address holds the live marker. *)
Definition no_marker (m : EEPROM.cells) : Prop :=
  forall a, aligned a -> EEPROM_get (T := Z) m a <> DATA_MARKER.

(** The [unsigned long] made of the bytes [i .. i+3] of a representation. *)
Definition word_at (bs : list Z) (i : nat) : Z :=
  ulong_of_bytes [nth i bs 0; nth (i + 1) bs 0; nth (i + 2) bs 0; nth (i + 3) bs 0].

(** No marker-aligned word of a representation is the live marker. *)
Definition marker_free (bs : list Z) : bool :=
  forallb (fun k => negb (word_at bs (4 * k) =? DATA_MARKER))
          (seq 0 (Nat.div (length bs) 4)).

(** The struct [setup] builds under PRIME_THE_EEPROM. *)
Definition prime_settings : SettingsObjType :=
  {| delayTime := replicate (Z.to_nat NR_OF_EFFECTS) INITIAL_DELAY_TIME;
     isWetAndDrySelected := true;
     effect := INITIAL_EFFECT;
     baseFactorIndex := replicate (Z.to_nat NR_OF_EFFECTS) INITIAL_BASE_FACTOR |}.

(** The same struct with the delay values of ECHO2, ECHO3, CHORUS and
    FAST_CHORUS at 102 = 0x66. *)
Definition sixes_settings : SettingsObjType :=
  {| delayTime := [220; 220; 220; 220; 102; 102; 102; 102; 220; 220; 220; 220; 220];
     isWetAndDrySelected := true;
     effect := INITIAL_EFFECT;
     baseFactorIndex := replicate (Z.to_nat NR_OF_EFFECTS) INITIAL_BASE_FACTOR |}.

(** The controller in SetParameter mode on effect [e], with delay
    value [d] and ratio index [b] for that effect, as [setup] and the
    effect switch of [loop] leave the other globals. *)
Definition parameter_state (e d b : Z) : Globals :=
  let g := set_settings prime_settings (initial_globals 0) in
  let g := set_delayTimeMax setup_delayTimeMax g in
  let g := set_effect e g in
  let g := set_delayTime e d g in
  let g := set_baseFactorIndex e b g in
  let g := set_countDirection (loop_countDirection e) g in
  set_inSelectMode false g.

(** A stand-in for the floating-point formula, for running the
    handlers on concrete inputs. *)
Definition flat_delay (i c : Z) : Z := 120.

(** The time stamp [oldTime] holds after the pulses [ts], [d] when
    there was none. *)
Definition last_stamp (ts : list Z) (d : Z) : Z := List.last (map u32 ts) d.

(** A struct whose fields break the settings invariants: effect index
    13 = NR_OF_EFFECTS and a decelerator delay of 3, below
    DELAY_TIME_MIN. *)
Definition out_of_range_settings : SettingsObjType :=
  {| delayTime := [3; 220; 220; 220; 220; 220; 220; 220; 220; 220; 220; 220; 220];
     isWetAndDrySelected := true;
     effect := 13;
     baseFactorIndex := replicate (Z.to_nat NR_OF_EFFECTS) INITIAL_BASE_FACTOR |}.

(** The deferred write away from the roll-over of [millis()].
    [deadline] is the value of [writeTimer] while [writeToEeprom] is
    set, [None] while it is clear. *)
Definition timer_state (g : Globals) (deadline : option Z) : Prop :=
  match deadline with
  | Some d => writeToEeprom g = true /\ writeTimer g = d
  | None => writeToEeprom g = false
  end.

(** A burst: every dirty mark comes at a time whose deadline does not
    wrap, and every poll comes no later than the deadline of the
    latest mark before it. *)
Fixpoint within_window (deadline : option Z) (evs : list SchedulerEvent) : Prop :=
  match evs with
  | [] => True
  | Dirty t :: evs' =>
      0 <= t /\ t + DELAY_TIME_BEFORE_WRITING_TO_EEPROM_IN_MS < 4294967296 /\
      within_window (Some (t + DELAY_TIME_BEFORE_WRITING_TO_EEPROM_IN_MS)) evs'
  | Poll p :: evs' =>
      0 <= p < 4294967296 /\
      match deadline with Some d => p <= d | None => True end /\
      within_window deadline evs'
  end.

(** The deadline in force after the events [evs]. *)
Fixpoint final_deadline (deadline : option Z) (evs : list SchedulerEvent) : option Z :=
  match evs with
  | [] => deadline
  | Dirty t :: evs' =>
      final_deadline (Some (t + DELAY_TIME_BEFORE_WRITING_TO_EEPROM_IN_MS)) evs'
  | Poll _ :: evs' => final_deadline deadline evs'
  end.

(** A round: a burst with at least one dirty mark, then a poll after
    its last deadline. *)
Definition round_ok (r : list SchedulerEvent * Z) : Prop :=
  within_window None (fst r) /\
  exists d, final_deadline None (fst r) = Some d /\ d < snd r < 4294967296.

Fixpoint rounds_events (rs : list (list SchedulerEvent * Z)) : list SchedulerEvent :=
  match rs with
  | [] => []
  | (evs, p) :: rs' => evs ++ Poll p :: rounds_events rs'
  end.


(** ** Eeprom.hpp: the members used for debugging and priming *)

(** The [for] loop of [erase]: [n] cells from [address] on are
    written 0xff.  The loop runs [eeprom_sizeInBytes] times. *)
Fixpoint erase_cells (n : nat) (address : Z) (m : EEPROM.cells) : EEPROM.cells :=
  match n with
  | O => m
  | S n' => erase_cells n' (address + 1) (EEPROM.write m address 0xff)
  end.

(** [erase] *)
Definition erase (m : EEPROM.cells) (e : Eeprom) : EEPROM.cells * Eeprom :=
  let m := erase_cells (Z.to_nat (eeprom_sizeInBytes e)) 0 m in
  let e := set_currentAddress 0 e in
  (EEPROM_put m (eeprom_currentAddress e) EMPTY_MARKER, e).

(** The number of dummy bytes [printError] tells the user to add
    ([uint8_t amount]). *)
Definition printError_amount {Obj : Type} `{Stored Obj} : Z :=
  u8 (u16 (SIZE_OF_DATA_MARKER
           - SIZE_OF_SETTINGS_STRUCT (Obj := Obj) mod SIZE_OF_DATA_MARKER)).

(** [prime] (compiled under PRIME_THE_EEPROM): the struct is put at
    the start of the memory; the cursor is left where it is. *)
Definition prime {Obj : Type} `{Stored Obj} (m : EEPROM.cells) (e : Eeprom) (settings : Obj)
  : EEPROM.cells * Eeprom :=
  if blocked e then (m, e)
  else
    let e := set_dataItem (EEPROM_get m (eeprom_currentAddress e)) e in
    let m := eraseMarkerByte m e in
    let m := EEPROM_put m 0 DATA_MARKER in
    let m := EEPROM_put m SIZE_OF_DATA_MARKER settings in
    (m, e).

(** The [for] loop of [setup] under PRIME_THE_EEPROM: the ratio index
    and the delay value of the [n] effects from [effect] on. *)
Fixpoint setup_prime_fill (n : nat) (effect : Z) (g : Globals) : Globals :=
  match n with
  | O => g
  | S n' =>
      let g := set_baseFactorIndex effect INITIAL_BASE_FACTOR g in
      let g := set_delayTime effect INITIAL_DELAY_TIME g in
      setup_prime_fill n' (effect + 1) g
  end.

(** [setup] under PRIME_THE_EEPROM. *)
Definition setup_prime (m : EEPROM.cells) (length : Z) (g : Globals)
  : option (EEPROM.cells * Eeprom * Globals) :=
  match Eeprom_new (Obj := SettingsObjType) m length with
  | None => None
  | Some (m, eeprom) =>
      let g := set_effect INITIAL_EFFECT g in
      let g := set_isWetAndDrySelected true g in
      let g := setup_prime_fill (Z.to_nat NR_OF_EFFECTS) 0 g in
      let g := set_effect INITIAL_EFFECT g in
      let g := set_isWetAndDrySelected true g in
      let '(m, eeprom) := prime m eeprom (settings g) in
      Some (m, eeprom, g)
  end.

(** A 3-byte record, for running the store with a struct whose size
    is no multiple of the marker size. *)
Record Record3 := { record3_bytes : list Z }.

#[export] Instance Stored_record3 : Stored Record3 := {|
  sizeof := 3;
  object_bytes := fun r => resize 3 0 (map u8 (record3_bytes r));
  object_of_bytes := fun bs => {| record3_bytes := take 3 bs |}
|}.

(** The slot of a record and the number of cursor positions [write]
    uses in a memory of [size] bytes. *)
Definition slot_size {Obj : Type} `{Stored Obj} : Z :=
  SIZE_OF_SETTINGS_STRUCT (Obj := Obj) + SIZE_OF_DATA_MARKER.

Definition slot_count {Obj : Type} `{Stored Obj} (size : Z) : Z :=
  (size - 1) / slot_size (Obj := Obj) + 1.

(** ** MillisDelay.hpp *)

Record MillisDelay := {
  _delayTime : Z;          (* unsigned long *)
  _oldTime : Z;            (* unsigned long *)
  _alreadyFinished : bool; (* = false *)
  _stop : bool             (* = false *)
}.

(** [MillisDelay()] for an object in static storage, and
    [MillisDelay(delayTime)] with the value [millis()] returns. *)
Definition MillisDelay_default : MillisDelay :=
  {| _delayTime := 0; _oldTime := 0; _alreadyFinished := false; _stop := false |}.

Definition MillisDelay_new (delayTime millis : Z) : MillisDelay :=
  {| _delayTime := u32 delayTime; _oldTime := u32 millis;
     _alreadyFinished := false; _stop := false |}.

Module MillisDelayClass.

Definition start (millis : Z) (d : MillisDelay) : MillisDelay :=
  {| _delayTime := _delayTime d; _oldTime := u32 millis;
     _alreadyFinished := false; _stop := _stop d |}.

Definition justFinished (millis : Z) (d : MillisDelay) : MillisDelay * bool :=
  if _stop d then
    ({| _delayTime := _delayTime d; _oldTime := _oldTime d;
        _alreadyFinished := _alreadyFinished d; _stop := false |}, true)
  else (d, u32 (u32 millis - _oldTime d) >? _delayTime d).

Definition set (someDelayTime : Z) (d : MillisDelay) : MillisDelay :=
  {| _delayTime := u32 someDelayTime; _oldTime := _oldTime d;
     _alreadyFinished := _alreadyFinished d; _stop := _stop d |}.

End MillisDelayClass.

(** ** The sketch: screen saver *)

Definition SCREENCLS_DELAY : Z := 3000000.
Definition SCREENSAVER_DELAY : Z := 60000.
Definition CLS_TIMER_ACTION : Z := 2.
Definition SCREENSAVER_TIMER_ACTION : Z := 4.

Record ScreenSaver := {
  inScreenSaverMode : bool;          (* volatile bool, = OFF *)
  screensaverDelay1 : MillisDelay;
  screensaverDelay2 : MillisDelay
}.

(** What the screen saver sends to the display: the blank screen
    ([clearDisplay] and [display]) and the circle animation (the two
    calls of [showFillCircle]). *)
Inductive ScreenAction := ClearDisplay | FillCircles.

(** [cls] *)
Definition cls (action : Z) (ss : ScreenSaver) : ScreenSaver * list ScreenAction :=
  if action =? CLS_TIMER_ACTION then
    ({| inScreenSaverMode := true;
        screensaverDelay1 := screensaverDelay1 ss;
        screensaverDelay2 := screensaverDelay2 ss |}, [ClearDisplay])
  else if action =? SCREENSAVER_TIMER_ACTION then
    (ss, if inScreenSaverMode ss then [FillCircles] else [])
  else (ss, []).

(** [screensaverTick]; [t1], [s1], [t2], [s2] are the values the four
    calls of [millis()] return, in the order of the calls. *)
Definition screensaverTick (t1 s1 t2 s2 : Z) (ss : ScreenSaver)
  : ScreenSaver * list ScreenAction :=
  let '(d1, finished1) := MillisDelayClass.justFinished t1 (screensaverDelay1 ss) in
  let ss := {| inScreenSaverMode := inScreenSaverMode ss;
               screensaverDelay1 := d1;
               screensaverDelay2 := screensaverDelay2 ss |} in
  let '(ss, out1) :=
    if finished1 then
      cls CLS_TIMER_ACTION
          {| inScreenSaverMode := inScreenSaverMode ss;
             screensaverDelay1 := MillisDelayClass.start s1 (screensaverDelay1 ss);
             screensaverDelay2 := screensaverDelay2 ss |}
    else (ss, []) in
  let '(d2, finished2) := MillisDelayClass.justFinished t2 (screensaverDelay2 ss) in
  let ss := {| inScreenSaverMode := inScreenSaverMode ss;
               screensaverDelay1 := screensaverDelay1 ss;
               screensaverDelay2 := d2 |} in
  let '(ss, out2) :=
    if finished2 then
      cls SCREENSAVER_TIMER_ACTION
          {| inScreenSaverMode := inScreenSaverMode ss;
             screensaverDelay1 := screensaverDelay1 ss;
             screensaverDelay2 := MillisDelayClass.start s2 (screensaverDelay2 ss) |}
    else (ss, []) in
  (ss, out1 ++ out2).

(** The end of [rotate]: the screen saver is switched off and both
    delays are started; [s1], [s2] are the values of [millis()]. *)
Definition rotate_screensaver (s1 s2 : Z) (ss : ScreenSaver) : ScreenSaver :=
  let ss := if inScreenSaverMode ss
            then {| inScreenSaverMode := false;
                    screensaverDelay1 := screensaverDelay1 ss;
                    screensaverDelay2 := screensaverDelay2 ss |}
            else ss in
  {| inScreenSaverMode := inScreenSaverMode ss;
     screensaverDelay1 := MillisDelayClass.start s1 (screensaverDelay1 ss);
     screensaverDelay2 := MillisDelayClass.start s2 (screensaverDelay2 ss) |}.

(** The end of [setup]: both delays are constructed and started. *)
Definition setup_screensaver (c1 s1 c2 s2 : Z) (ss : ScreenSaver) : ScreenSaver :=
  {| inScreenSaverMode := inScreenSaverMode ss;
     screensaverDelay1 :=
       MillisDelayClass.start s1 (MillisDelay_new SCREENCLS_DELAY c1);
     screensaverDelay2 :=
       MillisDelayClass.start s2 (MillisDelay_new SCREENSAVER_DELAY c2) |}.

(** ** The sketch: the long press *)

(** [wetDryToggle]: the new globals, the value written to switch C
    ([digitalWrite(SWC, ..)]) when one is written, and the screen
    saver flag, which is switched off. *)
Definition wetDryToggle (g : Globals) (ss : ScreenSaver)
  : Globals * option bool * ScreenSaver :=
  let e := effect (settings g) in
  let '(g, swc) :=
    if (e =? SHORT_DELAY) || (e =? DELAY) || (e =? ECHO1) || (e =? ECHO2)
       || (e =? ECHO3) || (e =? REVERB) || (e =? PSYCHO)
    then
      let g := set_isWetAndDrySelected (negb (isWetAndDrySelected (settings g))) g in
      (g, Some (isWetAndDrySelected (settings g)))
    else (g, None) in
  (g, swc, {| inScreenSaverMode := false;
              screensaverDelay1 := screensaverDelay1 ss;
              screensaverDelay2 := screensaverDelay2 ss |}).

(** ** Runs of encoder events *)

Fixpoint rotations (symbolicDelay : Z -> Z -> Z) (evs : list RotaryEvent) (g : Globals)
  : Globals :=
  match evs with
  | [] => g
  | ev :: evs' => rotations symbolicDelay evs' (rotate symbolicDelay ev g)
  end.

(** ** The sketch: the modulated effects of [loop] *)

Definition MIN_TIME : Z := 80.
Definition CHORUS_LOWER_LIMIT : Z := 185.
Definition CHORUS_UPPER_LIMIT : Z := 250.

Record Modulation := {
  psychoCounter : Z;          (* byte, = 0 *)
  chorusCounter : Z;          (* byte, = 130 *)
  directionUp : Z;            (* int, = 1 *)
  delayCurrentMillis : Z;     (* unsigned long *)
  delayPreviousMillis : Z     (* unsigned long, = 0 *)
}.

(** What a pass of [loop] sends out: the four CD4066 switches
    ([setSwitches]), the two PWM values and the time it waits in
    [delay]. *)
Record EffectOutput := {
  out_swa : bool; out_swb : bool; out_swc : bool; out_swd : bool;
  out_pwm1 : Z; out_pwm2 : Z;
  out_wait : Z
}.

(** [case(PSYCHO)] of the effect switch of [loop]. *)
Definition loop_case_PSYCHO (g : Globals) (md : Modulation)
  : Globals * Modulation * EffectOutput :=
  let wait := Z.shiftr (delayTime_at g PSYCHO) 1 in
  let md :=
    if directionUp md =? 1 then
      let c := u8 (psychoCounter md + 1) in
      if c >? 220
      then {| psychoCounter := 220; chorusCounter := chorusCounter md; directionUp := 0;
              delayCurrentMillis := delayCurrentMillis md;
              delayPreviousMillis := delayPreviousMillis md |}
      else {| psychoCounter := c; chorusCounter := chorusCounter md;
              directionUp := directionUp md;
              delayCurrentMillis := delayCurrentMillis md;
              delayPreviousMillis := delayPreviousMillis md |}
    else
      let c := u8 (psychoCounter md - 1) in
      if c <? 50
      then {| psychoCounter := 20; chorusCounter := chorusCounter md; directionUp := 1;
              delayCurrentMillis := delayCurrentMillis md;
              delayPreviousMillis := delayPreviousMillis md |}
      else {| psychoCounter := c; chorusCounter := chorusCounter md;
              directionUp := directionUp md;
              delayCurrentMillis := delayCurrentMillis md;
              delayPreviousMillis := delayPreviousMillis md |} in
  let pwm1 := if Z.shiftr (psychoCounter md) 1 >? 50
              then Z.shiftr (psychoCounter md) 1 else 50 in
  (set_countDirection (u8 LEFT) g, md,
   {| out_swa := true; out_swb := true;
      out_swc := isWetAndDrySelected (settings g); out_swd := true;
      out_pwm1 := pwm1; out_pwm2 := 270 - psychoCounter md;
      out_wait := wait |}).

(** [case(CHORUS)] and [case(FAST_CHORUS)] of the effect switch of
    [loop] (the first falls through into the second; [delta] is 2 in
    both).  [pedal] is the value of [digitalRead(PEDAL_SWITCH)],
    [millis] the value of [millis()]. *)
Definition loop_case_CHORUS (pedal : bool) (millis : Z) (g : Globals) (md : Modulation)
  : Globals * Modulation * EffectOutput :=
  let delta := 2 in
  let period := u16 (MIN_TIME + Z.shiftr (delayTime_at g CHORUS) 1) in
  let md :=
    if directionUp md =? 1 then
      let '(c, up) :=
        if chorusCounter md >? CHORUS_UPPER_LIMIT
        then (CHORUS_UPPER_LIMIT, 0) else (chorusCounter md, directionUp md) in
      let now := u32 millis in
      if u32 (now - delayPreviousMillis md) >? period
      then {| psychoCounter := psychoCounter md; chorusCounter := u8 (c + delta);
              directionUp := up; delayCurrentMillis := now;
              delayPreviousMillis := now |}
      else {| psychoCounter := psychoCounter md; chorusCounter := c;
              directionUp := up; delayCurrentMillis := now;
              delayPreviousMillis := delayPreviousMillis md |}
    else
      let '(c, up) :=
        if chorusCounter md <? CHORUS_LOWER_LIMIT
        then (CHORUS_LOWER_LIMIT, 1) else (chorusCounter md, directionUp md) in
      let now := u32 millis in
      if u32 (now - delayPreviousMillis md) >? period
      then {| psychoCounter := psychoCounter md; chorusCounter := u8 (c - delta);
              directionUp := up; delayCurrentMillis := now;
              delayPreviousMillis := now |}
      else {| psychoCounter := psychoCounter md; chorusCounter := c;
              directionUp := up; delayCurrentMillis := now;
              delayPreviousMillis := delayPreviousMillis md |} in
  (g, md,
   {| out_swa := true; out_swb := false; out_swc := negb pedal; out_swd := true;
      out_pwm1 := chorusCounter md; out_pwm2 := u8 (440 - chorusCounter md);
      out_wait := 0 |}).


(** ** The sketch: [button.tick()] inside the clock handler

    [extClock] ends with [button.tick()] (library OneButton), which
    may run the callbacks attached in [setup]: [setDelayTime] on a
    click, [finetuneDelayTime] on a double click and [wetDryToggle] at
    the start of a long press.  Which of them run is decided by the
    library from the state of the push button; here the callbacks one
    call of [button.tick()] runs are an input, in the order they run.
    A click also switches the screen saver off.  What the callbacks
    send to the display and to switch C, and the display flags
    [loopb] and [old_isWetAndDrySelected] a click sets, are left
    out. *)
Inductive ButtonCallback := Click | DoubleClick | LongPressStart.

Definition button_callback (cb : ButtonCallback) (st : Globals * ScreenSaver)
  : Globals * ScreenSaver :=
  match cb with
  | Click =>
      (setDelayTime (fst st),
       {| inScreenSaverMode := false;
          screensaverDelay1 := screensaverDelay1 (snd st);
          screensaverDelay2 := screensaverDelay2 (snd st) |})
  | DoubleClick => (finetuneDelayTime (fst st), snd st)
  | LongPressStart =>
      let '(g, _, ss) := wetDryToggle (fst st) (snd st) in (g, ss)
  end.

Fixpoint button_tick (cbs : list ButtonCallback) (st : Globals * ScreenSaver)
  : Globals * ScreenSaver :=
  match cbs with
  | [] => st
  | cb :: cbs' => button_tick cbs' (button_callback cb st)
  end.

(** The whole handler: the statements of [extClock] and then
    [button.tick()]. *)
Definition extClock_isr (symbolicDelay : Z -> Z -> Z) (micros : Z)
           (cbs : list ButtonCallback) (st : Globals * ScreenSaver)
  : Globals * ScreenSaver :=
  button_tick cbs (extClock symbolicDelay micros (fst st), snd st).

(** A run of clock pulses, each with its time stamp and the callbacks
    its [button.tick()] runs. *)
Fixpoint pulses_isr (symbolicDelay : Z -> Z -> Z) (ps : list (Z * list ButtonCallback))
         (st : Globals * ScreenSaver) : Globals * ScreenSaver :=
  match ps with
  | [] => st
  | (t, cbs) :: ps' => pulses_isr symbolicDelay ps' (extClock_isr symbolicDelay t cbs st)
  end.



(** * Properties *)

(** ** Machine integers *)

Ltac zmod := unfold u8, i8, u16, u32, is_byte in *; Z.div_mod_to_equations; lia.

Lemma u8_id (x : Z) : is_byte x -> u8 x = x.
Proof. intros Hx. unfold u8. apply Z.mod_small. exact Hx. Qed.

Lemma u8_is_byte (x : Z) : is_byte (u8 x).
Proof. zmod. Qed.

Lemma u16_id (x : Z) : 0 <= x < 65536 -> u16 x = x.
Proof. intros Hx. unfold u16. apply Z.mod_small. exact Hx. Qed.

Lemma u32_id (x : Z) : 0 <= x < 4294967296 -> u32 x = x.
Proof. intros Hx. unfold u32. apply Z.mod_small. exact Hx. Qed.

Lemma i8_u8 (x : Z) : -128 <= x < 128 -> i8 (u8 x) = x.
Proof. intros Hx. zmod. Qed.

Lemma u16_aligned (x : Z) : x mod 4 = 0 -> u16 x mod 4 = 0.
Proof. intros Hx. zmod. Qed.

(** ** The device: reading back what was put *)

Lemma read_put_bytes_outside (bs : list Z) (m : EEPROM.cells) (idx a : Z) :
  a < idx \/ idx + Z.of_nat (length bs) <= a ->
  EEPROM.read (EEPROM.put_bytes m idx bs) a = EEPROM.read m a.
Proof.
  revert m idx. induction bs as [|b bs IH]; intros m idx Ha; simpl.
  - reflexivity.
  - rewrite IH by (simpl in Ha; lia).
    unfold EEPROM.read, EEPROM.write.
    destruct (a =? idx) eqn:E; [apply Z.eqb_eq in E; simpl in Ha; lia | reflexivity].
Qed.

Lemma read_put_bytes_inside (bs : list Z) (m : EEPROM.cells) (idx : Z) (i : nat) :
  (i < length bs)%nat ->
  EEPROM.read (EEPROM.put_bytes m idx bs) (idx + Z.of_nat i) = u8 (nth i bs 0).
Proof.
  revert m idx i. induction bs as [|b bs IH]; intros m idx i Hi; simpl in Hi.
  - lia.
  - destruct i as [|i].
    + simpl. rewrite read_put_bytes_outside by lia.
      unfold EEPROM.read, EEPROM.write. rewrite Z.add_0_r, Z.eqb_refl. reflexivity.
    + replace (idx + Z.of_nat (S i)) with ((idx + 1) + Z.of_nat i) by lia.
      cbn [EEPROM.put_bytes nth]. apply IH. lia.
Qed.

Lemma get_bytes_ext (n : nat) (m1 m2 : EEPROM.cells) (idx : Z) :
  (forall a, idx <= a < idx + Z.of_nat n -> EEPROM.read m1 a = EEPROM.read m2 a) ->
  EEPROM.get_bytes m1 idx n = EEPROM.get_bytes m2 idx n.
Proof.
  revert idx. induction n as [|n IH]; intros idx Hext; simpl.
  - reflexivity.
  - rewrite Hext by lia. f_equal. apply IH. intros a Ha. apply Hext. lia.
Qed.

Lemma get_bytes_nth (n : nat) (m : EEPROM.cells) (idx : Z) (bs : list Z) :
  length bs = n ->
  (forall i, (i < n)%nat -> EEPROM.read m (idx + Z.of_nat i) = nth i bs 0) ->
  EEPROM.get_bytes m idx n = bs.
Proof.
  revert idx bs. induction n as [|n IH]; intros idx bs Hlen Hnth.
  - destruct bs; [reflexivity | discriminate].
  - destruct bs as [|b bs]; [discriminate|]. simpl. f_equal.
    + specialize (Hnth O ltac:(lia)). simpl in Hnth. rewrite Z.add_0_r in Hnth. exact Hnth.
    + apply IH; [simpl in Hlen; lia|]. intros i Hi.
      specialize (Hnth (S i) ltac:(lia)). simpl nth in Hnth. rewrite <- Hnth. f_equal. lia.
Qed.

Lemma get_bytes_put_bytes (bs : list Z) (m : EEPROM.cells) (idx : Z) :
  Forall is_byte bs ->
  EEPROM.get_bytes (EEPROM.put_bytes m idx bs) idx (length bs) = bs.
Proof.
  intros Hb. apply get_bytes_nth; [reflexivity|]. intros i Hi.
  rewrite read_put_bytes_inside by exact Hi. apply u8_id.
  rewrite Forall_forall in Hb. apply Hb. apply list_elem_of_In. apply nth_In. exact Hi.
Qed.

Lemma ulong_bytes_range (v : Z) : Forall is_byte (ulong_bytes v).
Proof. unfold ulong_bytes. repeat constructor; zmod. Qed.

Lemma ulong_of_bytes_bytes (v : Z) : is_ulong v -> ulong_of_bytes (ulong_bytes v) = v.
Proof. unfold is_ulong, ulong_bytes, ulong_of_bytes. intros Hv. zmod. Qed.

Lemma get_put_ulong (m : EEPROM.cells) (idx v : Z) :
  is_ulong v -> EEPROM_get (EEPROM_put m idx v) idx = v.
Proof.
  intros Hv.
  change (ulong_of_bytes
            (EEPROM.get_bytes (EEPROM.put_bytes m idx (ulong_bytes v)) idx
               (length (ulong_bytes v))) = v).
  rewrite get_bytes_put_bytes by apply ulong_bytes_range.
  apply ulong_of_bytes_bytes. exact Hv.
Qed.

(** A 4-byte read sees only the four cells it covers. *)
Lemma get_ulong_ext (m1 m2 : EEPROM.cells) (idx : Z) :
  (forall a, idx <= a < idx + 4 -> EEPROM.read m1 a = EEPROM.read m2 a) ->
  EEPROM_get (T := Z) m1 idx = EEPROM_get (T := Z) m2 idx.
Proof.
  intros Hext. unfold EEPROM_get. f_equal. apply get_bytes_ext. exact Hext.
Qed.

Lemma get_ulong_put_bytes_disjoint (bs : list Z) (m : EEPROM.cells) (idx a : Z) :
  a + 4 <= idx \/ idx + Z.of_nat (length bs) <= a ->
  EEPROM_get (T := Z) (EEPROM.put_bytes m idx bs) a = EEPROM_get (T := Z) m a.
Proof.
  intros Ha. apply get_ulong_ext. intros x Hx. apply read_put_bytes_outside. lia.
Qed.

Lemma get_ulong_put_disjoint {T} `{Stored T, !StoredOk T} (m : EEPROM.cells) (idx a : Z) (t : T) :
  a + 4 <= idx \/ idx + sizeof (T := T) <= a ->
  EEPROM_get (T := Z) (EEPROM_put m idx t) a = EEPROM_get (T := Z) m a.
Proof.
  intros Ha. unfold EEPROM_put. apply get_ulong_put_bytes_disjoint.
  rewrite object_bytes_length. exact Ha.
Qed.

Lemma get_ulong_put_bytes_inside (bs : list Z) (m : EEPROM.cells) (idx : Z) (i : nat) :
  Forall is_byte bs -> (i + 4 <= length bs)%nat ->
  EEPROM_get (T := Z) (EEPROM.put_bytes m idx bs) (idx + Z.of_nat i) = word_at bs i.
Proof.
  intros Hb Hi.
  assert (Hn : forall j, (j < length bs)%nat -> u8 (nth j bs 0) = nth j bs 0).
  { intros j Hj. apply u8_id. rewrite Forall_forall in Hb. apply Hb.
    apply list_elem_of_In. apply nth_In. exact Hj. }
  unfold EEPROM_get, word_at. cbn [sizeof object_of_bytes Stored_ulong].
  change (Z.to_nat 4) with 4%nat. cbn [EEPROM.get_bytes].
  replace (idx + Z.of_nat i + 1) with (idx + Z.of_nat (i + 1)) by lia.
  replace (idx + Z.of_nat (i + 1) + 1) with (idx + Z.of_nat (i + 2)) by lia.
  replace (idx + Z.of_nat (i + 2) + 1) with (idx + Z.of_nat (i + 3)) by lia.
  rewrite !read_put_bytes_inside by lia. rewrite !Hn by lia. reflexivity.
Qed.

Lemma marker_free_word (bs : list Z) (k : nat) :
  marker_free bs = true -> (4 * k + 4 <= length bs)%nat ->
  word_at bs (4 * k) <> DATA_MARKER.
Proof.
  unfold marker_free. intros Hf Hk. rewrite forallb_forall in Hf.
  specialize (Hf k). rewrite negb_true_iff, Z.eqb_neq in Hf. apply Hf.
  apply in_seq. split; [lia|]. rewrite Nat.add_0_l.
  apply (Nat.div_le_lower_bound (length bs) 4 (S k)); lia.
Qed.

(** ** The store *)

#[export] Instance StoredOk_ulong : StoredOk Z.
Proof. split; [reflexivity | apply ulong_bytes_range]. Qed.

Lemma settings_bytes_length (s : SettingsObjType) :
  Z.of_nat (length (settings_bytes s)) = 28.
Proof.
  unfold settings_bytes. rewrite !length_app, !length_resize. reflexivity.
Qed.

Lemma Forall_is_byte_resize (n : nat) (l : list Z) :
  Forall is_byte (resize n 0 (map u8 l)).
Proof.
  apply Forall_resize; [unfold is_byte; lia |].
  apply Forall_forall. intros x Hx. apply list_elem_of_In in Hx.
  apply in_map_iff in Hx as (y & <- & _). apply u8_is_byte.
Qed.

Lemma settings_bytes_range (s : SettingsObjType) : Forall is_byte (settings_bytes s).
Proof.
  unfold settings_bytes.
  apply Forall_app_2; [|apply Forall_app_2; [|apply Forall_app_2]].
  - apply Forall_is_byte_resize.
  - constructor; [|constructor]. destruct (isWetAndDrySelected s); unfold is_byte; lia.
  - constructor; [|constructor]. apply u8_is_byte.
  - apply Forall_is_byte_resize.
Qed.

#[export] Instance StoredOk_settings : StoredOk SettingsObjType.
Proof. split; [apply settings_bytes_length | apply settings_bytes_range]. Qed.

#[export] Instance StoredOk_record16 : StoredOk Record16.
Proof.
  split; intros x; cbn [object_bytes Stored_record16].
  - rewrite length_resize. reflexivity.
  - apply Forall_is_byte_resize.
Qed.

Lemma map_u8_bytes (l : list Z) : Forall is_byte l -> map u8 l = l.
Proof.
  induction 1 as [|x l Hx _ IH]; simpl; [reflexivity|].
  rewrite IH, u8_id by exact Hx. reflexivity.
Qed.

(** Copying a struct out to its bytes and back gives the struct. *)
Lemma settings_of_bytes_bytes (s : SettingsObjType) :
  representable s -> settings_of_bytes (settings_bytes s) = s.
Proof.
  intros [Hl1 Hb1 He Hl2 Hb2]. destruct s as [dt wd ef bf]; simpl in *.
  unfold settings_bytes, settings_of_bytes; simpl.
  rewrite !map_u8_bytes by assumption.
  rewrite !resize_all_alt by (symmetry; assumption).
  f_equal.
  - apply take_app_length'. symmetry; assumption.
  - rewrite app_nth2 by lia. rewrite Hl1. simpl. destruct wd; reflexivity.
  - rewrite app_nth2 by lia. rewrite Hl1. simpl. apply i8_u8. exact He.
  - rewrite drop_app_ge by lia. rewrite Hl1. simpl. apply take_ge. lia.
Qed.

Ltac eeprom_simpl :=
  cbn [eeprom_sizeInBytes eeprom_currentAddress eeprom_dataItem blocked
       set_currentAddress set_dataItem set_blocked fst snd] in *.

Section EepromFacts.

Context {Obj : Type} `{Stored Obj, !StoredOk Obj}.

Local Abbreviation SZ := (SIZE_OF_SETTINGS_STRUCT (Obj := Obj)).

(** An unblocked [write] erases the marker at the cursor, puts the
    live marker at [next_cursor] and the struct behind it. *)
Lemma write_unblocked (m : EEPROM.cells) (e : Eeprom) (s : Obj) :
  blocked e = false ->
  write m e s =
    (EEPROM_put
       (EEPROM_put (EEPROM_put m (eeprom_currentAddress e) ERASE_MARKER)
          (next_cursor m e) DATA_MARKER)
       (u16 (next_cursor m e + SIZE_OF_DATA_MARKER)) s,
     set_currentAddress (next_cursor m e)
       (set_dataItem (EEPROM_get (T := Z) m (eeprom_currentAddress e)) e),
     u16 (SZ + SIZE_OF_DATA_MARKER)).
Proof.
  intros Hb. unfold write, next_cursor, eraseMarkerByte. rewrite Hb.
  cbn [eeprom_dataItem eeprom_currentAddress eeprom_sizeInBytes set_dataItem].
  destruct (EEPROM_get (T := Z) m (eeprom_currentAddress e) =? EMPTY_MARKER); [reflexivity|].
  cbv zeta.
  destruct (u16 (u16 (eeprom_currentAddress e + SZ) + SIZE_OF_DATA_MARKER)
              >? u16 (eeprom_sizeInBytes e - 1)); reflexivity.
Qed.

Lemma write_blocked (m : EEPROM.cells) (e : Eeprom) (s : Obj) :
  blocked e = true -> write m e s = (m, e, -1).
Proof. intros Hb. unfold write. rewrite Hb. reflexivity. Qed.

(** Where the cursor goes when no 16-bit sum overflows: the record is
    put at [cursor + record + marker] as soon as that address itself
    lies inside the memory, and at 0 otherwise. *)
Lemma next_cursor_arith (m : EEPROM.cells) (e : Eeprom) :
  0 <= eeprom_currentAddress e -> 0 <= SZ ->
  eeprom_currentAddress e + SZ + SIZE_OF_DATA_MARKER < 65536 ->
  0 < eeprom_sizeInBytes e < 65536 ->
  EEPROM_get (T := Z) m (eeprom_currentAddress e) <> EMPTY_MARKER ->
  next_cursor m e =
    if eeprom_currentAddress e + SZ + SIZE_OF_DATA_MARKER >? eeprom_sizeInBytes e - 1
    then 0 else eeprom_currentAddress e + SZ + SIZE_OF_DATA_MARKER.
Proof.
  intros Hc Hs Ho Hsz Hne. unfold next_cursor, SIZE_OF_DATA_MARKER in *.
  apply Z.eqb_neq in Hne. rewrite Hne. cbv zeta.
  rewrite (u16_id (eeprom_currentAddress e + SZ)) by lia.
  rewrite (u16_id (eeprom_currentAddress e + SZ + 4)) by lia.
  rewrite (u16_id (eeprom_sizeInBytes e - 1)) by lia. reflexivity.
Qed.

Lemma next_cursor_aligned (m : EEPROM.cells) (e : Eeprom) :
  SZ mod 4 = 0 -> aligned (eeprom_currentAddress e) -> aligned (next_cursor m e).
Proof.
  unfold aligned, next_cursor, SIZE_OF_DATA_MARKER. intros Hs Hc.
  destruct (_ =? EMPTY_MARKER); [exact Hc|]. cbv zeta.
  destruct (_ >? _); [reflexivity|]. zmod.
Qed.

Lemma next_cursor_range (m : EEPROM.cells) (e : Eeprom) :
  0 <= eeprom_currentAddress e < eeprom_sizeInBytes e ->
  eeprom_sizeInBytes e < 65536 ->
  0 <= next_cursor m e < eeprom_sizeInBytes e.
Proof.
  unfold next_cursor, SIZE_OF_DATA_MARKER. intros Hc Hsz.
  destruct (_ =? EMPTY_MARKER); [exact Hc|]. cbv zeta.
  rewrite (u16_id (eeprom_sizeInBytes e - 1)) by lia.
  destruct (_ >? _) eqn:E; [lia|].
  assert (u16 (u16 (eeprom_currentAddress e + SZ) + 4) <= eeprom_sizeInBytes e - 1) by lia.
  split; [zmod | lia].
Qed.

(** Round trip, where the record [write] placed ends inside the
    memory: [read] returns [SIZE_OF_SETTINGS_STRUCT] and the struct
    that was written. *)
Lemma write_read_roundtrip (m : EEPROM.cells) (e : Eeprom) (s : Obj) :
  blocked e = false -> 0 <= SZ ->
  0 <= eeprom_currentAddress e < eeprom_sizeInBytes e ->
  eeprom_sizeInBytes e <= 65532 ->
  next_cursor m e + SZ <= eeprom_sizeInBytes e ->
  let '(m', e', r) := write m e s in
  r = u16 (SZ + SIZE_OF_DATA_MARKER) /\
  eeprom_currentAddress e' = next_cursor m e /\
  snd (fst (read m' e')) = SZ /\
  snd (read m' e') = Some (object_of_bytes (object_bytes s)).
Proof.
  intros Hb Hs Hc Hsz Hfit. rewrite write_unblocked by exact Hb.
  pose proof (next_cursor_range m e Hc ltac:(lia)) as Hn.
  set (c := next_cursor m e) in *.
  split; [reflexivity|]. split; [reflexivity|].
  unfold read. cbn [blocked eeprom_currentAddress eeprom_sizeInBytes
                    set_currentAddress set_dataItem eeprom_dataItem].
  rewrite Hb. unfold SIZE_OF_DATA_MARKER.
  rewrite (u16_id (c + SZ)) by lia. rewrite (u16_id (c + 4)) by lia.
  destruct (c + SZ >? eeprom_sizeInBytes e) eqn:E; [lia|].
  rewrite get_ulong_put_disjoint by lia.
  rewrite get_put_ulong by (unfold is_ulong, DATA_MARKER; lia).
  rewrite Z.eqb_refl. cbn [fst snd]. split; [reflexivity|]. f_equal.
  unfold EEPROM_get, EEPROM_put. f_equal.
  rewrite <- (object_bytes_length s), Nat2Z.id.
  apply get_bytes_put_bytes. apply object_bytes_range.
Qed.


(** When the record [write] places ends inside the memory, [write]
    touches no cell outside it. *)
Lemma write_stays_inside (m : EEPROM.cells) (e : Eeprom) (s : Obj) :
  blocked e = false -> 0 <= SZ ->
  0 <= eeprom_currentAddress e ->
  eeprom_currentAddress e + SIZE_OF_DATA_MARKER <= eeprom_sizeInBytes e ->
  eeprom_sizeInBytes e <= 65532 ->
  next_cursor m e + SIZE_OF_DATA_MARKER + SZ <= eeprom_sizeInBytes e ->
  forall a, a < 0 \/ eeprom_sizeInBytes e <= a ->
    EEPROM.read (fst (fst (write m e s))) a = EEPROM.read m a.
Proof.
  unfold SIZE_OF_DATA_MARKER. intros Hb Hs Hc0 Hc Hsz Hfit a Ha.
  pose proof (next_cursor_range m e ltac:(lia) ltac:(lia)) as Hn.
  rewrite write_unblocked by exact Hb. cbn [fst]. unfold SIZE_OF_DATA_MARKER.
  rewrite (u16_id (next_cursor m e + 4)) by lia.
  unfold EEPROM_put. rewrite !read_put_bytes_outside; [reflexivity | | |].
  - cbn. lia.
  - cbn. lia.
  - rewrite object_bytes_length. unfold SIZE_OF_SETTINGS_STRUCT in *. lia.
Qed.

Lemma get_ulong_put_ulong_disjoint (m : EEPROM.cells) (idx a v : Z) :
  a + 4 <= idx \/ idx + 4 <= a ->
  EEPROM_get (T := Z) (EEPROM_put m idx v) a = EEPROM_get (T := Z) m a.
Proof. intros Ha. apply get_ulong_put_disjoint. exact Ha. Qed.

(** Erasing the marker at the cursor of a store with a single live
    marker leaves no live marker at all. *)
Lemma erase_no_marker (m : EEPROM.cells) (cur : Z) :
  aligned cur -> single_marker m cur ->
  no_marker (EEPROM_put m cur ERASE_MARKER).
Proof.
  intros Hc Hs a Ha. destruct (Z.eq_dec a cur) as [->|Hne].
  - rewrite get_put_ulong by (unfold is_ulong, ERASE_MARKER; lia). discriminate.
  - rewrite get_ulong_put_ulong_disjoint.
    + apply Hs; assumption.
    + unfold aligned, SIZE_OF_DATA_MARKER in *. zmod.
Qed.

Lemma read_without_marker (m : EEPROM.cells) (e : Eeprom) :
  EEPROM_get (T := Z) m (eeprom_currentAddress e) <> DATA_MARKER ->
  snd (fst (read m e)) = -1 /\ snd (read m e) = None.
Proof.
  intros Hne. unfold read. destruct (blocked e); [split; reflexivity|].
  destruct (_ >? _); [split; reflexivity|].
  cbn [eeprom_dataItem set_dataItem]. apply Z.eqb_neq in Hne. rewrite Hne.
  split; reflexivity.
Qed.

Lemma read_blocked (m : EEPROM.cells) (e : Eeprom) :
  blocked e = true -> snd (fst (read m e)) = -1 /\ snd (read m e) = None.
Proof. intros Hb. unfold read. rewrite Hb. split; reflexivity. Qed.

(** The scan of [init] ends within its fuel and keeps the size and
    the blocked flag.  When it finds a marker it stops on the aligned
    address that holds it; when it finds none, no aligned address
    from its start up to its bound holds one. *)
Lemma init_scan_ends (fuel : nat) (m : EEPROM.cells) (e : Eeprom) :
  aligned (eeprom_currentAddress e) -> 0 <= eeprom_currentAddress e ->
  u16 (eeprom_sizeInBytes e - SZ) <= 65532 ->
  Z.max 0 (u16 (eeprom_sizeInBytes e - SZ) - eeprom_currentAddress e) + 4
    <= 4 * Z.of_nat fuel ->
  exists e' found,
    init_scan fuel m e = Some (e', found) /\
    eeprom_sizeInBytes e' = eeprom_sizeInBytes e /\ blocked e' = blocked e /\
    (found = true ->
     EEPROM_get (T := Z) m (eeprom_currentAddress e') = DATA_MARKER /\
     eeprom_dataItem e' = DATA_MARKER /\
     aligned (eeprom_currentAddress e') /\
     0 <= eeprom_currentAddress e' < u16 (eeprom_sizeInBytes e - SZ)) /\
    (found = false ->
     forall a, aligned a ->
       eeprom_currentAddress e <= a < u16 (eeprom_sizeInBytes e - SZ) ->
       EEPROM_get (T := Z) m a <> DATA_MARKER).
Proof.
  revert e. induction fuel as [|fuel IH]; intros e Hal Hc Hbound Hfuel; [lia|].
  cbn [init_scan].
  destruct (Z.ltb_spec (eeprom_currentAddress e) (u16 (eeprom_sizeInBytes e - SZ))) as [E|E].
  - cbn [eeprom_dataItem set_dataItem eeprom_currentAddress].
    destruct (EEPROM_get (T := Z) m (eeprom_currentAddress e) =? DATA_MARKER) eqn:D.
    + apply Z.eqb_eq in D. eexists _, true.
      split; [reflexivity|]. split; [reflexivity|]. split; [reflexivity|].
      split; [|discriminate]. intros _. eeprom_simpl.
      split; [exact D|]. split; [exact D|]. split; [exact Hal|]. lia.
    + apply Z.eqb_neq in D. unfold SIZE_OF_DATA_MARKER.
      rewrite (u16_id (eeprom_currentAddress e + 4)) by lia.
      destruct (IH (set_currentAddress (eeprom_currentAddress e + 4)
                      (set_dataItem (EEPROM_get (T := Z) m (eeprom_currentAddress e)) e)))
        as (e' & found & Hrun & Hsz & Hbl & Hfound & Hnot).
      * unfold aligned, SIZE_OF_DATA_MARKER in *. eeprom_simpl. zmod.
      * eeprom_simpl. lia.
      * eeprom_simpl. exact Hbound.
      * eeprom_simpl. lia.
      * eeprom_simpl. exists e', found.
        split; [exact Hrun|]. split; [exact Hsz|]. split; [exact Hbl|]. split.
        -- intros Hf. destruct (Hfound Hf) as (Hd & Hi & Ha & Hr).
           split; [exact Hd|]. split; [exact Hi|]. split; [exact Ha|]. lia.
        -- intros Hf a Ha Hr.
           destruct (Z.eq_dec a (eeprom_currentAddress e)) as [->|Hne]; [exact D|].
           apply (Hnot Hf a Ha). unfold aligned, SIZE_OF_DATA_MARKER in *. zmod.
  - eexists _, false.
    split; [reflexivity|]. split; [reflexivity|]. split; [reflexivity|].
    split; [discriminate|]. intros _ a _ Hr. lia.
Qed.

(** The constructor returns: the scan of [init] has fuel enough for
    every size an [unsigned int] can hold. *)
Lemma Eeprom_new_total (m : EEPROM.cells) (length : Z) :
  0 < SZ < 65532 ->
  exists m' e', Eeprom_new m length = Some (m', e') /\
                eeprom_sizeInBytes e' = u16 length.
Proof.
  intros Hs. unfold Eeprom_new, init, init_with. eeprom_simpl.
  destruct (negb (SZ mod SIZE_OF_DATA_MARKER =? 0)) eqn:Hm; [eauto|].
  destruct (Z.gtb_spec (u16 (SZ + SIZE_OF_DATA_MARKER)) (u16 length)) as [Hg|Hg]; [eauto|].
  unfold SIZE_OF_DATA_MARKER in *.
  rewrite (u16_id (SZ + 4)) in Hg by lia.
  apply negb_false_iff, Z.eqb_eq in Hm.
  assert (Hs4 : 4 <= SZ) by zmod.
  assert (Hl : 0 <= u16 length < 65536) by zmod.
  edestruct (init_scan_ends init_fuel m) as (e' & found & Hrun & Hsz & _).
  5: { rewrite Hrun. destruct found; eexists _, _; (split; [reflexivity|]);
       eeprom_simpl; exact Hsz. }
  - reflexivity.
  - eeprom_simpl. lia.
  - eeprom_simpl. rewrite (u16_id (u16 length - SZ)) by lia. lia.
  - eeprom_simpl. rewrite (u16_id (u16 length - SZ)) by lia.
    unfold init_fuel. rewrite Z2Nat.id by lia. lia.
Qed.

(** Booting on a memory without live marker: [read] reports -1. *)
Lemma boot_without_marker (m : EEPROM.cells) (length : Z) :
  0 < SZ < 65532 -> no_marker m ->
  exists m' e', Eeprom_new m length = Some (m', e') /\
                snd (fst (read m' e')) = -1 /\ snd (read m' e') = None.
Proof.
  intros Hs Hno. unfold Eeprom_new, init, init_with. eeprom_simpl.
  destruct (negb (SZ mod SIZE_OF_DATA_MARKER =? 0)) eqn:Hm.
  { eexists _, _. split; [reflexivity|]. apply read_blocked. reflexivity. }
  destruct (Z.gtb_spec (u16 (SZ + SIZE_OF_DATA_MARKER)) (u16 length)) as [Hg|Hg].
  { eexists _, _. split; [reflexivity|]. apply read_without_marker.
    eeprom_simpl. apply Hno. reflexivity. }
  unfold SIZE_OF_DATA_MARKER in *.
  rewrite (u16_id (SZ + 4)) in Hg by lia.
  apply negb_false_iff, Z.eqb_eq in Hm.
  assert (Hs4 : 4 <= SZ) by zmod.
  assert (Hl : 0 <= u16 length < 65536) by zmod.
  edestruct (init_scan_ends init_fuel m) as (e' & found & Hrun & Hsz & _ & Hf & _).
  5: { rewrite Hrun. destruct found.
       - destruct (Hf eq_refl) as (Hd & _ & Ha & _). exfalso. exact (Hno _ Ha Hd).
       - eexists _, _. split; [reflexivity|].
         apply read_without_marker. eeprom_simpl.
         rewrite get_put_ulong by (unfold is_ulong, EMPTY_MARKER; lia). discriminate. }
  - reflexivity.
  - eeprom_simpl. lia.
  - eeprom_simpl. rewrite (u16_id (u16 length - SZ)) by lia. lia.
  - eeprom_simpl. rewrite (u16_id (u16 length - SZ)) by lia.
    unfold init_fuel. rewrite Z2Nat.id by lia. lia.
Qed.

(** After an unblocked [write] of a struct without marker word, into
    a memory with no live marker off the cursor, the live marker
    stands at the new cursor and nowhere else. *)
Lemma write_marker_positions (m : EEPROM.cells) (e : Eeprom) (s : Obj) :
  SZ mod 4 = 0 -> 0 < SZ < 65532 ->
  blocked e = false ->
  aligned (eeprom_currentAddress e) ->
  0 <= eeprom_currentAddress e < eeprom_sizeInBytes e ->
  eeprom_sizeInBytes e <= 65532 ->
  marker_free (object_bytes s) = true ->
  single_marker m (eeprom_currentAddress e) ->
  forall a, aligned a ->
    EEPROM_get (T := Z) (fst (fst (write m e s))) a = DATA_MARKER
    <-> a = next_cursor m e.
Proof.
  intros Hmod Hs Hb Hal Hc Hsz Hfree Hone.
  rewrite write_unblocked by exact Hb. eeprom_simpl.
  pose proof (next_cursor_range m e Hc ltac:(lia)) as Hn.
  pose proof (next_cursor_aligned m e Hmod Hal) as Hna.
  set (c := next_cursor m e) in *.
  unfold SIZE_OF_DATA_MARKER. rewrite (u16_id (c + 4)) by lia.
  unfold SIZE_OF_SETTINGS_STRUCT in *.
  intros a Ha. split.
  - intros Hd. destruct (Z.eq_dec a c) as [|Hne]; [assumption|]. exfalso. revert Hd.
    destruct (Z_lt_dec a (c + 4)) as [Hlo|Hlo];
      [|destruct (Z_le_dec (c + 4 + sizeof (T := Obj)) a) as [Hhi|Hhi]].
    + (* below the new record *)
      assert (a + 4 <= c) by (unfold aligned, SIZE_OF_DATA_MARKER in *; zmod).
      rewrite get_ulong_put_disjoint by lia.
      rewrite get_ulong_put_ulong_disjoint by lia.
      apply erase_no_marker; assumption.
    + (* above the new record *)
      rewrite get_ulong_put_disjoint by lia.
      rewrite get_ulong_put_ulong_disjoint by lia.
      apply erase_no_marker; assumption.
    + (* a word of the struct *)
      assert (Hk : exists k : nat, a = c + 4 + Z.of_nat (4 * k) /\
                                   Z.of_nat (4 * k + 4) <= sizeof (T := Obj)).
      { exists (Z.to_nat ((a - c - 4) / 4)).
        unfold aligned, SIZE_OF_DATA_MARKER in *.
        rewrite !Nat2Z.inj_add, !Nat2Z.inj_mul, Z2Nat.id by zmod.
        change (Z.of_nat 4) with 4. zmod. }
      destruct Hk as (k & -> & Hk).
      unfold EEPROM_put at 1.
      rewrite get_ulong_put_bytes_inside.
      * apply marker_free_word; [exact Hfree|].
        pose proof (object_bytes_length s) as Hlen. lia.
      * apply object_bytes_range.
      * pose proof (object_bytes_length s) as Hlen. lia.
  - intros ->. rewrite get_ulong_put_disjoint by lia.
    apply get_put_ulong. unfold is_ulong, DATA_MARKER. lia.
Qed.


(** Booting on a memory whose only live marker stands at an aligned
    address [c] inside the range the scan covers: the scan stops at
    [c], the memory is left as it is. *)
Lemma boot_finds_record (m : EEPROM.cells) (length c : Z) :
  SZ mod 4 = 0 -> 0 < SZ < 65532 ->
  aligned c -> 0 <= c -> c + SZ < u16 length ->
  (forall a, aligned a -> EEPROM_get (T := Z) m a = DATA_MARKER <-> a = c) ->
  exists e',
    Eeprom_new m length = Some (m, e') /\
    eeprom_currentAddress e' = c /\ eeprom_sizeInBytes e' = u16 length /\
    blocked e' = false.
Proof.
  intros Hmod Hs Hal Hc Hfit Hiff. unfold Eeprom_new, init, init_with. eeprom_simpl.
  unfold SIZE_OF_DATA_MARKER. rewrite Hmod. cbn [Z.eqb negb].
  assert (Hl : 0 <= u16 length < 65536) by zmod.
  assert (Hs4 : 4 <= SZ) by zmod.
  rewrite (u16_id (SZ + 4)) by lia.
  destruct (Z.gtb_spec (SZ + 4) (u16 length)) as [Hg|Hg].
  { eexists. split; [reflexivity|]. eeprom_simpl.
    split; [|split; reflexivity]. unfold aligned, SIZE_OF_DATA_MARKER in Hal. zmod. }
  edestruct (init_scan_ends init_fuel m) as (e' & found & Hrun & Hsz & Hbl & Hf & Hnf).
  5: { rewrite Hrun. eeprom_simpl.
       rewrite (u16_id (u16 length - SZ)) in Hf, Hnf by lia.
       destruct found.
       - destruct (Hf eq_refl) as (Hd & _ & Ha & _).
         exists e'. split; [reflexivity|]. split; [|split; assumption].
         apply Hiff; assumption.
       - exfalso. apply (Hnf eq_refl c Hal); [lia|]. apply Hiff; [exact Hal | reflexivity]. }
  - reflexivity.
  - eeprom_simpl. lia.
  - eeprom_simpl. rewrite (u16_id (u16 length - SZ)) by lia. lia.
  - eeprom_simpl. rewrite (u16_id (u16 length - SZ)) by lia.
    unfold init_fuel. rewrite Z2Nat.id by lia. lia.
Qed.

(** C2 (as amended).  For a struct none of whose marker-aligned words
    is the live marker, written to a store whose memory holds a live
    marker at no aligned address but the cursor: after [write] the
    live marker stands at the new cursor and at no other aligned
    address; and when [write] stops between erasing the old marker
    and putting the new one, no aligned address holds a live marker,
    so that the next boot scans, finds nothing, and [read] returns -1
    without a record. *)
Theorem write_leaves_one_live_marker (m : EEPROM.cells) (e : Eeprom) (s : Obj) :
  SZ mod 4 = 0 -> 0 < SZ < 65532 ->
  blocked e = false ->
  aligned (eeprom_currentAddress e) ->
  0 <= eeprom_currentAddress e < eeprom_sizeInBytes e ->
  eeprom_sizeInBytes e <= 65532 ->
  marker_free (object_bytes s) = true ->
  single_marker m (eeprom_currentAddress e) ->
  (forall a, aligned a ->
     EEPROM_get (T := Z) (fst (fst (write m e s))) a = DATA_MARKER
     <-> a = eeprom_currentAddress (snd (fst (write m e s)))) /\
  no_marker (write_interrupted m e) /\
  (forall length, exists m' e',
     Eeprom_new (Obj := Obj) (write_interrupted m e) length = Some (m', e') /\
     snd (fst (read m' e')) = -1 /\ snd (read m' e') = None).
Proof.
  intros Hmod Hs Hb Hal Hc Hsz Hfree Hone.
  assert (Hcrash : no_marker (write_interrupted m e)).
  { unfold write_interrupted, eraseMarkerByte. rewrite Hb. eeprom_simpl.
    apply erase_no_marker; assumption. }
  split; [|split; [exact Hcrash|]].
  2: { intros length. apply boot_without_marker; assumption. }
  rewrite write_unblocked by exact Hb. eeprom_simpl.
  pose proof (write_marker_positions m e s Hmod Hs Hb Hal Hc Hsz Hfree Hone) as Hpos.
  rewrite write_unblocked in Hpos by exact Hb. exact Hpos.
Qed.




End EepromFacts.

(** ** The store on concrete memories *)

Lemma prime_settings_representable : representable prime_settings.
Proof.
  split; [reflexivity | | vm_compute; split; [discriminate | reflexivity] | reflexivity | ];
    apply Forall_forall; intros x Hx; apply list_elem_of_In in Hx; vm_compute in Hx;
    unfold is_byte; intuition lia.
Qed.

Lemma sixes_settings_representable : representable sixes_settings.
Proof.
  split; [reflexivity | | vm_compute; split; [discriminate | reflexivity] | reflexivity | ];
    apply Forall_forall; intros x Hx; apply list_elem_of_In in Hx; vm_compute in Hx;
    unfold is_byte; intuition lia.
Qed.

Lemma blank_get_ulong (a : Z) : EEPROM_get (T := Z) EEPROM.blank a = 0xffffffff.
Proof. reflexivity. Qed.

(** A never-used part after its first boot: [EMPTY_MARKER] at 0, no
    live marker anywhere else. *)
Lemma first_boot_single_marker :
  single_marker (EEPROM_put EEPROM.blank 0 EMPTY_MARKER) 0.
Proof.
  intros a Ha Hne. rewrite get_ulong_put_ulong_disjoint.
  - rewrite blank_get_ulong. discriminate.
  - unfold aligned, SIZE_OF_DATA_MARKER in Ha. zmod.
Qed.

(** C1.  [Eeprom(1000)] over a never-used part, with the firmware's
    28-byte struct: after 31 writes the cursor is at 960; the next
    [write(S)] reports 32 bytes written and moves the cursor to 992,
    where marker and record would end at 1024, past the 1000 bytes;
    the [read] that follows returns -1 and no struct. *)
Theorem roundtrip_lost_in_last_slot :
  match Eeprom_new (Obj := SettingsObjType) EEPROM.blank 1000 with
  | Some (m, e) =>
      let '(m1, e1) := write_n 31 m e prime_settings in
      let '(m2, e2, r) := write m1 e1 prime_settings in
      blocked e1 = false /\ eeprom_currentAddress e1 = 960 /\
      r = 32 /\ eeprom_currentAddress e2 = 992 /\
      eeprom_currentAddress e2 + SIZE_OF_DATA_MARKER
        + SIZE_OF_SETTINGS_STRUCT (Obj := SettingsObjType) > eeprom_sizeInBytes e2 /\
      snd (fst (read (Obj := SettingsObjType) m2 e2)) = -1 /\
      snd (read (Obj := SettingsObjType) m2 e2) = None
  | None => False
  end.
Proof. vm_compute. repeat split; reflexivity. Qed.

(** C2, the claim as stated fails: with the delay values of four
    neighbouring effects at 0x66 the struct itself carries the marker
    pattern at an aligned offset.  After one completed [write] on a
    first-boot store of 1024 bytes two aligned addresses (0 and 8) hold
    the live marker; and when the next [write] stops after erasing the
    marker at 0, the boot scan stops at 8 and [read] returns 28 bytes
    of a record that was never written. *)
Lemma marker_pattern_in_payload :
  match Eeprom_new (Obj := SettingsObjType) EEPROM.blank 1024 with
  | Some (m, e) =>
      let '(m1, e1, _) := write m e sixes_settings in
      aligned 0 /\ aligned 8 /\
      EEPROM_get (T := Z) m1 0 = DATA_MARKER /\
      EEPROM_get (T := Z) m1 8 = DATA_MARKER /\
      match Eeprom_new (Obj := SettingsObjType) (write_interrupted m1 e1) 1024 with
      | Some (m2, e2) =>
          eeprom_currentAddress e2 = 8 /\
          snd (fst (read (Obj := SettingsObjType) m2 e2)) = 28 /\
          snd (read (Obj := SettingsObjType) m2 e2) <> None /\
          snd (read (Obj := SettingsObjType) m2 e2) <> Some sixes_settings
      | None => False
      end
  | None => False
  end.
Proof. vm_compute. repeat split; try reflexivity; discriminate. Qed.

(** The store after its first [write] on a never-used part: the live
    marker stands at address 0, the cursor, and at no other aligned
    address. *)
Lemma first_write_single_marker :
  single_marker
    (fst (fst (write (EEPROM_put EEPROM.blank 0 EMPTY_MARKER)
                     {| eeprom_currentAddress := 0; eeprom_sizeInBytes := 1024;
                        eeprom_dataItem := 0; blocked := false |}
                     prime_settings))) 0.
Proof.
  intros a Ha Hne Hd. apply Hne.
  apply (write_marker_positions (Obj := SettingsObjType)
           (EEPROM_put EEPROM.blank 0 EMPTY_MARKER)
           {| eeprom_currentAddress := 0; eeprom_sizeInBytes := 1024;
              eeprom_dataItem := 0; blocked := false |} prime_settings) in Hd.
  - exact Hd.
  - reflexivity.
  - vm_compute. split; reflexivity.
  - reflexivity.
  - reflexivity.
  - simpl. lia.
  - simpl. lia.
  - vm_compute. reflexivity.
  - exact first_boot_single_marker.
  - exact Ha.
Qed.

Lemma write_leaves_one_live_marker_witness :
  let m0 := EEPROM_put EEPROM.blank 0 EMPTY_MARKER in
  let e0 := {| eeprom_currentAddress := 0; eeprom_sizeInBytes := 1024;
               eeprom_dataItem := 0; blocked := false |} in
  let m := fst (fst (write m0 e0 prime_settings)) in
  let e := snd (fst (write m0 e0 prime_settings)) in
  (eeprom_currentAddress e = 0 /\
   EEPROM_get (T := Z) m (eeprom_currentAddress e) = DATA_MARKER /\
   next_cursor (Obj := SettingsObjType) m e = 32 /\
   EEPROM_get (T := Z) (fst (fst (write m e prime_settings))) 0 = ERASE_MARKER /\
   EEPROM_get (T := Z) (fst (fst (write m e prime_settings))) 32 = DATA_MARKER /\
   EEPROM_get (T := Z) (write_interrupted m e) 0 = ERASE_MARKER /\
   EEPROM_get (T := Z) (write_interrupted m e) 32 <> DATA_MARKER) /\
  (forall a, aligned a ->
     EEPROM_get (T := Z) (fst (fst (write m e prime_settings))) a = DATA_MARKER
     <-> a = eeprom_currentAddress (snd (fst (write m e prime_settings)))) /\
  no_marker (write_interrupted m e) /\
  (forall length, exists m' e',
     Eeprom_new (Obj := SettingsObjType) (write_interrupted m e) length = Some (m', e') /\
     snd (fst (read (Obj := SettingsObjType) m' e')) = -1 /\
     snd (read (Obj := SettingsObjType) m' e') = None).
Proof.
  intros m0 e0 m e. split.
  - vm_compute. repeat split; try reflexivity. discriminate.
  - apply (write_leaves_one_live_marker (Obj := SettingsObjType) m e prime_settings).
    + reflexivity.
    + vm_compute. split; reflexivity.
    + reflexivity.
    + reflexivity.
    + vm_compute. split; [discriminate | reflexivity].
    + vm_compute. discriminate.
    + vm_compute. reflexivity.
    + exact first_write_single_marker.
Defined.

(** C3.  Capacity 512, marker 4 bytes, record 16 bytes, on a
    never-used part: the first write lands at 0 and the second at 20,
    but after 26 writes the cursor is at 500, where marker and record
    end at 520, past the 512 bytes; the cursor is back at 0 only after
    the 27th write.  The test of [write] is [tmpAddress >
    eeprom_sizeInBytes - 1]. *)
Theorem cursor_after_26_writes :
  match Eeprom_new (Obj := Record16) EEPROM.blank 512 with
  | Some (m, e) =>
      let r := {| record16_bytes := replicate 16 0 |} in
      SIZE_OF_SETTINGS_STRUCT (Obj := Record16) = 16 /\
      eeprom_sizeInBytes e = 512 /\
      eeprom_currentAddress (snd (write_n 1 m e r)) = 0 /\
      eeprom_currentAddress (snd (write_n 2 m e r)) = 20 /\
      eeprom_currentAddress (snd (write_n 26 m e r)) = 500 /\
      500 + SIZE_OF_DATA_MARKER + SIZE_OF_SETTINGS_STRUCT (Obj := Record16) > 512 /\
      eeprom_currentAddress (snd (write_n 27 m e r)) = 0
  | None => False
  end.
Proof. vm_compute. repeat split; reflexivity. Qed.

(** ** The controller *)

Ltac globals_simpl :=
  cbv beta iota zeta delta
      [settings delayTimeMax oldDelayTime coarseDelayTime oldEffect countDirection
       inSelectMode writeToEeprom writeTimer oldTime thisTime sumTime cycleTime
       irqCounter useSymbolicTimeString fineTuneDelayTime ledDelay
       set_settings set_delayTimeMax set_oldDelayTime set_coarseDelayTime
       set_oldEffect set_countDirection set_inSelectMode set_writeToEeprom
       set_writeTimer set_oldTime set_thisTime set_sumTime set_cycleTime
       set_irqCounter set_useSymbolicTimeString set_fineTuneDelayTime set_ledDelay
       set_effect set_delayTime set_baseFactorIndex set_isWetAndDrySelected
       delayTime isWetAndDrySelected effect baseFactorIndex
       delayTime_at baseFactorIndex_at delayTimeMax_at isChorusOrReverb] in *.

(** Name the fields of a state and reduce every access to them. *)
Ltac globals_destruct g :=
  destruct g as [[dt wd ef bf] dmax odt cdt oe cd ism wte wt ot tt st ct irq us ft ld];
  globals_simpl.

Lemma arr_get_set_same (a : list Z) (i v : Z) :
  0 <= i < Z.of_nat (length a) -> arr_get (arr_set a i v) i = v.
Proof.
  intros Hi. unfold arr_get, arr_set.
  destruct (Z.ltb_spec i 0) as [|_]; [lia|].
  rewrite list_lookup_insert_eq by lia. reflexivity.
Qed.

Lemma arr_get_set_other (a : list Z) (i j v : Z) :
  i <> j -> arr_get (arr_set a i v) j = arr_get a j.
Proof.
  intros Hne. unfold arr_get, arr_set.
  destruct (Z.ltb_spec i 0) as [|Hi]; [reflexivity|].
  destruct (Z.ltb_spec j 0) as [|Hj]; [reflexivity|].
  rewrite list_lookup_insert_ne by lia. reflexivity.
Qed.

Lemma arr_set_length (a : list Z) (i v : Z) : length (arr_set a i v) = length a.
Proof. unfold arr_set. destruct (i <? 0); [reflexivity | apply length_insert]. Qed.

(** Every entry of the table [setup] fills is at least DELAY_TIME_MIN. *)
Lemma setup_delayTimeMax_bounds (e : Z) :
  0 <= e < NR_OF_EFFECTS ->
  DELAY_TIME_MIN <= arr_get setup_delayTimeMax e <= 255.
Proof.
  intros He. unfold NR_OF_EFFECTS in He.
  assert (Hcases : e = 0 \/ e = 1 \/ e = 2 \/ e = 3 \/ e = 4 \/ e = 5 \/ e = 6 \/ e = 7
                   \/ e = 8 \/ e = 9 \/ e = 10 \/ e = 11 \/ e = 12) by lia.
  repeat (destruct Hcases as [->|Hcases]; [vm_compute; split; discriminate|]).
  subst e. vm_compute. split; discriminate.
Qed.

Section ControllerFacts.

Variable symbolicDelay : Z -> Z -> Z.

(** C10.  A pulse that completes the averaging window (the pulse
    count exceeds NR_OF_CYCLES) while fine tuning is off overwrites
    the delay value of the active effect with the tempo-derived value
    clamped to [DELAY_TIME_MIN, delayTimeMax[effect]]: for every
    active effect, chorus, fast chorus and reverb included, and in
    either mode, as neither [inSelectMode] nor [isChorusOrReverb] is
    looked at. *)
Theorem extClock_overwrites_delayTime (micros : Z) (g : Globals) :
  u8 (irqCounter g + 1) > NR_OF_CYCLES ->
  fineTuneDelayTime g = false ->
  0 <= effect (settings g) < NR_OF_EFFECTS ->
  length (delayTime (settings g)) = Z.to_nat NR_OF_EFFECTS ->
  delayTimeMax g = setup_delayTimeMax ->
  let g' := extClock symbolicDelay micros g in
  let e := effect (settings g) in
  let tempo := u8 (symbolicDelay (baseFactorIndex_at g e) (cycleTime g')) in
  cycleTime g' = u32 (sumTime g + u32 (u32 micros - oldTime g)) / u8 (irqCounter g + 1) /\
  delayTime_at g' e = Z.max DELAY_TIME_MIN (Z.min tempo (delayTimeMax_at g e)) /\
  DELAY_TIME_MIN <= delayTime_at g' e <= delayTimeMax_at g e /\
  effect (settings g') = e /\ inSelectMode g' = inSelectMode g.
Proof.
  intros Hwin Hfine He Hlen Hmax. cbv zeta.
  pose proof (setup_delayTimeMax_bounds _ He) as Hb. rewrite <- Hmax in Hb.
  unfold extClock. globals_destruct g. clear Hmax.
  destruct (Z.gtb_spec (u8 (irq + 1)) NR_OF_CYCLES) as [_|Hn]; [|lia].
  subst ft. globals_simpl. cbn [negb].
  split; [reflexivity|].
  set (c := u32 (st + u32 (u32 micros - ot)) / u8 (irq + 1)).
  set (t := u8 (symbolicDelay (arr_get bf ef) c)).
  set (mx := arr_get dmax ef) in *.
  rewrite arr_get_set_same by (unfold NR_OF_EFFECTS in *; lia).
  unfold DELAY_TIME_MIN in *.
  assert (Ht : 0 <= t < 256) by (subst t; zmod).
  split; [|split; [|split; reflexivity]].
  - destruct (Z.gtb_spec t mx); [destruct (Z.ltb_spec mx 7) | destruct (Z.ltb_spec t 7)]; lia.
  - destruct (Z.gtb_spec t mx); [destruct (Z.ltb_spec mx 7) | destruct (Z.ltb_spec t 7)]; lia.
Qed.

End ControllerFacts.

Lemma extClock_overwrites_delayTime_witness :
  let g := set_oldTime 1500000 (set_sumTime 1500000 (set_irqCounter 3
             (set_inSelectMode true (parameter_state CHORUS 220 7)))) in
  let g' := extClock flat_delay 2000000 g in
  cycleTime g' = u32 (sumTime g + u32 (u32 2000000 - oldTime g)) / u8 (irqCounter g + 1) /\
  delayTime_at g' CHORUS
  = Z.max DELAY_TIME_MIN
      (Z.min (u8 (flat_delay (baseFactorIndex_at g CHORUS) (cycleTime g')))
             (delayTimeMax_at g CHORUS)) /\
  DELAY_TIME_MIN <= delayTime_at g' CHORUS <= delayTimeMax_at g CHORUS /\
  effect (settings g') = CHORUS /\ inSelectMode g' = inSelectMode g.
Proof.
  apply (extClock_overwrites_delayTime flat_delay 2000000).
  - reflexivity.
  - reflexivity.
  - vm_compute. split; [discriminate | reflexivity].
  - reflexivity.
  - reflexivity.
Defined.

(** ** The clock estimator *)

Lemma last_stamp_cons (t : Z) (ts : list Z) (d : Z) :
  last_stamp (t :: ts) d = last_stamp ts (u32 t).
Proof.
  unfold last_stamp. cbn [map]. generalize (u32 t) as x. generalize (map u32 ts) as l.
  induction l as [|y l IH]; intros x; [reflexivity|].
  change (List.last (y :: l) d = List.last (y :: l) x).
  destruct l as [|z l]; [reflexivity|]. exact (IH x).
Qed.

Section ClockFacts.

Variable symbolicDelay : Z -> Z -> Z.

Local Abbreviation extClock' := (extClock symbolicDelay).
Local Abbreviation pulses' := (pulses symbolicDelay).

(** A pulse that does not complete the window only counts and
    accumulates. *)
Lemma extClock_accumulates (t : Z) (g : Globals) :
  u8 (irqCounter g + 1) <= NR_OF_CYCLES ->
  irqCounter (extClock' t g) = u8 (irqCounter g + 1) /\
  sumTime (extClock' t g) = u32 (sumTime g + u32 (u32 t - oldTime g)) /\
  oldTime (extClock' t g) = u32 t /\
  cycleTime (extClock' t g) = cycleTime g /\
  useSymbolicTimeString (extClock' t g) = useSymbolicTimeString g /\
  settings (extClock' t g) = settings g.
Proof.
  intros Hn. unfold extClock. globals_destruct g.
  destruct (Z.gtb_spec (u8 (irq + 1)) NR_OF_CYCLES) as [Hw|_]; [lia|].
  repeat split; reflexivity.
Qed.

(** A pulse that completes the window emits the estimate and resets
    the counter and the accumulator. *)
Lemma extClock_completes (t : Z) (g : Globals) :
  u8 (irqCounter g + 1) > NR_OF_CYCLES ->
  cycleTime (extClock' t g)
  = u32 (sumTime g + u32 (u32 t - oldTime g)) / u8 (irqCounter g + 1) /\
  irqCounter (extClock' t g) = 0 /\
  sumTime (extClock' t g) = 0 /\
  oldTime (extClock' t g) = u32 t /\
  useSymbolicTimeString (extClock' t g) = true.
Proof.
  intros Hn. unfold extClock. globals_destruct g.
  destruct (Z.gtb_spec (u8 (irq + 1)) NR_OF_CYCLES) as [_|Hw]; [|lia].
  destruct (negb ft); repeat split; reflexivity.
Qed.

Lemma pulses_app (ts1 ts2 : list Z) (g : Globals) :
  pulses' (ts1 ++ ts2) g = pulses' ts2 (pulses' ts1 g).
Proof.
  revert g. induction ts1 as [|t ts1 IH]; intros g; [reflexivity|].
  cbn [app pulses]. apply IH.
Qed.

(** Pulses short of a full window: the accumulator holds the time
    from [oldTime] to the last pulse on top of what it held. *)
Lemma pulses_accumulate (ts : list Z) (g : Globals) :
  is_ulong (sumTime g) -> 0 <= irqCounter g ->
  irqCounter g + Z.of_nat (length ts) <= NR_OF_CYCLES ->
  irqCounter (pulses' ts g) = irqCounter g + Z.of_nat (length ts) /\
  sumTime (pulses' ts g)
  = u32 (sumTime g + (last_stamp ts (oldTime g) - oldTime g)) /\
  oldTime (pulses' ts g) = last_stamp ts (oldTime g) /\
  cycleTime (pulses' ts g) = cycleTime g /\
  useSymbolicTimeString (pulses' ts g) = useSymbolicTimeString g.
Proof.
  revert g. induction ts as [|t ts IH]; intros g Hsum Hirq Hlen.
  - unfold last_stamp. cbn [pulses length map List.last].
    repeat split; try lia. unfold is_ulong in Hsum. symmetry.
    replace (sumTime g + (oldTime g - oldTime g)) with (sumTime g) by lia.
    apply u32_id. exact Hsum.
  - cbn [length] in Hlen. unfold NR_OF_CYCLES in *.
    assert (Hu : u8 (irqCounter g + 1) = irqCounter g + 1) by (apply u8_id; unfold is_byte; lia).
    destruct (extClock_accumulates t g) as (Hi & Hs & Ho & Hc & Hy & _);
      [unfold NR_OF_CYCLES; lia|].
    cbn [pulses]. destruct (IH (extClock' t g)) as (Hi' & Hs' & Ho' & Hc' & Hy').
    + rewrite Hs. unfold is_ulong. zmod.
    + lia.
    + lia.
    + rewrite Hi', Hs', Ho', Hc', Hy', Hi, Hs, Ho, Hc, Hy, Hu.
      assert (Hlast : last_stamp (t :: ts) (oldTime g) = last_stamp ts (u32 t)).
      { apply last_stamp_cons. }
      rewrite Hlast. cbn [length]. repeat split; try lia. zmod.
Qed.

(** The pulse that completes a window, after [ts]: the estimate is
    what the accumulator held before [ts], plus the time from
    [oldTime] to that pulse, divided by the pulse count 4. *)
Lemma pulses_window (ts : list Z) (t : Z) (g : Globals) :
  is_ulong (sumTime g) -> 0 <= irqCounter g ->
  irqCounter g + Z.of_nat (length ts) = NR_OF_CYCLES ->
  cycleTime (pulses' (ts ++ [t]) g) = u32 (sumTime g + (u32 t - oldTime g)) / 4 /\
  irqCounter (pulses' (ts ++ [t]) g) = 0 /\
  sumTime (pulses' (ts ++ [t]) g) = 0 /\
  oldTime (pulses' (ts ++ [t]) g) = u32 t /\
  useSymbolicTimeString (pulses' (ts ++ [t]) g) = true.
Proof.
  intros Hsum Hirq Hlen. rewrite pulses_app. cbn [pulses].
  destruct (pulses_accumulate ts g Hsum Hirq ltac:(lia)) as (Hi & Hs & Ho & _).
  assert (Hfour : u8 (irqCounter (pulses' ts g) + 1) = 4).
  { rewrite Hi, Hlen. reflexivity. }
  destruct (extClock_completes t (pulses' ts g)) as (Hc & Hrest).
  { rewrite Hfour. reflexivity. }
  split; [|exact Hrest].
  rewrite Hc, Hfour, Hs, Ho. f_equal. zmod.
Qed.


(** The time-out of [loop] leaves the estimator's counter,
    accumulator and time stamps as they are. *)
Lemma loop_clockTimeout_keeps (now : Z) (g : Globals) :
  irqCounter (loop_clockTimeout now g) = irqCounter g /\
  sumTime (loop_clockTimeout now g) = sumTime g /\
  oldTime (loop_clockTimeout now g) = oldTime g /\
  cycleTime (loop_clockTimeout now g) = cycleTime g /\
  settings (loop_clockTimeout now g) = settings g.
Proof.
  unfold loop_clockTimeout. globals_destruct g.
  destruct (us && _); repeat split; reflexivity.
Qed.

(** C6 (as amended).  From an empty accumulator the estimator emits
    nothing while it accumulates the first, second and third
    interval; the fourth pulse (pulse count above NR_OF_CYCLES)
    emits the mean of the four accumulated intervals, sets the clock
    flag and resets counter and accumulator to zero.  Four pulses
    at 500 ms spacing after the last time stamp give 500000 us. *)
Theorem estimate_after_four_intervals (t1 t2 t3 t4 : Z) (g : Globals) :
  irqCounter g = 0 -> sumTime g = 0 ->
  let i1 := u32 (u32 t1 - oldTime g) in
  let i2 := u32 (u32 t2 - u32 t1) in
  let i3 := u32 (u32 t3 - u32 t2) in
  let i4 := u32 (u32 t4 - u32 t3) in
  (cycleTime (pulses' [t1] g) = cycleTime g /\
   cycleTime (pulses' [t1; t2] g) = cycleTime g /\
   cycleTime (pulses' [t1; t2; t3] g) = cycleTime g /\
   useSymbolicTimeString (pulses' [t1; t2; t3] g) = useSymbolicTimeString g /\
   irqCounter (pulses' [t1; t2; t3] g) = 3 /\
   sumTime (pulses' [t1; t2; t3] g) = u32 (i1 + i2 + i3)) /\
  cycleTime (pulses' [t1; t2; t3; t4] g) = u32 (i1 + i2 + i3 + i4) / 4 /\
  irqCounter (pulses' [t1; t2; t3; t4] g) = 0 /\
  sumTime (pulses' [t1; t2; t3; t4] g) = 0 /\
  useSymbolicTimeString (pulses' [t1; t2; t3; t4] g) = true /\
  (0 <= oldTime g -> oldTime g + 2000000 < 4294967296 ->
   t1 = oldTime g + 500000 -> t2 = t1 + 500000 ->
   t3 = t2 + 500000 -> t4 = t3 + 500000 ->
   cycleTime (pulses' [t1; t2; t3; t4] g) = 500000).
Proof.
  intros Hirq Hsum. cbv zeta.
  assert (Hu : is_ulong (sumTime g)) by (rewrite Hsum; unfold is_ulong; lia).
  assert (H0 : 0 <= irqCounter g) by lia.
  destruct (pulses_accumulate [t1] g Hu H0) as (_ & _ & _ & Hc1 & _);
    [rewrite Hirq; cbn; unfold NR_OF_CYCLES; lia|].
  destruct (pulses_accumulate [t1; t2] g Hu H0) as (_ & _ & _ & Hc2 & _);
    [rewrite Hirq; cbn; unfold NR_OF_CYCLES; lia|].
  destruct (pulses_accumulate [t1; t2; t3] g Hu H0) as (Hi3 & Hs3 & _ & Hc3 & Hy3);
    [rewrite Hirq; cbn; unfold NR_OF_CYCLES; lia|].
  destruct (pulses_window [t1; t2; t3] t4 g Hu H0) as (Hc4 & Hi4 & Hs4 & _ & Hy4);
    [rewrite Hirq; reflexivity|].
  cbn [app] in Hc4, Hi4, Hs4, Hy4.
  unfold last_stamp in Hs3. cbn [map List.last] in Hs3.
  assert (Hmean : cycleTime (pulses' [t1; t2; t3; t4] g)
                  = u32 (u32 (u32 t1 - oldTime g) + u32 (u32 t2 - u32 t1)
                         + u32 (u32 t3 - u32 t2) + u32 (u32 t4 - u32 t3)) / 4).
  { rewrite Hc4, Hsum. f_equal. zmod. }
  split; [|split; [exact Hmean|split; [exact Hi4|split; [exact Hs4|split; [exact Hy4|]]]]].
  - split; [exact Hc1|]. split; [exact Hc2|]. split; [exact Hc3|]. split; [exact Hy3|].
    split; [rewrite Hi3, Hirq; reflexivity|]. rewrite Hs3, Hsum. zmod.
  - intros Hold Hmax -> -> -> ->. rewrite Hc4, Hsum.
    replace (u32 (0 + (u32 (oldTime g + 500000 + 500000 + 500000 + 500000) - oldTime g)))
      with 2000000 by zmod.
    reflexivity.
Qed.

(** C7 (as amended).  When the clock has been silent for longer than
    EXT_CLOCK_TIMEOUT, [loop] only clears the clock flag: pulse count,
    accumulator and last time stamp stay.  The first estimate after
    the gap comes with the pulse that brings the count above
    NR_OF_CYCLES and is a quarter of what the accumulator held before
    the gap plus the time from the last pulse before the gap to that
    pulse.  The estimate after that one is the mean of four intervals
    between pulses after the gap. *)
Theorem first_estimate_after_gap (now t : Z) (ts : list Z) (g : Globals) :
  useSymbolicTimeString g = true ->
  u32 (u32 now - thisTime g) > EXT_CLOCK_TIMEOUT ->
  is_ulong (sumTime g) -> 0 <= irqCounter g ->
  irqCounter g + Z.of_nat (length ts) = NR_OF_CYCLES ->
  let g1 := loop_clockTimeout now g in
  useSymbolicTimeString g1 = false /\
  irqCounter g1 = irqCounter g /\ sumTime g1 = sumTime g /\ oldTime g1 = oldTime g /\
  cycleTime (pulses' ts g1) = cycleTime g /\
  cycleTime (pulses' (ts ++ [t]) g1) = u32 (sumTime g + (u32 t - oldTime g)) / 4 /\
  (forall t1 t2 t3 t4,
     cycleTime (pulses' ((ts ++ [t]) ++ [t1; t2; t3; t4]) g1) = u32 (u32 t4 - u32 t) / 4).
Proof.
  intros Hsym Hgap Hu Hirq Hlen. cbv zeta.
  destruct (loop_clockTimeout_keeps now g) as (Hi & Hs & Ho & Hc & _).
  set (g1 := loop_clockTimeout now g) in *.
  assert (Hoff : useSymbolicTimeString g1 = false).
  { subst g1. unfold loop_clockTimeout. rewrite Hsym.
    destruct (Z.gtb_spec (u32 (u32 now - thisTime g)) EXT_CLOCK_TIMEOUT) as [_|Hle]; [|lia].
    cbn [andb]. globals_destruct g. reflexivity. }
  assert (Hu1 : is_ulong (sumTime g1)) by (rewrite Hs; exact Hu).
  assert (Hirq1 : 0 <= irqCounter g1) by (rewrite Hi; exact Hirq).
  destruct (pulses_accumulate ts g1 Hu1 Hirq1) as (_ & _ & _ & Hc' & _); [rewrite Hi; lia|].
  destruct (pulses_window ts t g1 Hu1 Hirq1) as (Hw & Hwi & Hws & Hwo & _);
    [rewrite Hi; exact Hlen|].
  split; [exact Hoff|]. split; [exact Hi|]. split; [exact Hs|]. split; [exact Ho|].
  split; [rewrite Hc', Hc; reflexivity|].
  split; [rewrite Hw, Hs, Ho; reflexivity|].
  intros t1 t2 t3 t4. rewrite pulses_app.
  set (g2 := pulses' (ts ++ [t]) g1) in *.
  destruct (pulses_window [t1; t2; t3] t4 g2) as (Hn & _).
  - rewrite Hws. unfold is_ulong. lia.
  - rewrite Hwi. lia.
  - rewrite Hwi. reflexivity.
  - cbn [app] in Hn. rewrite Hn, Hws, Hwo. reflexivity.
Qed.

End ClockFacts.

(** C6, the claim as stated fails: after three intervals of 500 ms
    nothing has been emitted: the cycle time is still 0, the clock flag
    still off, and the accumulator holds the 1500000 us, not zero. *)
Lemma three_intervals_no_estimate :
  let g := pulses flat_delay [500000; 1000000; 1500000] (initial_globals 0) in
  irqCounter (initial_globals 0) = 0 /\ sumTime (initial_globals 0) = 0 /\
  oldTime (initial_globals 0) = 0 /\
  cycleTime g <> 500000 /\ cycleTime g = cycleTime (initial_globals 0) /\
  useSymbolicTimeString g = false /\ sumTime g = 1500000 /\ irqCounter g = 3.
Proof. vm_compute. repeat split; try reflexivity; discriminate. Qed.

Lemma estimate_after_four_intervals_witness :
  cycleTime (pulses flat_delay [500000; 1000000; 1500000; 2000000] (initial_globals 0))
  = 500000.
Proof.
  destruct (estimate_after_four_intervals flat_delay 500000 1000000 1500000 2000000
              (initial_globals 0) eq_refl eq_refl) as (_ & H & _).
  exact H.
Defined.

(** C7, the claim as stated fails: two runs whose pulses after the gap
    are the same (500 ms apart, from 5 s on) and whose last pulse
    before the gap came at 2 s and at 1 s.  In both the time-out has
    fired; the first estimates after the gap are 1125000 us and
    1375000 us, neither the 500000 us of the pulses after the gap. *)
Lemma stale_interval_in_first_estimate :
  let ga := pulses flat_delay [500000; 1000000; 1500000; 2000000] (initial_globals 0) in
  let gb := pulses flat_delay [250000; 500000; 750000; 1000000] (initial_globals 0) in
  let post := [5000000; 5500000; 6000000; 6500000] in
  useSymbolicTimeString ga = true /\ useSymbolicTimeString gb = true /\
  useSymbolicTimeString (loop_clockTimeout 4900000 ga) = false /\
  useSymbolicTimeString (loop_clockTimeout 4900000 gb) = false /\
  cycleTime (pulses flat_delay post (loop_clockTimeout 4900000 ga)) = 1125000 /\
  cycleTime (pulses flat_delay post (loop_clockTimeout 4900000 gb)) = 1375000.
Proof. vm_compute. repeat split; reflexivity. Qed.

Lemma first_estimate_after_gap_witness :
  let g := pulses flat_delay [500000; 1000000; 1500000; 2000000] (initial_globals 0) in
  let g1 := loop_clockTimeout 4900000 g in
  useSymbolicTimeString g1 = false /\
  cycleTime (pulses flat_delay [5000000; 5500000; 6000000; 6500000] g1)
  = u32 (sumTime g + (u32 6500000 - oldTime g)) / 4.
Proof.
  destruct (first_estimate_after_gap flat_delay 4900000 6500000
              [5000000; 5500000; 6000000]
              (pulses flat_delay [500000; 1000000; 1500000; 2000000] (initial_globals 0)))
    as (Hoff & _ & _ & _ & _ & Hfirst & _).
  - reflexivity.
  - reflexivity.
  - vm_compute. split; [discriminate | reflexivity].
  - vm_compute. discriminate.
  - reflexivity.
  - split; [exact Hoff | exact Hfirst].
Defined.

(** ** The encoder handler *)

Section RotateFacts.

Variable symbolicDelay : Z -> Z -> Z.

(** C4.  In SetParameter mode, without clock:
    - short delay (direction RIGHT, maximum 255): a clockwise event at
      255 leaves the delay value at 0, below DELAY_TIME_MIN; the test
      [> delayTimeMax] that follows the [byte] addition cannot hold;
    - wow-not-flutter (direction LEFT = 255 as a [byte], maximum 60):
      a counter-clockwise event at 60 leaves 61, above the maximum,
      as that branch tests the lower bound only; a clockwise event at
      7 leaves 6, below DELAY_TIME_MIN;
    - reverb (direction LEFT, maximum 255): a counter-clockwise event
      at 255 leaves 7: the value wrapped to 0 and was then raised. *)
Theorem rotate_delayTime_out_of_range :
  (let g := parameter_state SHORT_DELAY 255 7 in
   inSelectMode g = false /\ countDirection g = u8 RIGHT /\
   delayTimeMax_at g SHORT_DELAY = 255 /\ delayTime_at g SHORT_DELAY = 255 /\
   delayTime_at (rotate symbolicDelay DIR_CW g) SHORT_DELAY = 0 /\
   0 < DELAY_TIME_MIN) /\
  (let g := parameter_state WOW_NOT_FLUTTER 60 7 in
   inSelectMode g = false /\ countDirection g = u8 LEFT /\
   delayTimeMax_at g WOW_NOT_FLUTTER = 60 /\
   delayTime_at (rotate symbolicDelay DIR_CCW g) WOW_NOT_FLUTTER = 61) /\
  (let g := parameter_state WOW_NOT_FLUTTER 7 7 in
   delayTime_at (rotate symbolicDelay DIR_CW g) WOW_NOT_FLUTTER = 6 /\
   6 < DELAY_TIME_MIN) /\
  (let g := parameter_state REVERB 255 7 in
   countDirection g = u8 LEFT /\
   delayTime_at (rotate symbolicDelay DIR_CCW g) REVERB = DELAY_TIME_MIN).
Proof. vm_compute. repeat split; reflexivity. Qed.

(** The ratio index a counter-clockwise event in SetParameter mode
    leaves for the active effect. *)
Lemma rotate_ccw_baseFactorIndex (g : Globals) :
  inSelectMode g = false ->
  0 <= effect (settings g) < Z.of_nat (length (baseFactorIndex (settings g))) ->
  baseFactorIndex_at (rotate_ccw symbolicDelay g) (effect (settings g))
  = if baseFactorIndex_at g (effect (settings g)) >? 0
    then u8 (baseFactorIndex_at g (effect (settings g)) - countDirection g)
    else 0.
Proof.
  intros Hsel He. unfold rotate_ccw. globals_destruct g. subst ism.
  destruct (arr_get bf ef >? 0); destruct ft; destruct us;
    destruct ((ef =? CHORUS) || (ef =? FAST_CHORUS) || (ef =? REVERB));
    cbn [negb andb]; globals_simpl;
    match goal with
    | |- context [if ?c then _ else _] => destruct c; globals_simpl
    end;
    apply arr_get_set_same; exact He.
Qed.

(** The ratio index a clockwise event in SetParameter mode leaves for
    the active effect. *)
Lemma rotate_cw_baseFactorIndex (g : Globals) :
  inSelectMode g = false ->
  0 <= effect (settings g) < Z.of_nat (length (baseFactorIndex (settings g))) ->
  baseFactorIndex_at (rotate_cw symbolicDelay g) (effect (settings g))
  = let v := u8 (baseFactorIndex_at g (effect (settings g)) + countDirection g) in
    if v >? NR_OF_MULT_FACTORS - 1 then NR_OF_MULT_FACTORS - 1 else v.
Proof.
  intros Hsel He. unfold rotate_cw. globals_destruct g. subst ism.
  rewrite !arr_get_set_same by exact He.
  destruct (u8 (arr_get bf ef + cd) >? NR_OF_MULT_FACTORS - 1); destruct ft; destruct us;
    destruct ((ef =? CHORUS) || (ef =? FAST_CHORUS) || (ef =? REVERB));
    cbn [negb andb]; globals_simpl;
    match goal with
    | |- context [if ?c then _ else _] => destruct c; globals_simpl
    end;
    rewrite ?arr_get_set_same by (rewrite ?arr_set_length; exact He); reflexivity.
Qed.

(** With the direction RIGHT the ratio index saturates at both
    ends. *)
Lemma rotate_baseFactorIndex_right (ev : RotaryEvent) (g : Globals) :
  countDirection g = u8 RIGHT -> inSelectMode g = false ->
  0 <= effect (settings g) < Z.of_nat (length (baseFactorIndex (settings g))) ->
  0 <= baseFactorIndex_at g (effect (settings g)) <= NR_OF_MULT_FACTORS - 1 ->
  0 <= baseFactorIndex_at (rotate symbolicDelay ev g) (effect (settings g))
    <= NR_OF_MULT_FACTORS - 1.
Proof.
  intros Hdir Hsel He Hi. destruct ev; cbn [rotate].
  - exact Hi.
  - rewrite rotate_cw_baseFactorIndex by assumption. cbv zeta. rewrite Hdir.
    change (u8 RIGHT) with 1. unfold NR_OF_MULT_FACTORS in *.
    destruct (Z.gtb_spec (u8 (baseFactorIndex_at g (effect (settings g)) + 1)) (16 - 1));
      [lia | zmod].
  - rewrite rotate_ccw_baseFactorIndex by assumption. rewrite Hdir.
    change (u8 RIGHT) with 1. unfold NR_OF_MULT_FACTORS in *.
    destruct (Z.gtb_spec (baseFactorIndex_at g (effect (settings g))) 0); [zmod | lia].
Qed.

(** With the clock present and fine tuning off, a counter-clockwise
    event in SetParameter mode on an effect other than chorus, fast
    chorus and reverb evaluates the tempo formula at the ratio index
    it has just stored. *)
Lemma rotate_ccw_symbolic (g : Globals) :
  inSelectMode g = false -> fineTuneDelayTime g = false ->
  useSymbolicTimeString g = true -> isChorusOrReverb g = false ->
  0 <= effect (settings g) < Z.of_nat (length (baseFactorIndex (settings g))) ->
  0 <= effect (settings g) < Z.of_nat (length (delayTime (settings g))) ->
  let e := effect (settings g) in
  let i := baseFactorIndex_at (rotate_ccw symbolicDelay g) e in
  let v := u8 (symbolicDelay i (cycleTime g)) in
  delayTime_at (rotate_ccw symbolicDelay g) e
  = if v <? DELAY_TIME_MIN then DELAY_TIME_MIN else v.
Proof.
  intros Hsel Hfine Hsym Hcr Hb Hd. cbv zeta.
  rewrite rotate_ccw_baseFactorIndex by assumption.
  unfold rotate_ccw. globals_destruct g. subst ism ft us.
  destruct (arr_get bf ef >? 0); globals_simpl; rewrite Hcr; cbn [negb andb];
    globals_simpl;
    rewrite !arr_get_set_same by (rewrite ?arr_set_length; assumption);
    match goal with
    | |- context [if ?c then _ else _] => destruct c; globals_simpl
    end;
    rewrite ?arr_get_set_same by (rewrite ?arr_set_length; assumption);
    reflexivity.
Qed.

(** On chorus, fast chorus and reverb the encoder handler never
    evaluates the tempo formula: its result is the same for every
    value the formula could have. *)
Lemma rotate_chorus_reverb_not_symbolic (other : Z -> Z -> Z) (ev : RotaryEvent)
      (g : Globals) :
  isChorusOrReverb g = true ->
  rotate symbolicDelay ev g = rotate other ev g.
Proof.
  intros Hcr. destruct ev; cbn [rotate]; [reflexivity | |].
  - unfold rotate_cw. globals_destruct g. destruct ism; [reflexivity|].
    destruct (arr_get (arr_set bf ef (u8 (arr_get bf ef + cd))) ef >? NR_OF_MULT_FACTORS - 1);
      globals_simpl; rewrite Hcr, !andb_false_r; reflexivity.
  - unfold rotate_ccw. globals_destruct g. destruct ism; [reflexivity|].
    destruct (arr_get bf ef >? 0); globals_simpl; rewrite Hcr, !andb_false_r; reflexivity.
Qed.

(** C5.  Telegraph (direction LEFT = 255 as a [byte]) in SetParameter
    mode with the ratio index at 15: a counter-clockwise event leaves
    the index at 16, one past the [baseFactor] table; with the clock
    present the same call evaluates the tempo formula at table index
    16. *)
Theorem rotate_baseFactorIndex_out_of_range :
  let g := parameter_state TELEGRAPH 100 15 in
  inSelectMode g = false /\ countDirection g = u8 LEFT /\
  baseFactorIndex_at g TELEGRAPH = NR_OF_MULT_FACTORS - 1 /\
  baseFactorIndex_at (rotate symbolicDelay DIR_CCW g) TELEGRAPH = 16 /\
  16 > NR_OF_MULT_FACTORS - 1 /\
  (let g' := set_cycleTime 500000 (set_useSymbolicTimeString true g) in
   delayTime_at (rotate symbolicDelay DIR_CCW g') TELEGRAPH
   = if u8 (symbolicDelay 16 500000) <? DELAY_TIME_MIN
     then DELAY_TIME_MIN else u8 (symbolicDelay 16 500000)).
Proof.
  cbv zeta. repeat split; try reflexivity.
  set (g' := set_cycleTime 500000
               (set_useSymbolicTimeString true (parameter_state TELEGRAPH 100 15))).
  assert (Hb : 0 <= effect (settings g') < Z.of_nat (length (baseFactorIndex (settings g'))))
    by (vm_compute; split; [discriminate | reflexivity]).
  assert (Hd : 0 <= effect (settings g') < Z.of_nat (length (delayTime (settings g'))))
    by (vm_compute; split; [discriminate | reflexivity]).
  pose proof (rotate_ccw_symbolic g' eq_refl eq_refl eq_refl eq_refl Hb Hd) as Hsym.
  cbv zeta in Hsym. rewrite (rotate_ccw_baseFactorIndex g' eq_refl Hb) in Hsym.
  exact Hsym.
Qed.

End RotateFacts.

(** ** Loading the settings at boot *)


Lemma arr_get_set_self (a : list Z) (i : Z) :
  arr_get (arr_set a i (arr_get a i)) i = arr_get a i.
Proof.
  unfold arr_get, arr_set. destruct (Z.ltb_spec i 0) as [|Hi]; [reflexivity|].
  destruct (a !! Z.to_nat i) as [x|] eqn:E.
  - rewrite list_lookup_insert_eq by (apply lookup_lt_Some in E; exact E). reflexivity.
  - rewrite list_insert_ge by (apply lookup_ge_None; exact E). rewrite E. reflexivity.
Qed.

(** What [setup] leaves in the globals, given what [read] handed out. *)
Lemma setup_result (m : EEPROM.cells) (length micros : Z) (g : Globals)
      (m1 : EEPROM.cells) (e1 : Eeprom) :
  Eeprom_new (Obj := SettingsObjType) m length = Some (m1, e1) ->
  exists e' g',
    setup m length micros g = Some (m1, e', g') /\
    settings g'
    = match snd (read (Obj := SettingsObjType) m1 e1) with
      | Some s => s
      | None => settings g
      end /\
    writeToEeprom g' = writeToEeprom g /\ writeTimer g' = writeTimer g /\
    loop_dirty g' = false.
Proof.
  intros Hnew. unfold setup. rewrite Hnew.
  destruct (read (Obj := SettingsObjType) m1 e1) as [[e' r] p]. cbn [snd].
  eexists _, _. split; [reflexivity|].
  destruct p as [s|]; globals_destruct g; (split; [reflexivity|]);
    (split; [reflexivity|]); (split; [reflexivity|]);
    unfold loop_dirty; globals_simpl;
    rewrite Z.eqb_refl, arr_get_set_self, Z.eqb_refl; reflexivity.
Qed.


Lemma out_of_range_settings_representable : representable out_of_range_settings.
Proof.
  split; [reflexivity | | vm_compute; split; [discriminate | reflexivity] | reflexivity | ];
    apply Forall_forall; intros x Hx; apply list_elem_of_In in Hx; vm_compute in Hx;
    unfold is_byte; intuition lia.
Qed.





(** ** The deferred write *)

Lemma scheduler_run_app (evs1 evs2 : list SchedulerEvent)
      (m : EEPROM.cells) (e : Eeprom) (g : Globals) :
  scheduler_run (evs1 ++ evs2) m e g
  = let '(m1, e1, g1, n1) := scheduler_run evs1 m e g in
    let '(m2, e2, g2, n2) := scheduler_run evs2 m1 e1 g1 in
    (m2, e2, g2, (n1 + n2)%nat).
Proof.
  revert m e g. induction evs1 as [|ev evs1 IH]; intros m e g.
  - cbn [app scheduler_run]. destruct (scheduler_run evs2 m e g) as [[[m2 e2] g2] n2].
    reflexivity.
  - destruct ev as [t|t]; cbn [app scheduler_run].
    + apply IH.
    + destruct (writeSettingsToEeprom t m e g) as [[[m1 e1] g1] w].
      rewrite IH. destruct (scheduler_run evs1 m1 e1 g1) as [[[m2 e2] g2] n].
      destruct (scheduler_run evs2 m2 e2 g2) as [[[m3 e3] g3] n'].
      destruct w; reflexivity.
Qed.

Lemma updateEepromTimer_state (t : Z) (g : Globals) :
  0 <= t -> t + DELAY_TIME_BEFORE_WRITING_TO_EEPROM_IN_MS < 4294967296 ->
  timer_state (updateEepromTimer t g)
              (Some (t + DELAY_TIME_BEFORE_WRITING_TO_EEPROM_IN_MS)).
Proof.
  unfold DELAY_TIME_BEFORE_WRITING_TO_EEPROM_IN_MS. intros H0 H1.
  unfold updateEepromTimer, timer_state. globals_destruct g.
  split; [reflexivity|]. unfold DELAY_TIME_BEFORE_WRITING_TO_EEPROM_IN_MS.
  rewrite (u32_id t) by lia. apply u32_id. lia.
Qed.

(** A poll no later than the deadline, or with nothing pending, does
    not write. *)
Lemma poll_within_window (p : Z) (deadline : option Z)
      (m : EEPROM.cells) (e : Eeprom) (g : Globals) :
  timer_state g deadline -> 0 <= p < 4294967296 ->
  match deadline with Some d => p <= d | None => True end ->
  writeSettingsToEeprom p m e g = (m, e, g, false).
Proof.
  intros Hst Hp Hd. unfold writeSettingsToEeprom.
  destruct deadline as [d|]; cbn [timer_state] in Hst.
  - destruct Hst as [-> ->]. rewrite (u32_id p) by exact Hp.
    destruct (Z.gtb_spec p d) as [Hgt|_]; [lia|]. reflexivity.
  - rewrite Hst. reflexivity.
Qed.

(** A poll after the deadline writes once and clears the flag. *)
Lemma poll_after_window (p d : Z) (m : EEPROM.cells) (e : Eeprom) (g : Globals) :
  timer_state g (Some d) -> d < p < 4294967296 -> 0 <= d ->
  exists m' e' g',
    writeSettingsToEeprom p m e g = (m', e', g', true) /\ timer_state g' None.
Proof.
  intros [Hf Ht] Hp Hd. unfold writeSettingsToEeprom. rewrite Hf, Ht.
  rewrite (u32_id p) by lia.
  destruct (Z.gtb_spec p d) as [_|Hle]; [|lia]. cbn [andb].
  destruct (write m e (settings (set_writeToEeprom false g))) as [[m' e'] r].
  eexists _, _, _. split; [reflexivity|]. globals_destruct g. reflexivity.
Qed.

(** During a burst nothing is written. *)
Lemma burst_no_write (evs : list SchedulerEvent) (deadline : option Z)
      (m : EEPROM.cells) (e : Eeprom) (g : Globals) :
  within_window deadline evs -> timer_state g deadline ->
  exists g', scheduler_run evs m e g = (m, e, g', O) /\
             timer_state g' (final_deadline deadline evs).
Proof.
  revert deadline g. induction evs as [|ev evs IH]; intros deadline g Hw Hst.
  - exists g. split; [reflexivity | exact Hst].
  - destruct ev as [t|p]; cbn [within_window] in Hw; cbn [scheduler_run final_deadline].
    + destruct Hw as (H0 & H1 & Hw). apply (IH _ _ Hw).
      apply updateEepromTimer_state; assumption.
    + destruct Hw as (Hp & Hd & Hw).
      rewrite (poll_within_window p deadline m e g Hst Hp Hd).
      destruct (IH _ _ Hw Hst) as (g' & Hrun & Hst'). rewrite Hrun.
      exists g'. split; [reflexivity | exact Hst'].
Qed.

Lemma final_deadline_nonneg (evs : list SchedulerEvent) (deadline : option Z) (d : Z) :
  within_window deadline evs ->
  match deadline with Some d0 => 0 <= d0 | None => True end ->
  final_deadline deadline evs = Some d -> 0 <= d.
Proof.
  revert deadline. induction evs as [|ev evs IH]; intros deadline Hw H0 Hf.
  - cbn in Hf. subst deadline. exact H0.
  - destruct ev as [t|p]; cbn [within_window final_deadline] in *.
    + destruct Hw as (Ht & _ & Hw). apply (IH _ Hw); [|exact Hf].
      unfold DELAY_TIME_BEFORE_WRITING_TO_EEPROM_IN_MS. lia.
    + destruct Hw as (_ & _ & Hw). apply (IH _ Hw H0 Hf).
Qed.

(** Polls with nothing pending do not write. *)
Lemma idle_polls (ps : list Z) (m : EEPROM.cells) (e : Eeprom) (g : Globals) :
  writeToEeprom g = false ->
  scheduler_run (map Poll ps) m e g = (m, e, g, O).
Proof.
  intros Hf. induction ps as [|p ps IH]; [reflexivity|].
  cbn [map scheduler_run]. unfold writeSettingsToEeprom. rewrite Hf. cbn [andb].
  rewrite IH. reflexivity.
Qed.

(** One round, away from the roll-over: the dirty marks of a burst, in
    any number and with any polls no later than the deadline of the
    mark before them, then a poll after the last deadline and any
    polls after it, give one call of [eeprom.write]. *)
Lemma burst_writes_once (evs : list SchedulerEvent) (p : Z) (ps : list Z)
      (m : EEPROM.cells) (e : Eeprom) (g : Globals) :
  writeToEeprom g = false -> round_ok (evs, p) ->
  snd (scheduler_run (evs ++ Poll p :: map Poll ps) m e g) = 1%nat.
Proof.
  intros Hf (Hw & d & Hd & Hp). cbn [fst snd] in *.
  rewrite scheduler_run_app.
  destruct (burst_no_write evs None m e g Hw Hf) as (g1 & -> & Hst1). rewrite Hd in Hst1.
  pose proof (final_deadline_nonneg evs None d Hw I Hd) as Hd0.
  cbn [scheduler_run].
  destruct (poll_after_window p d m e g1 Hst1 Hp Hd0) as (m2 & e2 & g2 & -> & Hst2).
  rewrite (idle_polls ps m2 e2 g2 Hst2). reflexivity.
Qed.

(** K rounds, away from the roll-over, give K calls of [eeprom.write]. *)
Lemma rounds_write_once_each (rs : list (list SchedulerEvent * Z))
      (m : EEPROM.cells) (e : Eeprom) (g : Globals) :
  writeToEeprom g = false -> Forall round_ok rs ->
  snd (scheduler_run (rounds_events rs) m e g) = length rs.
Proof.
  intros Hf Hrs. revert m e g Hf.
  induction Hrs as [|[evs p] rs (Hw & d & Hd & Hp) _ IH]; intros m e g Hf; [reflexivity|].
  cbn [fst snd] in *. cbn [rounds_events length]. rewrite scheduler_run_app.
  destruct (burst_no_write evs None m e g Hw Hf) as (g1 & -> & Hst1). rewrite Hd in Hst1.
  pose proof (final_deadline_nonneg evs None d Hw I Hd) as Hd0.
  cbn [scheduler_run].
  destruct (poll_after_window p d m e g1 Hst1 Hp Hd0) as (m2 & e2 & g2 & -> & Hst2).
  specialize (IH m2 e2 g2 Hst2).
  destruct (scheduler_run (rounds_events rs) m2 e2 g2) as [[[m3 e3] g3] n].
  cbn [snd] in *. rewrite IH. reflexivity.
Qed.

(** C8.  Near the roll-over of [millis()] the deadline
    [millis() + 10000] wraps: a dirty mark at 4294962296 ms sets
    [writeTimer] to 5000, the poll one millisecond later already
    finds [millis() > writeTimer] and writes; a second mark 100 ms
    after the first is written again one millisecond later.  Two marks
    within one window, two writes, none of them after a quiet
    window. *)
Theorem write_before_window_at_rollover :
  match Eeprom_new (Obj := SettingsObjType) EEPROM.blank 1024 with
  | Some (m, e) =>
      let g := initial_globals 0 in
      writeTimer (updateEepromTimer 4294962296 g) = 5000 /\
      snd (scheduler_run [Dirty 4294962296; Poll 4294962297] m e g) = 1%nat /\
      snd (scheduler_run [Dirty 4294962296; Poll 4294962297;
                          Dirty 4294962396; Poll 4294962397] m e g) = 2%nat
  | None => False
  end.
Proof. vm_compute. repeat split; reflexivity. Qed.

(** * Further properties of the store *)

(** The firmware's struct on a part whose size is a multiple of the
    32-byte slot (28 bytes and the marker), with the cursor on a slot
    boundary: [write] reports 32 bytes, leaves the cursor on a slot
    boundary inside the memory, touches no cell outside the memory, and
    the [read] that follows returns 28 and the struct that was
    written. *)
Theorem settings_roundtrip_on_slot_grid (m : EEPROM.cells) (e : Eeprom)
        (s : SettingsObjType) :
  representable s -> blocked e = false ->
  eeprom_sizeInBytes e mod 32 = 0 -> eeprom_currentAddress e mod 32 = 0 ->
  0 <= eeprom_currentAddress e < eeprom_sizeInBytes e ->
  eeprom_sizeInBytes e <= 65532 ->
  let '(m', e', r) := write m e s in
  r = 32 /\
  eeprom_currentAddress e' mod 32 = 0 /\
  0 <= eeprom_currentAddress e' < eeprom_sizeInBytes e' /\
  eeprom_sizeInBytes e' = eeprom_sizeInBytes e /\ blocked e' = false /\
  (forall a, a < 0 \/ eeprom_sizeInBytes e <= a -> EEPROM.read m' a = EEPROM.read m a) /\
  snd (fst (read (Obj := SettingsObjType) m' e')) = 28 /\
  snd (read (Obj := SettingsObjType) m' e') = Some s.
Proof.
  intros Hrep Hb Hsz32 Hc32 Hc Hsz.
  assert (Hn32 : next_cursor (Obj := SettingsObjType) m e mod 32 = 0
                 /\ 0 <= next_cursor (Obj := SettingsObjType) m e
                 /\ next_cursor (Obj := SettingsObjType) m e + 32 <= eeprom_sizeInBytes e).
  { unfold next_cursor. change (SIZE_OF_SETTINGS_STRUCT (Obj := SettingsObjType)) with 28.
    unfold SIZE_OF_DATA_MARKER. destruct (_ =? EMPTY_MARKER); [zmod|]. cbv zeta.
    rewrite (u16_id (eeprom_sizeInBytes e - 1)) by lia.
    rewrite (u16_id (eeprom_currentAddress e + 28)) by zmod.
    rewrite (u16_id (eeprom_currentAddress e + 28 + 4)) by zmod.
    destruct (Z.gtb_spec (eeprom_currentAddress e + 28 + 4) (eeprom_sizeInBytes e - 1));
      zmod. }
  destruct Hn32 as (Hn1 & Hn2 & Hn3).
  assert (Hs0 : 0 <= SIZE_OF_SETTINGS_STRUCT (Obj := SettingsObjType))
    by (vm_compute; discriminate).
  pose proof (write_read_roundtrip m e s Hb Hs0 Hc Hsz) as Hrt.
  pose proof (write_stays_inside m e s Hb Hs0) as Hin.
  pose proof (write_unblocked m e s Hb) as Hw.
  destruct (write m e s) as [[m' e'] r]. cbn [fst snd] in *.
  destruct Hrt as (Hr & Hcur & Hrd & Hobj);
    [change (SIZE_OF_SETTINGS_STRUCT (Obj := SettingsObjType)) with 28; lia|].
  injection Hw as _ He' _.
  split; [rewrite Hr; reflexivity|]. rewrite Hcur.
  split; [exact Hn1|].
  assert (Hsz' : eeprom_sizeInBytes e' = eeprom_sizeInBytes e) by (rewrite He'; reflexivity).
  assert (Hb' : blocked e' = false) by (rewrite He'; exact Hb).
  rewrite Hsz'. split; [lia|]. split; [reflexivity|]. split; [exact Hb'|].
  split.
  - apply Hin; unfold SIZE_OF_DATA_MARKER;
      change (SIZE_OF_SETTINGS_STRUCT (Obj := SettingsObjType)) with 28; try lia. zmod.
  - split; [exact Hrd|]. rewrite Hobj.
    f_equal. apply settings_of_bytes_bytes. exact Hrep.
Qed.

Lemma settings_roundtrip_on_slot_grid_witness :
  let m := EEPROM_put EEPROM.blank 0 EMPTY_MARKER in
  let e := {| eeprom_currentAddress := 0; eeprom_sizeInBytes := 1024;
              eeprom_dataItem := 0; blocked := false |} in
  snd (read (Obj := SettingsObjType) (fst (fst (write m e prime_settings)))
            (snd (fst (write m e prime_settings)))) = Some prime_settings.
Proof.
  pose proof (settings_roundtrip_on_slot_grid
                (EEPROM_put EEPROM.blank 0 EMPTY_MARKER)
                {| eeprom_currentAddress := 0; eeprom_sizeInBytes := 1024;
                   eeprom_dataItem := 0; blocked := false |}
                prime_settings prime_settings_representable eq_refl eq_refl eq_refl
                ltac:(simpl; lia) ltac:(simpl; lia)) as H.
  cbv zeta.
  destruct (write (EEPROM_put EEPROM.blank 0 EMPTY_MARKER)
                  {| eeprom_currentAddress := 0; eeprom_sizeInBytes := 1024;
                     eeprom_dataItem := 0; blocked := false |} prime_settings)
    as [[m' e'] r].
  cbn [fst snd]. apply H.
Defined.

Section StoreModes.

Context {Obj : Type} `{Stored Obj, !StoredOk Obj}.

Local Abbreviation SZ := (SIZE_OF_SETTINGS_STRUCT (Obj := Obj)).

(** A struct whose size is no multiple of the marker size blocks the
    store: the constructor leaves the memory as it is, and from then on
    [write] and [read] return -1, [write] without touching the memory
    and [read] without handing out a struct. *)
Theorem misaligned_struct_blocks_store (m : EEPROM.cells) (length : Z) :
  SZ mod SIZE_OF_DATA_MARKER <> 0 ->
  exists e,
    Eeprom_new (Obj := Obj) m length = Some (m, e) /\ blocked e = true /\
    (forall (m' : EEPROM.cells) (s : Obj), write m' e s = (m', e, -1)) /\
    (forall m' : EEPROM.cells, read (Obj := Obj) m' e = (e, -1, None)).
Proof.
  intros Hmod. unfold Eeprom_new, init, init_with.
  apply Z.eqb_neq in Hmod. rewrite Hmod. cbn [negb].
  eexists. split; [reflexivity|]. split; [reflexivity|]. split.
  - intros m' s. apply write_blocked. reflexivity.
  - intros m'. unfold read. reflexivity.
Qed.

(** The number of bytes [printError] tells the user to add does make
    the struct size a multiple of the marker size, and lies between 1
    and 3. *)
Theorem printError_amount_aligns :
  0 <= SZ -> SZ mod SIZE_OF_DATA_MARKER <> 0 ->
  1 <= printError_amount (Obj := Obj) <= 3 /\
  (SZ + printError_amount (Obj := Obj)) mod SIZE_OF_DATA_MARKER = 0.
Proof.
  unfold printError_amount, SIZE_OF_DATA_MARKER. intros H0 Hmod. zmod.
Qed.

(** A memory too small for marker and struct: the constructor sets the
    cursor to 0 and writes nothing, not even the empty marker, and
    however many times [write] is called the cursor stays at 0. *)
Theorem small_memory_pins_cursor (m : EEPROM.cells) (length : Z) :
  SZ mod SIZE_OF_DATA_MARKER = 0 -> 0 <= SZ < 65532 ->
  0 < u16 length < SZ + SIZE_OF_DATA_MARKER ->
  exists e,
    Eeprom_new (Obj := Obj) m length = Some (m, e) /\
    blocked e = false /\ eeprom_currentAddress e = 0 /\
    forall (n : nat) (m' : EEPROM.cells) (s : Obj),
      eeprom_currentAddress (snd (write_n n m' e s)) = 0.
Proof.
  unfold SIZE_OF_DATA_MARKER. intros Hmod Hs Hlen.
  unfold Eeprom_new, init, init_with. unfold SIZE_OF_DATA_MARKER.
  rewrite Hmod. cbn [Z.eqb negb]. rewrite (u16_id (SZ + 4)) by lia. eeprom_simpl.
  destruct (Z.gtb_spec (SZ + 4) (u16 length)) as [_|Hle]; [|lia].
  eexists. split; [reflexivity|]. split; [reflexivity|]. split; [reflexivity|].
  intros n. 
  assert (Hinv : forall (e : Eeprom) (m' : EEPROM.cells) (s : Obj),
             blocked e = false -> eeprom_currentAddress e = 0 ->
             eeprom_sizeInBytes e = u16 length ->
             eeprom_currentAddress (snd (write_n n m' e s)) = 0).
  { induction n as [|n IH]; intros e m' s Hb Hc Hsz; [exact Hc|].
    cbn [write_n]. rewrite write_unblocked by exact Hb.
    apply IH; eeprom_simpl; [exact Hb | | exact Hsz].
    unfold next_cursor, SIZE_OF_DATA_MARKER. rewrite Hc, Hsz.
    destruct (_ =? EMPTY_MARKER); [reflexivity|]. cbv zeta.
    rewrite (u16_id (0 + SZ)) by lia. rewrite (u16_id (0 + SZ + 4)) by lia.
    rewrite (u16_id (u16 length - 1)) by lia.
    destruct (Z.gtb_spec (0 + SZ + 4) (u16 length - 1)); [reflexivity | lia]. }
  intros m' s. apply Hinv; reflexivity.
Qed.

(** First boot.  On a memory without live marker that is large
    enough, the constructor puts the empty marker at address 0 and
    sets the cursor there: [isEmpty] holds, [read] returns -1 without a
    struct, and the first [write] will land at address 0. *)
Theorem first_boot_prepares_address_0 (m : EEPROM.cells) (length : Z) :
  SZ mod SIZE_OF_DATA_MARKER = 0 -> 0 < SZ < 65532 ->
  SZ + SIZE_OF_DATA_MARKER <= u16 length ->
  no_marker m ->
  exists e,
    Eeprom_new (Obj := Obj) m length = Some (EEPROM_put m 0 EMPTY_MARKER, e) /\
    eeprom_currentAddress e = 0 /\ eeprom_sizeInBytes e = u16 length /\
    blocked e = false /\
    isEmpty (EEPROM_put m 0 EMPTY_MARKER) e = true /\
    snd (fst (read (Obj := Obj) (EEPROM_put m 0 EMPTY_MARKER) e)) = -1 /\
    snd (read (Obj := Obj) (EEPROM_put m 0 EMPTY_MARKER) e) = None /\
    next_cursor (Obj := Obj) (EEPROM_put m 0 EMPTY_MARKER) e = 0.
Proof.
  unfold SIZE_OF_DATA_MARKER. intros Hmod Hs Hlen Hno.
  unfold Eeprom_new, init, init_with. unfold SIZE_OF_DATA_MARKER.
  rewrite Hmod. cbn [Z.eqb negb]. rewrite (u16_id (SZ + 4)) by lia. eeprom_simpl.
  assert (Hl : 0 <= u16 length < 65536) by zmod.
  assert (Hs4 : 4 <= SZ) by zmod.
  destruct (Z.gtb_spec (SZ + 4) (u16 length)) as [Hgt|_]; [lia|].
  edestruct (init_scan_ends (Obj := Obj) init_fuel m) as (e' & found & Hrun & Hsz & Hbl & Hf & _).
  5: { rewrite Hrun. destruct found.
       - destruct (Hf eq_refl) as (Hd & _ & Ha & _). exfalso. exact (Hno _ Ha Hd).
       - eeprom_simpl. eexists. split; [reflexivity|]. eeprom_simpl.
         assert (Hget : EEPROM_get (T := Z) (EEPROM_put m 0 EMPTY_MARKER) 0 = EMPTY_MARKER)
           by (apply get_put_ulong; unfold is_ulong, EMPTY_MARKER; lia).
         split; [reflexivity|]. split; [exact Hsz|]. split; [exact Hbl|].
         split; [unfold isEmpty; eeprom_simpl; rewrite Hget; reflexivity|].
         split; [|split].
         + apply read_without_marker. eeprom_simpl. rewrite Hget. discriminate.
         + apply read_without_marker. eeprom_simpl. rewrite Hget. discriminate.
         + unfold next_cursor. eeprom_simpl. rewrite Hget. reflexivity. }
  - reflexivity.
  - eeprom_simpl. lia.
  - eeprom_simpl. rewrite (u16_id (u16 length - SZ)) by lia. lia.
  - eeprom_simpl. rewrite (u16_id (u16 length - SZ)) by lia.
    unfold init_fuel. rewrite Z2Nat.id by lia. lia.
Qed.

End StoreModes.

Section WearLevelling.

Context {Obj : Type} `{Stored Obj, !StoredOk Obj}.

Local Abbreviation SZ := (SIZE_OF_SETTINGS_STRUCT (Obj := Obj)).
Local Abbreviation slot := (slot_size (Obj := Obj)).
Local Abbreviation slots := (slot_count (Obj := Obj)).

(** After an unblocked [write] the live marker stands at the cursor. *)
Lemma write_marker_at_cursor (m : EEPROM.cells) (e : Eeprom) (s : Obj) :
  blocked e = false -> 0 <= next_cursor (Obj := Obj) m e < 65532 ->
  EEPROM_get (T := Z) (fst (fst (write m e s))) (next_cursor (Obj := Obj) m e)
  = DATA_MARKER.
Proof.
  intros Hb Hn. rewrite write_unblocked by exact Hb. cbn [fst].
  unfold SIZE_OF_DATA_MARKER. rewrite (u16_id (next_cursor m e + 4)) by lia.
  rewrite get_ulong_put_disjoint by lia.
  apply get_put_ulong. unfold is_ulong, DATA_MARKER. lia.
Qed.

(** One [write] from the [k]-th slot, whose marker is live, moves the
    cursor to the next slot, and from the last slot to address 0. *)
Lemma write_next_slot (m : EEPROM.cells) (e : Eeprom) (s : Obj) (k : Z) :
  blocked e = false -> 0 <= SZ ->
  0 < eeprom_sizeInBytes e -> eeprom_sizeInBytes e + slot <= 65536 ->
  eeprom_currentAddress e = slot * k -> 0 <= k < slots (eeprom_sizeInBytes e) ->
  EEPROM_get (T := Z) m (eeprom_currentAddress e) = DATA_MARKER ->
  next_cursor (Obj := Obj) m e = slot * ((k + 1) mod slots (eeprom_sizeInBytes e)).
Proof.
  unfold slot_count, slot_size, SIZE_OF_DATA_MARKER.
  intros Hb Hs Hsz Hmax Hc Hk Hd.
  assert (Hnz : SZ + 4 <> 0) by lia.
  assert (Hpos : 0 < SZ + 4) by lia.
  pose proof (Z.div_mod (eeprom_sizeInBytes e - 1) (SZ + 4) Hnz) as Hdm.
  pose proof (Z.mod_pos_bound (eeprom_sizeInBytes e - 1) (SZ + 4) Hpos) as Hr.
  set (q := (eeprom_sizeInBytes e - 1) / (SZ + 4)) in *.
  set (r := (eeprom_sizeInBytes e - 1) mod (SZ + 4)) in *.
  assert (Hq : 0 <= q) by (subst q; apply Z.div_pos; lia).
  clearbody q r.
  unfold next_cursor, SIZE_OF_DATA_MARKER. rewrite Hd.
  change (DATA_MARKER =? EMPTY_MARKER) with false. cbv iota zeta.
  rewrite Hc.
  assert (Hck : (SZ + 4) * k <= (SZ + 4) * q) by (apply Z.mul_le_mono_nonneg_l; lia).
  assert (Hck0 : 0 <= (SZ + 4) * k) by (apply Z.mul_nonneg_nonneg; lia).
  rewrite (u16_id ((SZ + 4) * k + SZ)) by lia.
  rewrite (u16_id ((SZ + 4) * k + SZ + 4)) by lia.
  rewrite (u16_id (eeprom_sizeInBytes e - 1)) by lia.
  destruct (Z.eq_dec k q) as [->|Hne].
  - rewrite Z_mod_same_full.
    destruct (Z.gtb_spec ((SZ + 4) * q + SZ + 4) (eeprom_sizeInBytes e - 1)); lia.
  - rewrite (Z.mod_small (k + 1)) by lia.
    assert (Hk1 : (SZ + 4) * (k + 1) <= (SZ + 4) * q)
      by (apply Z.mul_le_mono_nonneg_l; lia).
    destruct (Z.gtb_spec ((SZ + 4) * k + SZ + 4) (eeprom_sizeInBytes e - 1)); lia.
Qed.

Lemma write_n_from_slot (n : nat) (m : EEPROM.cells) (e : Eeprom) (s : Obj) (k : Z) :
  blocked e = false -> 0 <= SZ ->
  0 < eeprom_sizeInBytes e -> eeprom_sizeInBytes e + slot <= 65536 ->
  eeprom_currentAddress e = slot * k -> 0 <= k < slots (eeprom_sizeInBytes e) ->
  EEPROM_get (T := Z) m (eeprom_currentAddress e) = DATA_MARKER ->
  eeprom_currentAddress (snd (write_n n m e s))
  = slot * ((k + Z.of_nat n) mod slots (eeprom_sizeInBytes e)).
Proof.
  revert m e k. induction n as [|n IH]; intros m e k Hb Hs Hsz Hmax Hc Hk Hd.
  - cbn [write_n snd]. rewrite Z.add_0_r, Z.mod_small by exact Hk. exact Hc.
  - cbn [write_n].
    pose proof (write_next_slot m e s k Hb Hs Hsz Hmax Hc Hk Hd) as Hnext.
    pose proof (write_marker_at_cursor m e s Hb) as Hmark.
    pose proof (write_unblocked m e s Hb) as Hw.
    destruct (write m e s) as [[m1 e1] r]. cbn [fst] in Hmark.
    injection Hw as _ He1 _.
    assert (Hpos : 0 < slots (eeprom_sizeInBytes e)) by lia.
    pose proof (Z.mod_pos_bound (k + 1) _ Hpos) as Hk1.
    assert (Hslot_pos : 0 < slot) by (unfold slot_size, SIZE_OF_DATA_MARKER; lia).
    assert (Hn_le : slot * ((k + 1) mod slots (eeprom_sizeInBytes e))
                    <= eeprom_sizeInBytes e - 1).
    { unfold slot_count in *.
      pose proof (Z.mul_div_le (eeprom_sizeInBytes e - 1) slot Hslot_pos).
      assert (slot * ((k + 1) mod ((eeprom_sizeInBytes e - 1) / slot + 1))
              <= slot * ((eeprom_sizeInBytes e - 1) / slot))
        by (apply Z.mul_le_mono_nonneg_l; lia).
      lia. }
    assert (Hn0 : 0 <= slot * ((k + 1) mod slots (eeprom_sizeInBytes e)))
      by (apply Z.mul_nonneg_nonneg; lia).
    unfold slot_size, SIZE_OF_DATA_MARKER in Hmax.
    rewrite (IH m1 e1 ((k + 1) mod slots (eeprom_sizeInBytes e))).
    + rewrite He1. eeprom_simpl. rewrite Zplus_mod_idemp_l. f_equal. f_equal. lia.
    + rewrite He1. exact Hb.
    + exact Hs.
    + rewrite He1. exact Hsz.
    + rewrite He1. unfold slot_size, SIZE_OF_DATA_MARKER. exact Hmax.
    + rewrite He1. eeprom_simpl. exact Hnext.
    + rewrite He1. eeprom_simpl. exact Hk1.
    + rewrite He1. eeprom_simpl. apply Hmark. rewrite Hnext. lia.
Qed.

(** Wear levelling.  From a store whose cursor is at 0 on the empty
    marker, the [n+1]-th [write] leaves the cursor at slot
    [n mod slots], where a slot is marker plus struct and [slots] is
    the number of slot starts below the size: the writes go round the
    memory and come back to address 0 after [slots] of them. *)
Theorem write_n_cursor (n : nat) (m : EEPROM.cells) (e : Eeprom) (s : Obj) :
  blocked e = false -> 0 <= SZ ->
  0 < eeprom_sizeInBytes e -> eeprom_sizeInBytes e + slot <= 65536 ->
  eeprom_currentAddress e = 0 ->
  EEPROM_get (T := Z) m 0 = EMPTY_MARKER ->
  eeprom_currentAddress (snd (write_n (S n) m e s))
  = slot * (Z.of_nat n mod slots (eeprom_sizeInBytes e)).
Proof.
  intros Hb Hs Hsz Hmax Hc He. cbn [write_n].
  assert (Hnext : next_cursor (Obj := Obj) m e = 0).
  { unfold next_cursor. rewrite Hc, He. reflexivity. }
  pose proof (write_marker_at_cursor m e s Hb) as Hmark.
  pose proof (write_unblocked m e s Hb) as Hw.
  destruct (write m e s) as [[m1 e1] r]. cbn [fst] in Hmark.
  injection Hw as _ He1 _. rewrite Hnext in *.
  assert (Hq : 0 <= (eeprom_sizeInBytes e - 1) / slot).
  { apply Z.div_pos; unfold slot_size, SIZE_OF_DATA_MARKER; lia. }
  rewrite (write_n_from_slot n m1 e1 s 0).
  - rewrite He1. eeprom_simpl. reflexivity.
  - rewrite He1. exact Hb.
  - exact Hs.
  - rewrite He1. exact Hsz.
  - rewrite He1. exact Hmax.
  - rewrite He1. eeprom_simpl. lia.
  - rewrite He1. eeprom_simpl. unfold slot_count. lia.
  - rewrite He1. eeprom_simpl. apply Hmark. lia.
Qed.

End WearLevelling.

Lemma write_n_cursor_witness :
  let m := EEPROM_put EEPROM.blank 0 EMPTY_MARKER in
  let e := {| eeprom_currentAddress := 0; eeprom_sizeInBytes := 512;
              eeprom_dataItem := 0; blocked := false |} in
  eeprom_currentAddress
    (snd (write_n 27 m e {| record16_bytes := replicate 16 0 |}))
  = slot_size (Obj := Record16) * (26 mod slot_count (Obj := Record16) 512).
Proof.
  apply (write_n_cursor (Obj := Record16) 26).
  - reflexivity.
  - vm_compute. discriminate.
  - reflexivity.
  - vm_compute. discriminate.
  - reflexivity.
  - reflexivity.
Defined.

#[export] Instance StoredOk_record3 : StoredOk Record3.
Proof.
  split; intros x; cbn [object_bytes Stored_record3].
  - rewrite length_resize. reflexivity.
  - apply Forall_is_byte_resize.
Qed.

Lemma blank_no_marker : no_marker EEPROM.blank.
Proof. intros a _. rewrite blank_get_ulong. discriminate. Qed.

Lemma misaligned_struct_blocks_store_witness :
  exists e, Eeprom_new (Obj := Record3) EEPROM.blank 1024 = Some (EEPROM.blank, e) /\
    blocked e = true /\
    (forall (m' : EEPROM.cells) (s : Record3), write m' e s = (m', e, -1)) /\
    (forall m' : EEPROM.cells, read (Obj := Record3) m' e = (e, -1, None)).
Proof.
  apply (misaligned_struct_blocks_store (Obj := Record3)).
  vm_compute. discriminate.
Defined.

Lemma printError_amount_aligns_witness :
  1 <= printError_amount (Obj := Record3) <= 3 /\
  (SIZE_OF_SETTINGS_STRUCT (Obj := Record3) + printError_amount (Obj := Record3))
    mod SIZE_OF_DATA_MARKER = 0.
Proof.
  apply (printError_amount_aligns (Obj := Record3)).
  - vm_compute. discriminate.
  - vm_compute. discriminate.
Defined.

Lemma small_memory_pins_cursor_witness :
  exists e, Eeprom_new (Obj := Record16) EEPROM.blank 16 = Some (EEPROM.blank, e) /\
    blocked e = false /\ eeprom_currentAddress e = 0 /\
    forall (n : nat) (m' : EEPROM.cells) (s : Record16),
      eeprom_currentAddress (snd (write_n n m' e s)) = 0.
Proof.
  apply (small_memory_pins_cursor (Obj := Record16)).
  - reflexivity.
  - vm_compute. split; [discriminate | reflexivity].
  - vm_compute. split; reflexivity.
Defined.

Lemma first_boot_prepares_address_0_witness :
  exists e,
    Eeprom_new (Obj := SettingsObjType) EEPROM.blank 1024
    = Some (EEPROM_put EEPROM.blank 0 EMPTY_MARKER, e) /\
    eeprom_currentAddress e = 0 /\ eeprom_sizeInBytes e = u16 1024 /\
    blocked e = false /\
    isEmpty (EEPROM_put EEPROM.blank 0 EMPTY_MARKER) e = true /\
    snd (fst (read (Obj := SettingsObjType) (EEPROM_put EEPROM.blank 0 EMPTY_MARKER) e)) = -1 /\
    snd (read (Obj := SettingsObjType) (EEPROM_put EEPROM.blank 0 EMPTY_MARKER) e) = None /\
    next_cursor (Obj := SettingsObjType) (EEPROM_put EEPROM.blank 0 EMPTY_MARKER) e = 0.
Proof.
  apply (first_boot_prepares_address_0 (Obj := SettingsObjType)).
  - reflexivity.
  - vm_compute. split; reflexivity.
  - vm_compute. discriminate.
  - exact blank_no_marker.
Defined.

Section StoreBoot.

Context {Obj : Type} `{Stored Obj, !StoredOk Obj}.

Local Abbreviation SZ := (SIZE_OF_SETTINGS_STRUCT (Obj := Obj)).

(** The two ways the constructor ends on a memory that can hold a
    record: the scan stops on a live marker and the memory is left
    alone, or the scanned range holds none and the empty marker is put
    at address 0. *)
Lemma boot_scan_outcome (m : EEPROM.cells) (length : Z) :
  SZ mod 4 = 0 -> 0 < SZ < 65532 -> SZ + 4 <= u16 length ->
  (exists e,
     Eeprom_new (Obj := Obj) m length = Some (m, e) /\
     eeprom_sizeInBytes e = u16 length /\ blocked e = false /\
     aligned (eeprom_currentAddress e) /\
     0 <= eeprom_currentAddress e < u16 length - SZ /\
     EEPROM_get (T := Z) m (eeprom_currentAddress e) = DATA_MARKER) \/
  (exists e,
     Eeprom_new (Obj := Obj) m length = Some (EEPROM_put m 0 EMPTY_MARKER, e) /\
     eeprom_sizeInBytes e = u16 length /\ blocked e = false /\
     eeprom_currentAddress e = 0 /\
     forall a, aligned a -> 0 <= a < u16 length - SZ ->
       EEPROM_get (T := Z) m a <> DATA_MARKER).
Proof.
  intros Hmod Hs Hlen.
  unfold Eeprom_new, init, init_with. unfold SIZE_OF_DATA_MARKER.
  rewrite Hmod. cbn [Z.eqb negb]. rewrite (u16_id (SZ + 4)) by lia. eeprom_simpl.
  assert (Hl : 0 <= u16 length < 65536) by zmod.
  assert (Hs4 : 4 <= SZ) by zmod.
  destruct (Z.gtb_spec (SZ + 4) (u16 length)) as [Hgt|_]; [lia|].
  edestruct (init_scan_ends (Obj := Obj) init_fuel m)
    as (e' & found & Hrun & Hsz & Hbl & Hf & Hnf).
  5: { rewrite Hrun. eeprom_simpl.
       rewrite (u16_id (u16 length - SZ)) in Hf, Hnf by lia.
       destruct found.
       - left. destruct (Hf eq_refl) as (Hd & _ & Ha & Hr).
         exists e'. repeat split; try assumption; lia.
       - right. eexists. split; [reflexivity|]. eeprom_simpl.
         repeat split; try assumption. intros a Ha Hr.
         apply (Hnf eq_refl a Ha). exact Hr. }
  - reflexivity.
  - eeprom_simpl. lia.
  - eeprom_simpl. rewrite (u16_id (u16 length - SZ)) by lia. lia.
  - eeprom_simpl. rewrite (u16_id (u16 length - SZ)) by lia.
    unfold init_fuel. rewrite Z2Nat.id by lia. lia.
Qed.

Lemma put_bytes_twice (bs : list Z) (m : EEPROM.cells) (idx a : Z) :
  EEPROM.read (EEPROM.put_bytes (EEPROM.put_bytes m idx bs) idx bs) a
  = EEPROM.read (EEPROM.put_bytes m idx bs) a.
Proof.
  destruct (Z_lt_dec a idx) as [Hlo|Hlo].
  { rewrite !read_put_bytes_outside by lia. reflexivity. }
  destruct (Z_le_dec (idx + Z.of_nat (Datatypes.length bs)) a) as [Hhi|Hhi].
  { rewrite !read_put_bytes_outside by lia. reflexivity. }
  replace a with (idx + Z.of_nat (Z.to_nat (a - idx))) by lia.
  rewrite !read_put_bytes_inside by lia. reflexivity.
Qed.

(** Booting is idempotent.  Whatever the memory holds, a second run
    of the constructor on the memory the first run leaves ends with
    the same cursor, size and blocked flag, and with every cell as the
    first run left it. *)
Theorem boot_twice_same (m m1 : EEPROM.cells) (length : Z) (e1 : Eeprom) :
  0 < SZ < 65532 ->
  Eeprom_new (Obj := Obj) m length = Some (m1, e1) ->
  exists m2 e2,
    Eeprom_new (Obj := Obj) m1 length = Some (m2, e2) /\
    (forall a, EEPROM.read m2 a = EEPROM.read m1 a) /\
    eeprom_currentAddress e2 = eeprom_currentAddress e1 /\
    eeprom_sizeInBytes e2 = eeprom_sizeInBytes e1 /\
    blocked e2 = blocked e1.
Proof.
  intros Hs Hboot.
  destruct (Z.eq_dec (SZ mod 4) 0) as [Hmod|Hmod].
  2: { revert Hboot. unfold Eeprom_new, init, init_with, SIZE_OF_DATA_MARKER.
       apply Z.eqb_neq in Hmod. rewrite Hmod. cbn [negb].
       intros [= <- <-]. eexists _, _. split; [reflexivity|].
       repeat split; reflexivity. }
  destruct (Z_le_dec (SZ + 4) (u16 length)) as [Hlen|Hlen].
  2: { revert Hboot. unfold Eeprom_new, init, init_with, SIZE_OF_DATA_MARKER.
       rewrite Hmod. cbn [Z.eqb negb]. rewrite (u16_id (SZ + 4)) by lia. eeprom_simpl.
       destruct (Z.gtb_spec (SZ + 4) (u16 length)) as [_|Hle]; [|lia].
       intros [= <- <-]. eexists _, _. split; [reflexivity|].
       repeat split; reflexivity. }
  destruct (boot_scan_outcome m length Hmod Hs Hlen)
    as [(e & Hrun & _)|(e & Hrun & Hsz & Hbl & Hc & Hnone)];
    rewrite Hrun in Hboot; injection Hboot as <- <-.
  { exists m, e. split; [exact Hrun|]. repeat split; reflexivity. }
  assert (Hs4 : 4 <= SZ) by zmod.
  destruct (boot_scan_outcome (EEPROM_put m 0 EMPTY_MARKER) length Hmod Hs Hlen)
    as [(e2 & _ & _ & _ & Hal & Hr & Hd)|(e2 & Hrun2 & Hsz2 & Hbl2 & Hc2 & _)].
  - exfalso. destruct (Z.eq_dec (eeprom_currentAddress e2) 0) as [E|E].
    + rewrite E in Hd.
      rewrite get_put_ulong in Hd by (unfold is_ulong, EMPTY_MARKER; lia).
      discriminate.
    + rewrite get_ulong_put_ulong_disjoint in Hd
        by (unfold aligned, SIZE_OF_DATA_MARKER in Hal; zmod).
      exact (Hnone _ Hal Hr Hd).
  - eexists _, e2. split; [exact Hrun2|]. split.
    + intros a. apply put_bytes_twice.
    + rewrite Hc, Hc2, Hsz, Hsz2, Hbl, Hbl2. repeat split; reflexivity.
Qed.

(** A record put behind a live marker at an aligned address [c], in a
    memory without live marker: when none of the struct's words is the
    marker, [c] is the only aligned address with a live marker. *)
Lemma placed_record_marker_positions (m : EEPROM.cells) (c : Z) (s : Obj) :
  SZ mod 4 = 0 -> 0 < SZ -> aligned c -> 0 <= c ->
  marker_free (object_bytes s) = true ->
  no_marker m ->
  forall a, aligned a ->
    EEPROM_get (T := Z) (EEPROM_put (EEPROM_put m c DATA_MARKER) (c + 4) s) a = DATA_MARKER
    <-> a = c.
Proof.
  intros Hmod Hs Hal Hc Hfree Hno a Ha.
  unfold SIZE_OF_SETTINGS_STRUCT in *. split.
  - intros Hd. destruct (Z.eq_dec a c) as [|Hne]; [assumption|]. exfalso. revert Hd.
    destruct (Z_lt_dec a (c + 4)) as [Hlo|Hlo];
      [|destruct (Z_le_dec (c + 4 + sizeof (T := Obj)) a) as [Hhi|Hhi]].
    + assert (a + 4 <= c) by (unfold aligned, SIZE_OF_DATA_MARKER in *; zmod).
      rewrite get_ulong_put_disjoint by lia.
      rewrite get_ulong_put_ulong_disjoint by lia.
      apply Hno. exact Ha.
    + rewrite get_ulong_put_disjoint by lia.
      rewrite get_ulong_put_ulong_disjoint by lia.
      apply Hno. exact Ha.
    + assert (Hk : exists k : nat, a = c + 4 + Z.of_nat (4 * k) /\
                                   Z.of_nat (4 * k + 4) <= sizeof (T := Obj)).
      { exists (Z.to_nat ((a - c - 4) / 4)).
        unfold aligned, SIZE_OF_DATA_MARKER in *.
        rewrite !Nat2Z.inj_add, !Nat2Z.inj_mul, Z2Nat.id by zmod.
        change (Z.of_nat 4) with 4. zmod. }
      destruct Hk as (k & -> & Hk).
      unfold EEPROM_put at 1.
      rewrite get_ulong_put_bytes_inside.
      * apply marker_free_word; [exact Hfree|].
        pose proof (object_bytes_length s) as Hlen. lia.
      * apply object_bytes_range.
      * pose proof (object_bytes_length s) as Hlen. lia.
  - intros ->. rewrite get_ulong_put_disjoint by lia.
    apply get_put_ulong. unfold is_ulong, DATA_MARKER. lia.
Qed.

End StoreBoot.

Lemma boot_twice_same_witness :
  exists m2 e2,
    Eeprom_new (Obj := SettingsObjType) (EEPROM_put EEPROM.blank 0 EMPTY_MARKER) 1024
    = Some (m2, e2) /\
    (forall a, EEPROM.read m2 a = EEPROM.read (EEPROM_put EEPROM.blank 0 EMPTY_MARKER) a) /\
    eeprom_currentAddress e2 = 0 /\
    eeprom_sizeInBytes e2 = 1024 /\
    blocked e2 = false.
Proof.
  apply (boot_twice_same (Obj := SettingsObjType) EEPROM.blank
           (EEPROM_put EEPROM.blank 0 EMPTY_MARKER) 1024
           {| eeprom_currentAddress := 0; eeprom_sizeInBytes := 1024;
              eeprom_dataItem := 0xffffffff; blocked := false |}).
  - vm_compute. split; reflexivity.
  - vm_compute. reflexivity.
Defined.

(** ** [erase] *)

Lemma erase_cells_read (n : nat) (address a : Z) (m : EEPROM.cells) :
  EEPROM.read (erase_cells n address m) a
  = if (address <=? a) && (a <? address + Z.of_nat n) then 255 else EEPROM.read m a.
Proof.
  revert address m. induction n as [|n IH]; intros address m.
  - cbn [erase_cells].
    destruct (Z.leb_spec address a), (Z.ltb_spec a (address + Z.of_nat 0));
      cbn [andb]; try reflexivity; lia.
  - cbn [erase_cells]. rewrite IH. unfold EEPROM.read, EEPROM.write.
    destruct (Z.leb_spec (address + 1) a), (Z.ltb_spec a (address + 1 + Z.of_nat n)),
      (Z.leb_spec address a), (Z.ltb_spec a (address + Z.of_nat (S n)));
      cbn [andb]; try reflexivity; try lia;
      destruct (Z.eqb_spec a address); try reflexivity; lia.
Qed.

(** [erase] leaves an empty store.  The cursor is at 0 on the empty
    marker, every other cell of the memory reads 0xff, no cell outside
    the memory (and the four marker cells) is touched, no aligned word
    inside the memory is a live marker, [read] returns -1 without a
    struct, and the next [write] lands at address 0. *)
Theorem erase_leaves_empty_store (m : EEPROM.cells) (e : Eeprom) :
  let m' := fst (erase m e) in
  let e' := snd (erase m e) in
  eeprom_currentAddress e' = 0 /\
  eeprom_sizeInBytes e' = eeprom_sizeInBytes e /\ blocked e' = blocked e /\
  isEmpty m' e' = true /\
  (forall a, 4 <= a < eeprom_sizeInBytes e -> EEPROM.read m' a = 255) /\
  (forall a, a < 0 \/ (4 <= a /\ eeprom_sizeInBytes e <= a) ->
     EEPROM.read m' a = EEPROM.read m a) /\
  (forall a, aligned a -> 0 <= a -> a + 4 <= eeprom_sizeInBytes e ->
     EEPROM_get (T := Z) m' a <> DATA_MARKER) /\
  (forall (Obj : Type) (S : Stored Obj),
     snd (fst (read (Obj := Obj) m' e')) = -1 /\ snd (read (Obj := Obj) m' e') = None /\
     next_cursor (Obj := Obj) m' e' = 0).
Proof.
  cbv zeta. unfold erase. eeprom_simpl.
  set (m1 := erase_cells (Z.to_nat (eeprom_sizeInBytes e)) 0 m).
  assert (Hget : EEPROM_get (T := Z) (EEPROM_put m1 0 EMPTY_MARKER) 0 = EMPTY_MARKER)
    by (apply get_put_ulong; unfold is_ulong, EMPTY_MARKER; lia).
  assert (Hin : forall a, 4 <= a < eeprom_sizeInBytes e ->
                  EEPROM.read (EEPROM_put m1 0 EMPTY_MARKER) a = 255).
  { intros a Ha. unfold EEPROM_put. rewrite read_put_bytes_outside by (cbn; lia).
    subst m1. rewrite erase_cells_read.
    destruct (Z.leb_spec 0 a), (Z.ltb_spec a (0 + Z.of_nat (Z.to_nat (eeprom_sizeInBytes e))));
      cbn [andb]; try reflexivity; lia. }
  split; [reflexivity|]. split; [reflexivity|]. split; [reflexivity|].
  split; [unfold isEmpty; eeprom_simpl; rewrite Hget; reflexivity|].
  split; [exact Hin|]. split; [|split].
  - intros a Ha. unfold EEPROM_put. rewrite read_put_bytes_outside by (cbn; lia).
    subst m1. rewrite erase_cells_read.
    destruct (Z.leb_spec 0 a), (Z.ltb_spec a (0 + Z.of_nat (Z.to_nat (eeprom_sizeInBytes e))));
      cbn [andb]; try reflexivity; lia.
  - intros a Hal H0 Hfit. destruct (Z.eq_dec a 0) as [->|Hne].
    + rewrite Hget. discriminate.
    + assert (4 <= a) by (unfold aligned, SIZE_OF_DATA_MARKER in Hal; zmod).
      rewrite (get_ulong_ext _ EEPROM.blank).
      * rewrite blank_get_ulong. discriminate.
      * intros x Hx. rewrite Hin by lia. reflexivity.
  - intros Obj S. split; [|split].
    + apply read_without_marker. eeprom_simpl. rewrite Hget. discriminate.
    + apply read_without_marker. eeprom_simpl. rewrite Hget. discriminate.
    + unfold next_cursor. eeprom_simpl. rewrite Hget. reflexivity.
Qed.

(** ** [prime] *)

Section StorePrime.

Context {Obj : Type} `{Stored Obj, !StoredOk Obj}.

Local Abbreviation SZ := (SIZE_OF_SETTINGS_STRUCT (Obj := Obj)).

(** Booting on a memory with at most one live marker, at an address
    the scan covers, leaves a memory with at most one live marker, at
    the cursor. *)
Lemma boot_keeps_single_marker (m : EEPROM.cells) (length c : Z) :
  SZ mod 4 = 0 -> 0 < SZ < 65532 -> SZ + 4 <= u16 length ->
  aligned c -> 0 <= c < u16 length - SZ -> single_marker m c ->
  exists m1 e1,
    Eeprom_new (Obj := Obj) m length = Some (m1, e1) /\
    blocked e1 = false /\ eeprom_sizeInBytes e1 = u16 length /\
    aligned (eeprom_currentAddress e1) /\ 0 <= eeprom_currentAddress e1 /\
    single_marker m1 (eeprom_currentAddress e1).
Proof.
  intros Hmod Hs Hlen Hal Hc Hone.
  destruct (boot_scan_outcome m length Hmod Hs Hlen)
    as [(e & Hrun & Hsz & Hbl & Ha & Hr & Hd)|(e & Hrun & Hsz & Hbl & Hc0 & Hnone)].
  - exists m, e. repeat split; try assumption; try lia.
    intros a Haa Hne. apply Hone; [exact Haa|].
    intros ->. apply Hne.
    destruct (Z.eq_dec (eeprom_currentAddress e) c) as [E|E]; [symmetry; exact E|].
    exfalso. exact (Hone _ Ha E Hd).
  - eexists _, e. split; [exact Hrun|]. rewrite Hc0.
    repeat split; try assumption; try reflexivity.
    intros a Haa Hne.
    rewrite get_ulong_put_ulong_disjoint
      by (unfold aligned, SIZE_OF_DATA_MARKER in Haa; zmod).
    destruct (Z.eq_dec a c) as [->|E]; [apply Hnone; assumption | apply Hone; assumption].
Qed.

(** After [prime] the struct is found by the next boot: the live
    marker stands at address 0 and nowhere else. *)
Lemma prime_boot_read (m : EEPROM.cells) (e : Eeprom) (s : Obj) (length : Z) :
  SZ mod 4 = 0 -> 0 < SZ < 65532 -> SZ + 4 <= u16 length ->
  blocked e = false -> aligned (eeprom_currentAddress e) ->
  single_marker m (eeprom_currentAddress e) ->
  marker_free (object_bytes s) = true ->
  (forall a, aligned a ->
     EEPROM_get (T := Z) (fst (prime m e s)) a = DATA_MARKER <-> a = 0) /\
  exists e2,
    Eeprom_new (Obj := Obj) (fst (prime m e s)) length = Some (fst (prime m e s), e2) /\
    eeprom_currentAddress e2 = 0 /\
    snd (fst (read (fst (prime m e s)) e2)) = SZ /\
    snd (read (fst (prime m e s)) e2) = Some (object_of_bytes (object_bytes s)).
Proof.
  intros Hmod Hs Hlen Hb Hal Hone Hfree.
  assert (Hl : 0 <= u16 length < 65536) by zmod.
  assert (Hpos : forall a, aligned a ->
            EEPROM_get (T := Z) (fst (prime m e s)) a = DATA_MARKER <-> a = 0).
  { unfold prime, eraseMarkerByte. rewrite Hb. eeprom_simpl.
    change SIZE_OF_DATA_MARKER with (0 + 4).
    apply placed_record_marker_positions; try assumption; try lia; try reflexivity.
    apply erase_no_marker; assumption. }
  split; [exact Hpos|].
  destruct (boot_finds_record (fst (prime m e s)) length 0 Hmod Hs)
    as (e2 & Hrun & Hc2 & Hsz2 & Hbl2); [reflexivity | lia | lia | exact Hpos |].
  exists e2. split; [exact Hrun|]. split; [exact Hc2|].
  unfold read. rewrite Hbl2, Hc2, Hsz2. unfold SIZE_OF_DATA_MARKER.
  rewrite (u16_id (0 + SZ)) by lia.
  destruct (Z.gtb_spec (0 + SZ) (u16 length)) as [Hg|_]; [lia|].
  eeprom_simpl. rewrite Hc2. rewrite (u16_id (0 + 4)) by lia.
  rewrite (proj2 (Hpos 0 eq_refl) eq_refl). rewrite Z.eqb_refl. cbn [fst snd].
  split; [reflexivity|]. f_equal.
  unfold prime. rewrite Hb. cbn [fst].
  unfold EEPROM_get, EEPROM_put. f_equal.
  rewrite <- (object_bytes_length s), Nat2Z.id.
  apply get_bytes_put_bytes. apply object_bytes_range.
Qed.

(** [prime] puts the struct at the start of the memory and leaves the
    cursor where it is.  The next boot finds the struct at address 0
    and [read] hands it out; the object that primed, when its cursor is
    not 0, still points at the erased marker and its [read] returns -1
    without a struct. *)
Theorem prime_record_found_at_boot (m : EEPROM.cells) (e : Eeprom) (s : Obj) (length : Z) :
  SZ mod 4 = 0 -> 0 < SZ < 65532 -> SZ + 4 <= u16 length ->
  blocked e = false -> aligned (eeprom_currentAddress e) ->
  single_marker m (eeprom_currentAddress e) ->
  marker_free (object_bytes s) = true ->
  let m' := fst (prime m e s) in
  let e' := snd (prime m e s) in
  eeprom_currentAddress e' = eeprom_currentAddress e /\
  (eeprom_currentAddress e <> 0 ->
   snd (fst (read (Obj := Obj) m' e')) = -1 /\ snd (read (Obj := Obj) m' e') = None) /\
  exists e2,
    Eeprom_new (Obj := Obj) m' length = Some (m', e2) /\
    eeprom_currentAddress e2 = 0 /\
    snd (fst (read m' e2)) = SZ /\
    snd (read m' e2) = Some (object_of_bytes (object_bytes s)).
Proof.
  intros Hmod Hs Hlen Hb Hal Hone Hfree. cbv zeta.
  destruct (prime_boot_read m e s length Hmod Hs Hlen Hb Hal Hone Hfree) as [Hpos Hboot].
  assert (Hcur : eeprom_currentAddress (snd (prime m e s)) = eeprom_currentAddress e).
  { unfold prime. rewrite Hb. reflexivity. }
  split; [exact Hcur|]. split; [|exact Hboot].
  intros Hne. apply read_without_marker. rewrite Hcur.
  intros Hd. apply Hne. apply (Hpos _ Hal). exact Hd.
Qed.

End StorePrime.

Lemma prime_settings_marker_free : marker_free (object_bytes prime_settings) = true.
Proof. vm_compute. reflexivity. Qed.

Lemma setup_prime_fill_settings (g : Globals) :
  length (delayTime (settings g)) = 13%nat ->
  length (baseFactorIndex (settings g)) = 13%nat ->
  settings (set_isWetAndDrySelected true
              (set_effect INITIAL_EFFECT
                 (setup_prime_fill (Z.to_nat NR_OF_EFFECTS) 0
                    (set_isWetAndDrySelected true (set_effect INITIAL_EFFECT g)))))
  = prime_settings.
Proof.
  globals_destruct g. intros Hd Hb.
  do 13 (destruct dt as [|? dt]; [discriminate|]).
  destruct dt; [|discriminate].
  do 13 (destruct bf as [|? bf]; [discriminate|]).
  destruct bf; [|discriminate].
  reflexivity.
Qed.

(** Priming, then the released firmware.  On a memory with at most
    one live marker, [setup] compiled with PRIME_THE_EEPROM stores the
    initial settings (every delay value 220, every ratio index 7, wet
    and dry selected, the initial effect); the next boot, compiled
    without it, finds them at address 0 and loads them into
    [settings]. *)
Theorem prime_then_setup_loads_prime_settings
        (m : EEPROM.cells) (length micros c : Z) (g g' : Globals) :
  Datatypes.length (delayTime (settings g)) = 13%nat ->
  Datatypes.length (baseFactorIndex (settings g)) = 13%nat ->
  32 <= u16 length ->
  aligned c -> 0 <= c < u16 length - 28 -> single_marker m c ->
  exists m1 e1 g1 e2 g2,
    setup_prime m length g = Some (m1, e1, g1) /\
    settings g1 = prime_settings /\
    setup m1 length micros g' = Some (m1, e2, g2) /\
    settings g2 = prime_settings.
Proof.
  intros Hd Hbf Hlen Hal Hc Hone.
  assert (Hs : 0 < SIZE_OF_SETTINGS_STRUCT (Obj := SettingsObjType) < 65532)
    by (vm_compute; split; reflexivity).
  assert (Hmod : SIZE_OF_SETTINGS_STRUCT (Obj := SettingsObjType) mod 4 = 0)
    by reflexivity.
  destruct (boot_keeps_single_marker (Obj := SettingsObjType) m length c
              Hmod Hs Hlen Hal Hc Hone)
    as (m0 & e0 & Hrun & Hbl & Hsz & Hal0 & Hc0 & Hone0).
  unfold setup_prime. rewrite Hrun.
  rewrite (setup_prime_fill_settings g Hd Hbf).
  destruct (prime_boot_read (Obj := SettingsObjType) m0 e0 prime_settings length
              Hmod Hs Hlen Hbl Hal0 Hone0 prime_settings_marker_free)
    as (_ & e2 & Hrun2 & _ & _ & Hread).
  destruct (prime m0 e0 prime_settings) as [m1 e1] eqn:Hp. cbn [fst] in *.
  destruct (setup_result m1 length micros g' m1 e2 Hrun2) as (e3 & g3 & Hsetup & Hset & _).
  exists m1, e1. eexists. exists e3, g3.
  split; [reflexivity|]. split; [apply setup_prime_fill_settings; assumption|].
  split; [exact Hsetup|].
  rewrite Hset, Hread. apply settings_of_bytes_bytes. exact prime_settings_representable.
Qed.

Lemma prime_record_found_at_boot_witness :
  let m := EEPROM_put EEPROM.blank 0 EMPTY_MARKER in
  let e := {| eeprom_currentAddress := 0; eeprom_sizeInBytes := 1024;
              eeprom_dataItem := 0; blocked := false |} in
  let m' := fst (prime m e prime_settings) in
  let e' := snd (prime m e prime_settings) in
  eeprom_currentAddress e' = eeprom_currentAddress e /\
  (eeprom_currentAddress e <> 0 ->
   snd (fst (read (Obj := SettingsObjType) m' e')) = -1 /\
   snd (read (Obj := SettingsObjType) m' e') = None) /\
  exists e2,
    Eeprom_new (Obj := SettingsObjType) m' 1024 = Some (m', e2) /\
    eeprom_currentAddress e2 = 0 /\
    snd (fst (read (Obj := SettingsObjType) m' e2))
    = SIZE_OF_SETTINGS_STRUCT (Obj := SettingsObjType) /\
    snd (read (Obj := SettingsObjType) m' e2)
    = Some (object_of_bytes (T := SettingsObjType) (object_bytes prime_settings)).
Proof.
  intros m e m' e'. subst m' e'.
  apply (prime_record_found_at_boot (Obj := SettingsObjType) m e prime_settings 1024).
  - reflexivity.
  - vm_compute. split; reflexivity.
  - vm_compute. discriminate.
  - reflexivity.
  - reflexivity.
  - exact first_boot_single_marker.
  - exact prime_settings_marker_free.
Defined.

Lemma prime_then_setup_loads_prime_settings_witness :
  exists m1 e1 g1 e2 g2,
    setup_prime EEPROM.blank 1024 (initial_globals 0) = Some (m1, e1, g1) /\
    settings g1 = prime_settings /\
    setup m1 1024 0 (initial_globals 0) = Some (m1, e2, g2) /\
    settings g2 = prime_settings.
Proof.
  apply (prime_then_setup_loads_prime_settings EEPROM.blank 1024 0 0).
  - reflexivity.
  - reflexivity.
  - vm_compute. discriminate.
  - reflexivity.
  - vm_compute. split; [discriminate | reflexivity].
  - intros a Ha _. apply blank_no_marker. exact Ha.
Defined.

(** * Further properties of the controller *)

Ltac split_ifs :=
  repeat match goal with
         | |- context [if ?c then _ else _] => destruct c; globals_simpl
         end.

Section RotateRuns.

Variable symbolicDelay : Z -> Z -> Z.

Local Abbreviation rotate' := (rotate symbolicDelay).
Local Abbreviation rotations' := (rotations symbolicDelay).

(** In SelectEffect mode the encoder steps through the effects and
    wraps at both ends: a clockwise event goes from the last effect to
    the first, a counter-clockwise event from the first to the last.
    Nothing but the effect index changes, and the two directions undo
    each other. *)
Theorem rotate_selects_effect (ev : RotaryEvent) (g : Globals) :
  inSelectMode g = true -> 0 <= effect (settings g) < NR_OF_EFFECTS ->
  let step := match ev with DIR_CW => 1 | DIR_CCW => -1 | DIR_NONE => 0 end in
  effect (settings (rotate' ev g)) = (effect (settings g) + step) mod NR_OF_EFFECTS /\
  0 <= effect (settings (rotate' ev g)) < NR_OF_EFFECTS /\
  rotate' ev g = set_effect (effect (settings (rotate' ev g))) g /\
  rotate' DIR_CCW (rotate' DIR_CW g) = g /\
  rotate' DIR_CW (rotate' DIR_CCW g) = g.
Proof.
  intros Hsel He. unfold NR_OF_EFFECTS in He.
  destruct g as [[dt wd ef bf] dmax odt cdt oe cd ism wte wt ot tt st ct irq us ft ld].
  cbn [inSelectMode settings effect] in Hsel, He. subst ism.
  assert (Hcases : ef = 0 \/ ef = 1 \/ ef = 2 \/ ef = 3 \/ ef = 4 \/ ef = 5 \/ ef = 6
                   \/ ef = 7 \/ ef = 8 \/ ef = 9 \/ ef = 10 \/ ef = 11 \/ ef = 12) by lia.
  repeat (destruct Hcases as [->|Hcases];
          [destruct ev; cbv zeta; repeat split; (reflexivity || discriminate)|]).
  subst ef. destruct ev; cbv zeta; repeat split; (reflexivity || discriminate).
Qed.

(** What an encoder event in SetParameter mode leaves alone. *)
Lemma rotate_frame (ev : RotaryEvent) (g : Globals) :
  inSelectMode g = false ->
  inSelectMode (rotate' ev g) = false /\
  effect (settings (rotate' ev g)) = effect (settings g) /\
  countDirection (rotate' ev g) = countDirection g /\
  useSymbolicTimeString (rotate' ev g) = useSymbolicTimeString g /\
  fineTuneDelayTime (rotate' ev g) = fineTuneDelayTime g /\
  delayTimeMax (rotate' ev g) = delayTimeMax g /\
  length (baseFactorIndex (settings (rotate' ev g))) = length (baseFactorIndex (settings g)) /\
  length (delayTime (settings (rotate' ev g))) = length (delayTime (settings g)).
Proof.
  intros Hsel. destruct ev; cbn [rotate].
  - repeat split; try reflexivity. exact Hsel.
  - unfold rotate_cw. globals_destruct g. subst ism.
    destruct (arr_get (arr_set bf ef (u8 (arr_get bf ef + cd))) ef >? NR_OF_MULT_FACTORS - 1);
      destruct ft, us;
      destruct ((ef =? CHORUS) || (ef =? FAST_CHORUS) || (ef =? REVERB));
      cbn [negb andb]; globals_simpl; split_ifs;
      repeat split; rewrite ?arr_set_length; reflexivity.
  - unfold rotate_ccw. globals_destruct g. subst ism.
    destruct (arr_get bf ef >? 0); destruct ft, us;
      destruct ((ef =? CHORUS) || (ef =? FAST_CHORUS) || (ef =? REVERB));
      cbn [negb andb]; globals_simpl; split_ifs;
      repeat split; rewrite ?arr_set_length; reflexivity.
Qed.

(** With the direction RIGHT, however the encoder is turned in
    SetParameter mode, the ratio index of the active effect stays
    inside the [baseFactor] table and the active effect stays the
    same. *)
Theorem rotations_baseFactorIndex_in_table (evs : list RotaryEvent) (g : Globals) :
  countDirection g = u8 RIGHT -> inSelectMode g = false ->
  0 <= effect (settings g) < Z.of_nat (length (baseFactorIndex (settings g))) ->
  0 <= baseFactorIndex_at g (effect (settings g)) <= NR_OF_MULT_FACTORS - 1 ->
  effect (settings (rotations' evs g)) = effect (settings g) /\
  0 <= baseFactorIndex_at (rotations' evs g) (effect (settings g))
    <= NR_OF_MULT_FACTORS - 1.
Proof.
  revert g. induction evs as [|ev evs IH]; intros g Hdir Hsel He Hi.
  - split; [reflexivity | exact Hi].
  - cbn [rotations].
    destruct (rotate_frame ev g Hsel) as (Hsel' & Heff & Hdir' & _ & _ & _ & Hlen & _).
    pose proof (rotate_baseFactorIndex_right symbolicDelay ev g Hdir Hsel He Hi) as Hi'.
    destruct (IH (rotate' ev g)) as (H1 & H2).
    + rewrite Hdir'. exact Hdir.
    + exact Hsel'.
    + rewrite Heff, Hlen. exact He.
    + rewrite Heff. exact Hi'.
    + rewrite Heff in H1, H2. split; assumption.
Qed.

(** One encoder event in SetParameter mode, direction RIGHT, without
    clock: a delay value inside [DELAY_TIME_MIN, delayTimeMax] and
    below 255 stays inside. *)
Lemma rotate_delayTime_right (ev : RotaryEvent) (g : Globals) :
  countDirection g = u8 RIGHT -> inSelectMode g = false ->
  useSymbolicTimeString g = false ->
  0 <= effect (settings g) < Z.of_nat (length (baseFactorIndex (settings g))) ->
  0 <= effect (settings g) < Z.of_nat (length (delayTime (settings g))) ->
  DELAY_TIME_MIN <= delayTime_at g (effect (settings g))
    <= delayTimeMax_at g (effect (settings g)) ->
  delayTime_at g (effect (settings g)) < 255 ->
  DELAY_TIME_MIN <= delayTime_at (rotate' ev g) (effect (settings g))
    <= delayTimeMax_at g (effect (settings g)).
Proof.
  intros Hdir Hsel Hsym Hb Hd Hr H255. destruct ev; cbn [rotate].
  - exact Hr.
  - unfold rotate_cw. globals_destruct g. subst ism us cd.
    change (u8 RIGHT) with 1 in *. unfold DELAY_TIME_MIN in *.
    assert (Hu : u8 (arr_get dt ef + 1) = arr_get dt ef + 1) by (apply u8_id; unfold is_byte; lia).
    destruct (arr_get (arr_set bf ef (u8 (arr_get bf ef + 1))) ef >? NR_OF_MULT_FACTORS - 1);
      destruct ft; cbn [negb andb]; globals_simpl;
      rewrite ?arr_get_set_same by exact Hd; rewrite Hu;
      destruct (Z.gtb_spec (arr_get dt ef + 1) (arr_get dmax ef));
      globals_simpl; rewrite ?arr_get_set_same by (rewrite ?arr_set_length; exact Hd); lia.
  - unfold rotate_ccw. globals_destruct g. subst ism us cd.
    change (u8 RIGHT) with 1 in *. unfold DELAY_TIME_MIN in *.
    assert (Hu : u8 (arr_get dt ef - 1) = arr_get dt ef - 1) by (apply u8_id; unfold is_byte; lia).
    destruct (arr_get bf ef >? 0);
      destruct ft; cbn [negb andb]; globals_simpl;
      rewrite ?arr_get_set_same by exact Hd; rewrite Hu;
      destruct (Z.ltb_spec (arr_get dt ef - 1) 7);
      globals_simpl; rewrite ?arr_get_set_same by (rewrite ?arr_set_length; exact Hd); lia.
Qed.

(** With the direction RIGHT and without clock, for an effect whose
    maximum is below 255 (the decelerator), however the encoder is
    turned in SetParameter mode the delay value stays inside
    [DELAY_TIME_MIN, delayTimeMax]. *)
Theorem rotations_delayTime_in_range (evs : list RotaryEvent) (g : Globals) :
  countDirection g = u8 RIGHT -> inSelectMode g = false ->
  useSymbolicTimeString g = false ->
  0 <= effect (settings g) < Z.of_nat (length (baseFactorIndex (settings g))) ->
  0 <= effect (settings g) < Z.of_nat (length (delayTime (settings g))) ->
  delayTimeMax_at g (effect (settings g)) < 255 ->
  DELAY_TIME_MIN <= delayTime_at g (effect (settings g))
    <= delayTimeMax_at g (effect (settings g)) ->
  DELAY_TIME_MIN <= delayTime_at (rotations' evs g) (effect (settings g))
    <= delayTimeMax_at g (effect (settings g)).
Proof.
  revert g. induction evs as [|ev evs IH]; intros g Hdir Hsel Hsym Hb Hd Hmax Hr.
  - exact Hr.
  - cbn [rotations].
    destruct (rotate_frame ev g Hsel) as (Hsel' & Heff & Hdir' & Hsym' & _ & Hdm & Hlb & Hld).
    pose proof (rotate_delayTime_right ev g Hdir Hsel Hsym Hb Hd Hr ltac:(lia)) as Hr'.
    assert (Hdm' : delayTimeMax_at (rotate' ev g) (effect (settings g))
                   = delayTimeMax_at g (effect (settings g))).
    { unfold delayTimeMax_at. rewrite Hdm. reflexivity. }
    specialize (IH (rotate' ev g)). rewrite Heff, Hdir', Hsym', Hlb, Hld, Hdm' in IH.
    apply IH; assumption.
Qed.

End RotateRuns.

Section ClockRuns.

Variable symbolicDelay : Z -> Z -> Z.

Local Abbreviation extClock' := (extClock symbolicDelay).
Local Abbreviation pulses' := (pulses symbolicDelay).

(** What a clock pulse leaves alone: everything but the estimator's
    own variables, the clock flag, the LED period and the delay value
    of the active effect; and that one too while fine tuning is on. *)
Lemma extClock_frame (t : Z) (g : Globals) :
  effect (settings (extClock' t g)) = effect (settings g) /\
  isWetAndDrySelected (settings (extClock' t g)) = isWetAndDrySelected (settings g) /\
  baseFactorIndex (settings (extClock' t g)) = baseFactorIndex (settings g) /\
  inSelectMode (extClock' t g) = inSelectMode g /\
  fineTuneDelayTime (extClock' t g) = fineTuneDelayTime g /\
  countDirection (extClock' t g) = countDirection g /\
  delayTimeMax (extClock' t g) = delayTimeMax g /\
  writeToEeprom (extClock' t g) = writeToEeprom g /\
  writeTimer (extClock' t g) = writeTimer g /\
  (forall j, j <> effect (settings g) -> delayTime_at (extClock' t g) j = delayTime_at g j) /\
  (fineTuneDelayTime g = true -> settings (extClock' t g) = settings g) /\
  (useSymbolicTimeString g = true -> useSymbolicTimeString (extClock' t g) = true) /\
  thisTime (extClock' t g) = u32 t.
Proof.
  unfold extClock. globals_destruct g.
  destruct (u8 (irq + 1) >? NR_OF_CYCLES); destruct ft; cbn [negb]; globals_simpl;
    repeat split; try reflexivity; try discriminate; try (intros; assumption);
    intros j Hj; apply arr_get_set_other; congruence.
Qed.

Lemma pulses_cons (t : Z) (ts : list Z) (g : Globals) :
  pulses' (t :: ts) g = pulses' ts (extClock' t g).
Proof. cbv delta [pulses]. reflexivity. Qed.

(** What the callbacks of the push button leave alone. *)
Lemma button_tick_frame (cbs : list ButtonCallback) (st : Globals * ScreenSaver) :
  effect (settings (fst (button_tick cbs st))) = effect (settings (fst st)) /\
  delayTime (settings (fst (button_tick cbs st))) = delayTime (settings (fst st)) /\
  baseFactorIndex (settings (fst (button_tick cbs st))) = baseFactorIndex (settings (fst st)) /\
  delayTimeMax (fst (button_tick cbs st)) = delayTimeMax (fst st) /\
  countDirection (fst (button_tick cbs st)) = countDirection (fst st) /\
  writeToEeprom (fst (button_tick cbs st)) = writeToEeprom (fst st) /\
  writeTimer (fst (button_tick cbs st)) = writeTimer (fst st).
Proof.
  revert st. induction cbs as [|cb cbs IH]; intros st.
  - repeat split; reflexivity.
  - cbn [button_tick].
    destruct (IH (button_callback cb st)) as (-> & -> & -> & -> & -> & -> & ->).
    destruct st as [g ss]. destruct cb; cbn [button_callback fst snd].
    + unfold setDelayTime. globals_destruct g. repeat split; reflexivity.
    + unfold finetuneDelayTime. globals_destruct g. repeat split; reflexivity.
    + unfold wetDryToggle. globals_destruct g.
      destruct ((ef =? SHORT_DELAY) || (ef =? DELAY) || (ef =? ECHO1) || (ef =? ECHO2)
                || (ef =? ECHO3) || (ef =? REVERB) || (ef =? PSYCHO));
        repeat split; reflexivity.
Qed.

Lemma pulses_isr_cons (t : Z) (cbs : list ButtonCallback)
      (ps : list (Z * list ButtonCallback)) (st : Globals * ScreenSaver) :
  pulses_isr symbolicDelay ((t, cbs) :: ps) st
  = pulses_isr symbolicDelay ps (extClock_isr symbolicDelay t cbs st).
Proof. cbv delta [pulses_isr]. reflexivity. Qed.

(** One run of the whole handler, [button.tick()] included. *)
Lemma extClock_isr_frame (t : Z) (cbs : list ButtonCallback) (st : Globals * ScreenSaver) :
  effect (settings (fst (extClock_isr symbolicDelay t cbs st))) = effect (settings (fst st)) /\
  baseFactorIndex (settings (fst (extClock_isr symbolicDelay t cbs st)))
  = baseFactorIndex (settings (fst st)) /\
  (forall j, j <> effect (settings (fst st)) ->
     delayTime_at (fst (extClock_isr symbolicDelay t cbs st)) j = delayTime_at (fst st) j) /\
  delayTimeMax (fst (extClock_isr symbolicDelay t cbs st)) = delayTimeMax (fst st) /\
  countDirection (fst (extClock_isr symbolicDelay t cbs st)) = countDirection (fst st) /\
  writeToEeprom (fst (extClock_isr symbolicDelay t cbs st)) = writeToEeprom (fst st) /\
  writeTimer (fst (extClock_isr symbolicDelay t cbs st)) = writeTimer (fst st) /\
  (fineTuneDelayTime (fst st) = true ->
   delayTime (settings (fst (extClock_isr symbolicDelay t cbs st)))
   = delayTime (settings (fst st))).
Proof.
  unfold extClock_isr.
  destruct (extClock_frame t (fst st))
    as (He & _ & Hb & _ & _ & Hcd & Hdm & Hwe & Hwt & Hd & Hfine & _).
  remember (extClock' t (fst st)) as g1 eqn:Eg1. clear Eg1.
  destruct (button_tick_frame cbs (g1, snd st)) as (He' & Hd' & Hb' & Hdm' & Hcd' & Hwe' & Hwt').
  cbn [fst] in *.
  rewrite He', Hb', Hdm', Hcd', Hwe', Hwt'.
  split; [exact He|]. split; [exact Hb|]. split.
  { intros j Hj. unfold delayTime_at in *. rewrite Hd'. apply Hd. exact Hj. }
  split; [exact Hdm|]. split; [exact Hcd|]. split; [exact Hwe|]. split; [exact Hwt|].
  intros Hf. rewrite Hd', (Hfine Hf). reflexivity.
Qed.

Lemma pulses_isr_frame (ps : list (Z * list ButtonCallback)) (st : Globals * ScreenSaver) :
  effect (settings (fst (pulses_isr symbolicDelay ps st))) = effect (settings (fst st)) /\
  baseFactorIndex (settings (fst (pulses_isr symbolicDelay ps st)))
  = baseFactorIndex (settings (fst st)) /\
  (forall j, j <> effect (settings (fst st)) ->
     delayTime_at (fst (pulses_isr symbolicDelay ps st)) j = delayTime_at (fst st) j) /\
  delayTimeMax (fst (pulses_isr symbolicDelay ps st)) = delayTimeMax (fst st) /\
  countDirection (fst (pulses_isr symbolicDelay ps st)) = countDirection (fst st) /\
  writeToEeprom (fst (pulses_isr symbolicDelay ps st)) = writeToEeprom (fst st) /\
  writeTimer (fst (pulses_isr symbolicDelay ps st)) = writeTimer (fst st).
Proof.
  revert st. induction ps as [|[t cbs] ps IH]; intros st.
  - repeat split; reflexivity.
  - rewrite !pulses_isr_cons.
    destruct (extClock_isr_frame t cbs st) as (He & Hb & Hd & Hdm & Hcd & Hwe & Hwt & _).
    specialize (IH (extClock_isr symbolicDelay t cbs st)).
    remember (extClock_isr symbolicDelay t cbs st) as st1 eqn:Est1. clear Est1.
    destruct IH as (He' & Hb' & Hd' & Hdm' & Hcd' & Hwe' & Hwt').
    rewrite He', Hb', Hdm', Hcd', Hwe', Hwt'.
    split; [exact He|]. split; [exact Hb|]. split.
    { intros j Hj. rewrite Hd' by (rewrite He; exact Hj). apply Hd. exact Hj. }
    split; [exact Hdm|]. split; [exact Hcd|]. split; [exact Hwe|]. exact Hwt.
Qed.

(** However many clock pulses arrive, whenever, and whichever callbacks
    of the push button run in the [button.tick()] that ends the
    handler: with the effect index in 0..12, the index the handler
    takes into the arrays, the selected effect, every ratio index, the
    delay value of every effect but the selected one, the table of
    maxima, the direction and the pending write are left as they
    were.  And a pulse that arrives while fine tuning is on changes no
    delay value at all, whatever its [button.tick()] runs. *)
Theorem pulses_isr_keep_selection (ps : list (Z * list ButtonCallback))
        (st : Globals * ScreenSaver) :
  0 <= effect (settings (fst st)) < NR_OF_EFFECTS ->
  length (delayTime (settings (fst st))) = Z.to_nat NR_OF_EFFECTS ->
  length (baseFactorIndex (settings (fst st))) = Z.to_nat NR_OF_EFFECTS ->
  let g := fst st in
  let g' := fst (pulses_isr symbolicDelay ps st) in
  effect (settings g') = effect (settings g) /\
  baseFactorIndex (settings g') = baseFactorIndex (settings g) /\
  (forall j, j <> effect (settings g) -> delayTime_at g' j = delayTime_at g j) /\
  delayTimeMax g' = delayTimeMax g /\
  countDirection g' = countDirection g /\
  writeToEeprom g' = writeToEeprom g /\ writeTimer g' = writeTimer g /\
  (forall (t : Z) (cbs : list ButtonCallback),
     fineTuneDelayTime g = true ->
     delayTime (settings (fst (extClock_isr symbolicDelay t cbs st)))
     = delayTime (settings g)).
Proof.
  intros _ _ _. cbv zeta.
  destruct (pulses_isr_frame ps st) as (He & Hb & Hd & Hdm & Hcd & Hwe & Hwt).
  split; [exact He|]. split; [exact Hb|]. split; [exact Hd|]. split; [exact Hdm|].
  split; [exact Hcd|]. split; [exact Hwe|]. split; [exact Hwt|].
  intros t cbs Hf. destruct (extClock_isr_frame t cbs st) as (_ & _ & _ & _ & _ & _ & _ & H).
  apply H. exact Hf.
Qed.

(** The pulse counter counts modulo NR_OF_CYCLES + 1: it never leaves
    0..NR_OF_CYCLES, and once a pulse has brought the count above
    NR_OF_CYCLES the clock flag is set and stays set under further
    pulses. *)
Theorem pulses_irqCounter (ts : list Z) (g : Globals) :
  0 <= irqCounter g <= NR_OF_CYCLES ->
  irqCounter (pulses' ts g)
  = (irqCounter g + Z.of_nat (length ts)) mod (NR_OF_CYCLES + 1) /\
  (useSymbolicTimeString g = true \/ NR_OF_CYCLES < irqCounter g + Z.of_nat (length ts) ->
   useSymbolicTimeString (pulses' ts g) = true).
Proof.
  unfold NR_OF_CYCLES. revert g. induction ts as [|t ts IH]; intros g Hirq.
  - cbn [pulses length]. split; [rewrite Z.mod_small by lia; lia|].
    intros [H|H]; [exact H | cbn in H; lia].
  - rewrite !pulses_cons.
    cbn [length]. rewrite Nat2Z.inj_succ.
    destruct (extClock_frame t g) as (_ & _ & _ & _ & _ & _ & _ & _ & _ & _ & _ & Hkeep & _).
    specialize (IH (extClock' t g)).
    destruct (Z.eq_dec (irqCounter g) 3) as [E|E].
    + destruct (extClock_completes symbolicDelay t g) as (_ & Hi & _ & _ & Hu).
      { rewrite E. reflexivity. }
      remember (extClock' t g) as g1 eqn:Eg1. clear Eg1.
      destruct IH as (Hc & Hs); [rewrite Hi; lia|].
      rewrite Hc, Hi, E. split.
      * replace (3 + Z.succ (Z.of_nat (length ts))) with (Z.of_nat (length ts) + 1 * 4) by lia.
        rewrite Z.mod_add by lia. reflexivity.
      * intros _. apply Hs. left. exact Hu.
    + destruct (extClock_accumulates symbolicDelay t g) as (Hi & _ & _ & _ & Hu & _).
      { unfold NR_OF_CYCLES. rewrite u8_id by (unfold is_byte; lia). lia. }
      rewrite u8_id in Hi by (unfold is_byte; lia).
      remember (extClock' t g) as g1 eqn:Eg1. clear Eg1.
      destruct IH as (Hc & Hs); [rewrite Hi; lia|].
      rewrite Hc, Hi. split.
      * f_equal. lia.
      * intros [H|H]; apply Hs; [left; apply Hkeep; exact H | right; lia].
Qed.

(** The time-out of the clock is safe at the roll-over of [micros()]:
    after a pulse at time [t], the pass of [loop] that comes [el]
    microseconds later clears the clock flag when and only when [el]
    exceeds EXT_CLOCK_TIMEOUT, wherever [t] and [t + el] lie in the
    32-bit range of the timer.  The settings are not touched. *)
Theorem clockTimeout_after_pulse (t el : Z) (g : Globals) :
  0 <= el < 4294967296 ->
  let g1 := extClock' t g in
  let g2 := loop_clockTimeout (t + el) g1 in
  useSymbolicTimeString g2 = useSymbolicTimeString g1 && (el <=? EXT_CLOCK_TIMEOUT) /\
  (useSymbolicTimeString g1 = true -> EXT_CLOCK_TIMEOUT < el -> ledDelay g2 = LED_DELAY) /\
  (el <= EXT_CLOCK_TIMEOUT -> g2 = g1) /\
  settings g2 = settings g1.
Proof.
  intros Hel. cbv zeta.
  destruct (extClock_frame t g) as (_ & _ & _ & _ & _ & _ & _ & _ & _ & _ & _ & _ & Ht).
  assert (Hdiff : u32 (u32 (t + el) - thisTime (extClock' t g)) = el) by (rewrite Ht; zmod).
  unfold loop_clockTimeout. rewrite Hdiff.
  destruct (useSymbolicTimeString (extClock' t g)) eqn:Hu; cbn [andb].
  - destruct (Z.gtb_spec el EXT_CLOCK_TIMEOUT) as [Hg|Hg];
      destruct (Z.leb_spec el EXT_CLOCK_TIMEOUT) as [Hl|Hl]; try lia.
    + destruct (extClock' t g). repeat split; try reflexivity. intros; lia.
    + repeat split; try reflexivity; try assumption. intros; lia.
  - repeat split; try reflexivity; try assumption. discriminate.
Qed.

End ClockRuns.

(** ** The long press *)

(** [wetDryToggle] flips the wet/dry flag, and writes the new flag to
    switch C, for short delay, delay, the three echoes, reverb and
    psycho; for the six other effects it changes no global and writes
    no switch.  Nothing but the flag changes, a second long press
    undoes the first, and the screen saver is switched off. *)
Theorem wetDryToggle_flag (g : Globals) (ss : ScreenSaver) :
  0 <= effect (settings g) < NR_OF_EFFECTS ->
  let g' := fst (fst (wetDryToggle g ss)) in
  let swc := snd (fst (wetDryToggle g ss)) in
  let ss' := snd (wetDryToggle g ss) in
  let e := effect (settings g) in
  (if (e =? DECELERATOR) || (e =? CHORUS) || (e =? FAST_CHORUS)
      || (e =? WOW_NOT_FLUTTER) || (e =? TELEGRAPH) || (e =? TELEVERB)
   then g' = g /\ swc = None
   else g' = set_isWetAndDrySelected (negb (isWetAndDrySelected (settings g))) g /\
        swc = Some (negb (isWetAndDrySelected (settings g)))) /\
  fst (fst (wetDryToggle g' ss')) = g /\
  inScreenSaverMode ss' = false /\
  screensaverDelay1 ss' = screensaverDelay1 ss /\
  screensaverDelay2 ss' = screensaverDelay2 ss.
Proof.
  intros He. unfold NR_OF_EFFECTS in He.
  destruct g as [[dt wd ef bf] dmax odt cdt oe cd ism wte wt ot tt st ct irq us ft ld].
  cbn [settings effect] in He.
  assert (Hcases : ef = 0 \/ ef = 1 \/ ef = 2 \/ ef = 3 \/ ef = 4 \/ ef = 5 \/ ef = 6
                   \/ ef = 7 \/ ef = 8 \/ ef = 9 \/ ef = 10 \/ ef = 11 \/ ef = 12) by lia.
  repeat (destruct Hcases as [->|Hcases];
          [destruct wd; cbv zeta; repeat split; reflexivity|]).
  subst ef. destruct wd; cbv zeta; repeat split; reflexivity.
Qed.

(** ** MillisDelay and the screen saver *)

(** A started delay measures elapsed time, also across the roll-over
    of [millis()]: [el] milliseconds after [start], [justFinished]
    answers whether [el] exceeds the delay time, wherever the start
    lies in the 32-bit range of the timer, and leaves the object as it
    is; the answer stays true until the next [start]. *)
Theorem justFinished_elapsed (t0 el : Z) (d : MillisDelay) :
  _stop d = false -> 0 <= el < 4294967296 ->
  MillisDelayClass.justFinished (t0 + el) (MillisDelayClass.start t0 d)
  = (MillisDelayClass.start t0 d, el >? _delayTime d).
Proof.
  intros Hs Hel. unfold MillisDelayClass.justFinished, MillisDelayClass.start.
  cbn [_stop _oldTime _delayTime]. rewrite Hs. f_equal. f_equal. zmod.
Qed.

Lemma justFinished_quiet (t0 el : Z) (d : MillisDelay) :
  _stop d = false -> 0 <= el <= _delayTime d -> el < 4294967296 ->
  MillisDelayClass.justFinished (t0 + el) (MillisDelayClass.start t0 d)
  = (MillisDelayClass.start t0 d, false).
Proof.
  intros Hs Hel Hb. unfold MillisDelayClass.justFinished, MillisDelayClass.start.
  cbn [_stop _oldTime _delayTime]. rewrite Hs. f_equal.
  replace (u32 (u32 (t0 + el) - u32 t0)) with el by zmod.
  destruct (Z.gtb_spec el (_delayTime d)); [lia | reflexivity].
Qed.

Lemma justFinished_due (t0 el : Z) (d : MillisDelay) :
  _stop d = false -> _delayTime d < el < 4294967296 -> 0 <= _delayTime d ->
  MillisDelayClass.justFinished (t0 + el) (MillisDelayClass.start t0 d)
  = (MillisDelayClass.start t0 d, true).
Proof.
  intros Hs Hel Hb. unfold MillisDelayClass.justFinished, MillisDelayClass.start.
  cbn [_stop _oldTime _delayTime]. rewrite Hs. f_equal.
  replace (u32 (u32 (t0 + el) - u32 t0)) with el by zmod.
  destruct (Z.gtb_spec el (_delayTime d)); [reflexivity | lia].
Qed.

(** After an encoder event the screen saver is off, and a
    [screensaverTick] that comes before either delay has run out
    draws nothing and changes nothing. *)
Theorem screensaver_quiet_after_rotate (s1 s2 el1 el2 r1 r2 : Z) (ss : ScreenSaver) :
  _stop (screensaverDelay1 ss) = false -> _stop (screensaverDelay2 ss) = false ->
  0 <= el1 <= _delayTime (screensaverDelay1 ss) -> el1 < 4294967296 ->
  0 <= el2 <= _delayTime (screensaverDelay2 ss) -> el2 < 4294967296 ->
  let ss1 := rotate_screensaver s1 s2 ss in
  inScreenSaverMode ss1 = false /\
  screensaverTick (s1 + el1) r1 (s2 + el2) r2 ss1 = (ss1, []).
Proof.
  intros Hs1 Hs2 He1 Hb1 He2 Hb2. cbv zeta.
  assert (Hmode : inScreenSaverMode (rotate_screensaver s1 s2 ss) = false).
  { unfold rotate_screensaver. destruct (inScreenSaverMode ss) eqn:E; cbn; [reflexivity | exact E]. }
  split; [exact Hmode|].
  unfold screensaverTick.
  assert (Hd1 : screensaverDelay1 (rotate_screensaver s1 s2 ss)
                = MillisDelayClass.start s1 (screensaverDelay1 ss)).
  { unfold rotate_screensaver. destruct (inScreenSaverMode ss); reflexivity. }
  assert (Hd2 : screensaverDelay2 (rotate_screensaver s1 s2 ss)
                = MillisDelayClass.start s2 (screensaverDelay2 ss)).
  { unfold rotate_screensaver. destruct (inScreenSaverMode ss); reflexivity. }
  rewrite Hd1.
  rewrite (justFinished_quiet s1 el1 (screensaverDelay1 ss) Hs1 ltac:(lia) ltac:(lia)).
  cbn [inScreenSaverMode screensaverDelay1 screensaverDelay2]. rewrite Hd2.
  rewrite (justFinished_quiet s2 el2 (screensaverDelay2 ss) Hs2 ltac:(lia) ltac:(lia)).
  cbn [inScreenSaverMode screensaverDelay1 screensaverDelay2 app].
  rewrite <- Hd1, <- Hd2. destruct (rotate_screensaver s1 s2 ss). reflexivity.
Qed.

(** When the first delay has run out since the last encoder event,
    [screensaverTick] blanks the display, enters the screen-saver mode
    and starts the first delay again; the circle animation follows in
    the same tick when the second delay has run out as well, and is
    left out otherwise. *)
Theorem screensaver_blanks_after_delay (s1 s2 el1 el2 r1 r2 : Z) (ss : ScreenSaver) :
  _stop (screensaverDelay1 ss) = false -> _stop (screensaverDelay2 ss) = false ->
  0 <= _delayTime (screensaverDelay1 ss) < el1 -> el1 < 4294967296 ->
  0 <= _delayTime (screensaverDelay2 ss) -> 0 <= el2 < 4294967296 ->
  let ss1 := rotate_screensaver s1 s2 ss in
  let ss2 := fst (screensaverTick (s1 + el1) r1 (s2 + el2) r2 ss1) in
  let out := snd (screensaverTick (s1 + el1) r1 (s2 + el2) r2 ss1) in
  inScreenSaverMode ss1 = false /\ inScreenSaverMode ss2 = true /\
  out = ClearDisplay :: (if el2 >? _delayTime (screensaverDelay2 ss)
                         then [FillCircles] else []) /\
  screensaverDelay1 ss2 = MillisDelayClass.start r1 (screensaverDelay1 ss).
Proof.
  intros Hs1 Hs2 He1 Hb1 Hp He2. cbv zeta.
  assert (Hmode : inScreenSaverMode (rotate_screensaver s1 s2 ss) = false).
  { unfold rotate_screensaver. destruct (inScreenSaverMode ss) eqn:E; cbn; [reflexivity | exact E]. }
  split; [exact Hmode|].
  unfold screensaverTick.
  assert (Hd1 : screensaverDelay1 (rotate_screensaver s1 s2 ss)
                = MillisDelayClass.start s1 (screensaverDelay1 ss)).
  { unfold rotate_screensaver. destruct (inScreenSaverMode ss); reflexivity. }
  assert (Hd2 : screensaverDelay2 (rotate_screensaver s1 s2 ss)
                = MillisDelayClass.start s2 (screensaverDelay2 ss)).
  { unfold rotate_screensaver. destruct (inScreenSaverMode ss); reflexivity. }
  rewrite Hd1.
  rewrite (justFinished_due s1 el1 (screensaverDelay1 ss) Hs1 ltac:(lia) ltac:(lia)).
  cbn [inScreenSaverMode screensaverDelay1 screensaverDelay2]. rewrite Hd2.
  unfold cls.
  change (CLS_TIMER_ACTION =? CLS_TIMER_ACTION) with true.
  change (SCREENSAVER_TIMER_ACTION =? CLS_TIMER_ACTION) with false.
  change (SCREENSAVER_TIMER_ACTION =? SCREENSAVER_TIMER_ACTION) with true.
  cbv iota beta.
  cbn [inScreenSaverMode screensaverDelay1 screensaverDelay2].
  destruct (Z.gtb_spec el2 (_delayTime (screensaverDelay2 ss))) as [Hg|Hg].
  - rewrite (justFinished_due s2 el2 (screensaverDelay2 ss) Hs2 ltac:(lia) Hp).
    repeat split; reflexivity.
  - rewrite (justFinished_quiet s2 el2 (screensaverDelay2 ss) Hs2 ltac:(lia) ltac:(lia)).
    repeat split; reflexivity.
Qed.

(** Whatever the delays hold and whenever it is called,
    [screensaverTick] draws the circle animation only on a display
    that is in screen-saver mode when the tick ends, blanks at most
    once and before the animation, and never leaves the screen-saver
    mode: only the encoder and the button callbacks do. *)
Theorem screensaverTick_animation_only_when_blank (t1 r1 t2 r2 : Z) (ss : ScreenSaver) :
  let ss' := fst (screensaverTick t1 r1 t2 r2 ss) in
  let out := snd (screensaverTick t1 r1 t2 r2 ss) in
  (out = [] \/ out = [ClearDisplay] \/ out = [FillCircles]
   \/ out = [ClearDisplay; FillCircles]) /\
  (In FillCircles out -> inScreenSaverMode ss' = true) /\
  (In ClearDisplay out -> inScreenSaverMode ss' = true) /\
  (inScreenSaverMode ss = true -> inScreenSaverMode ss' = true).
Proof.
  cbv zeta. unfold screensaverTick, MillisDelayClass.justFinished, cls.
  destruct ss as [mode [dt1 ot1 af1 st1] [dt2 ot2 af2 st2]].
  cbn [inScreenSaverMode screensaverDelay1 screensaverDelay2 _stop _delayTime _oldTime
       _alreadyFinished MillisDelayClass.start].
  change (CLS_TIMER_ACTION =? CLS_TIMER_ACTION) with true.
  change (SCREENSAVER_TIMER_ACTION =? CLS_TIMER_ACTION) with false.
  change (SCREENSAVER_TIMER_ACTION =? SCREENSAVER_TIMER_ACTION) with true.
  destruct st1, st2, mode; cbn;
    repeat match goal with
           | |- context [if ?c then _ else _] => destruct c; cbn
           end;
    intuition (try discriminate; try congruence).
Qed.

(** ** The modulated effects *)

(** Psycho: once the counter is inside 20..220 every pass of [loop]
    keeps it there, whichever way it is counting, and the two PWM
    values stay inside the range of a byte: the first is half the
    counter but at least 50, the second is 270 minus the counter.  The
    pass leaves the settings alone and sets the direction LEFT. *)
Theorem loop_case_PSYCHO_range (g : Globals) (md : Modulation) :
  20 <= psychoCounter md <= 220 ->
  let g' := fst (fst (loop_case_PSYCHO g md)) in
  let md' := snd (fst (loop_case_PSYCHO g md)) in
  let out := snd (loop_case_PSYCHO g md) in
  20 <= psychoCounter md' <= 220 /\
  out_pwm1 out = Z.max 50 (psychoCounter md' / 2) /\
  50 <= out_pwm1 out <= 110 /\
  out_pwm2 out = 270 - psychoCounter md' /\
  50 <= out_pwm2 out <= 250 /\
  chorusCounter md' = chorusCounter md /\
  settings g' = settings g /\ countDirection g' = u8 LEFT.
Proof.
  intros Hc. cbv zeta. unfold loop_case_PSYCHO. cbv zeta.
  destruct md as [pc cc up dc dp]. cbn [psychoCounter chorusCounter directionUp] in *.
  assert (Hup : u8 (pc + 1) = pc + 1) by (apply u8_id; unfold is_byte; lia).
  assert (Hdn : u8 (pc - 1) = pc - 1) by (apply u8_id; unfold is_byte; lia).
  rewrite Hup, Hdn.
  destruct (up =? 1);
    [destruct (Z.gtb_spec (pc + 1) 220) | destruct (Z.ltb_spec (pc - 1) 50)];
    cbn [fst snd psychoCounter chorusCounter out_pwm1 out_pwm2];
    rewrite !Z.shiftr_div_pow2 by lia; change (2 ^ 1) with 2;
    match goal with
    | |- context [?x / 2 >? 50] =>
        destruct (Z.gtb_spec (x / 2) 50);
        assert (0 <= x / 2 <= 110) by (split; [apply Z.div_pos | apply Z.div_le_upper_bound]; lia)
    end;
    (split; [lia|]); (split; [lia|]); (split; [lia|]); (split; [reflexivity|]);
    (split; [lia|]); (split; [reflexivity|]);
    globals_destruct g; split; reflexivity.
Qed.

(** Chorus and fast chorus: once the counter is inside 183..252 every
    pass of [loop] keeps it there (likewise from 130, its initial
    value, upwards).  The first PWM value is the counter; the second
    is 440 minus the counter as a byte, which wraps: for a counter
    below 185 it is 184 minus the counter, so that the turn at the
    lower limit, where the counter is set to 185 and then decremented
    in the same pass, sends 1.  The pass leaves the globals alone. *)
Theorem loop_case_CHORUS_range (lo : Z) (pedal : bool) (millis : Z)
        (g : Globals) (md : Modulation) :
  0 <= lo <= 183 -> lo <= chorusCounter md <= 252 ->
  let g' := fst (fst (loop_case_CHORUS pedal millis g md)) in
  let md' := snd (fst (loop_case_CHORUS pedal millis g md)) in
  let out := snd (loop_case_CHORUS pedal millis g md) in
  let period := u16 (MIN_TIME + Z.shiftr (delayTime_at g CHORUS) 1) in
  lo <= chorusCounter md' <= 252 /\
  out_pwm1 out = chorusCounter md' /\
  out_pwm2 out = (if chorusCounter md' <? 185
                  then 184 - chorusCounter md' else 440 - chorusCounter md') /\
  (directionUp md <> 1 -> chorusCounter md < CHORUS_LOWER_LIMIT ->
   u32 (u32 millis - delayPreviousMillis md) > period ->
   chorusCounter md' = 183 /\ out_pwm2 out = 1 /\ directionUp md' = 1) /\
  psychoCounter md' = psychoCounter md /\
  g' = g.
Proof.
  intros Hlo Hc. cbv zeta. unfold loop_case_CHORUS. cbv zeta.
  unfold CHORUS_UPPER_LIMIT, CHORUS_LOWER_LIMIT.
  destruct md as [pc cc up dc dp].
  cbn [psychoCounter chorusCounter directionUp delayPreviousMillis] in *.
  set (period := u16 (MIN_TIME + Z.shiftr (delayTime_at g CHORUS) 1)).
  set (el := u32 (u32 millis - dp)).
  destruct (Z.eqb_spec up 1) as [Hu|Hu].
  - destruct (Z.gtb_spec cc 250); destruct (Z.gtb_spec el period);
      cbn [fst snd psychoCounter chorusCounter directionUp out_pwm1 out_pwm2];
      rewrite ?(u8_id (cc + 2)) by (unfold is_byte; lia);
      rewrite ?(u8_id (250 + 2)) by (unfold is_byte; lia);
      match goal with
      | |- context [?x <? 185] =>
          destruct (Z.ltb_spec x 185);
          [rewrite (Z.mod_unique (440 - x) 256 1 (184 - x)) by lia
          |rewrite (u8_id (440 - x)) by (unfold is_byte; lia)]
      end;
      repeat split; try reflexivity; try lia; intros; try lia; contradiction.
  - destruct (Z.ltb_spec cc 185); destruct (Z.gtb_spec el period);
      cbn [fst snd psychoCounter chorusCounter directionUp out_pwm1 out_pwm2];
      rewrite ?(u8_id (cc - 2)) by (unfold is_byte; lia);
      rewrite ?(u8_id (185 - 2)) by (unfold is_byte; lia);
      match goal with
      | |- context [?x <? 185] =>
          destruct (Z.ltb_spec x 185);
          [rewrite (Z.mod_unique (440 - x) 256 1 (184 - x)) by lia
          |rewrite (u8_id (440 - x)) by (unfold is_byte; lia)]
      end;
      repeat split; try reflexivity; try lia.
Qed.

(** ** From a change to the next boot *)



(** ** The properties above on concrete states *)

Lemma rotate_selects_effect_witness :
  effect (settings (rotate flat_delay DIR_CW (set_effect PSYCHO (initial_globals 0))))
  = DECELERATOR /\
  rotate flat_delay DIR_CCW
    (rotate flat_delay DIR_CW (set_effect PSYCHO (initial_globals 0)))
  = set_effect PSYCHO (initial_globals 0).
Proof.
  destruct (rotate_selects_effect flat_delay DIR_CW (set_effect PSYCHO (initial_globals 0)))
    as (H1 & _ & _ & H2 & _).
  - reflexivity.
  - vm_compute. split; [discriminate | reflexivity].
  - split; [exact H1 | exact H2].
Defined.

Lemma rotations_baseFactorIndex_in_table_witness :
  0 <= baseFactorIndex_at
         (rotations flat_delay [DIR_CW; DIR_CW; DIR_CCW] (parameter_state DECELERATOR 50 15))
         DECELERATOR
    <= NR_OF_MULT_FACTORS - 1.
Proof.
  destruct (rotations_baseFactorIndex_in_table flat_delay [DIR_CW; DIR_CW; DIR_CCW]
              (parameter_state DECELERATOR 50 15)) as (_ & H).
  - reflexivity.
  - reflexivity.
  - vm_compute. split; [discriminate | reflexivity].
  - vm_compute. split; discriminate.
  - exact H.
Defined.

Lemma rotations_delayTime_in_range_witness :
  DELAY_TIME_MIN
  <= delayTime_at
       (rotations flat_delay [DIR_CW; DIR_CW; DIR_CCW] (parameter_state DECELERATOR 100 7))
       DECELERATOR
  <= DECELERATOR_UPDATE_TIME_MAX.
Proof.
  apply (rotations_delayTime_in_range flat_delay [DIR_CW; DIR_CW; DIR_CCW]
           (parameter_state DECELERATOR 100 7)).
  - reflexivity.
  - reflexivity.
  - reflexivity.
  - vm_compute. split; [discriminate | reflexivity].
  - vm_compute. split; [discriminate | reflexivity].
  - reflexivity.
  - vm_compute. split; discriminate.
Defined.

Lemma pulses_isr_keep_selection_witness :
  let ss := {| inScreenSaverMode := true; screensaverDelay1 := MillisDelay_default;
               screensaverDelay2 := MillisDelay_default |} in
  let g := set_irqCounter 3 (parameter_state CHORUS 220 7) in
  let st' := pulses_isr flat_delay
               [(100, [Click; LongPressStart]); (200, [DoubleClick]); (300, [])] (g, ss) in
  (inSelectMode (fst st') = negb (inSelectMode g) /\
   fineTuneDelayTime (fst st') = negb (fineTuneDelayTime g) /\
   delayTime_at (fst st') CHORUS = 120 /\ delayTime_at g CHORUS = 220) /\
  effect (settings (fst st')) = CHORUS /\
  baseFactorIndex (settings (fst st')) = baseFactorIndex (settings g) /\
  delayTime_at (fst st') REVERB = delayTime_at g REVERB /\
  writeToEeprom (fst st') = writeToEeprom g.
Proof.
  intros ss g st'. subst st'.
  destruct (pulses_isr_keep_selection flat_delay
              [(100, [Click; LongPressStart]); (200, [DoubleClick]); (300, [])] (g, ss))
    as (He & Hb & Hd & _ & _ & Hwe & _).
  - vm_compute. split; [discriminate | reflexivity].
  - reflexivity.
  - reflexivity.
  - split; [vm_compute; repeat split; reflexivity|].
    split; [exact He|]. split; [exact Hb|]. split; [|exact Hwe].
    apply Hd. discriminate.
Defined.

Lemma pulses_irqCounter_witness :
  irqCounter (pulses flat_delay [100; 200; 300; 400; 500] (initial_globals 0)) = 1 /\
  useSymbolicTimeString (pulses flat_delay [100; 200; 300; 400; 500] (initial_globals 0))
  = true.
Proof.
  destruct (pulses_irqCounter flat_delay [100; 200; 300; 400; 500] (initial_globals 0))
    as (H1 & H2).
  - vm_compute. split; discriminate.
  - split; [exact H1|]. apply H2. right. vm_compute. reflexivity.
Defined.

Lemma clockTimeout_after_pulse_witness :
  let g1 := extClock flat_delay 4294967000 (set_irqCounter 3 (initial_globals 0)) in
  useSymbolicTimeString g1 = true /\
  useSymbolicTimeString (loop_clockTimeout (4294967000 + 2000001) g1) = false /\
  useSymbolicTimeString (loop_clockTimeout (4294967000 + 2000000) g1) = true.
Proof.
  intros g1. split; [reflexivity|]. split.
  - destruct (clockTimeout_after_pulse flat_delay 4294967000 2000001
                (set_irqCounter 3 (initial_globals 0))) as (H & _).
    + lia.
    + exact H.
  - destruct (clockTimeout_after_pulse flat_delay 4294967000 2000000
                (set_irqCounter 3 (initial_globals 0))) as (H & _).
    + lia.
    + exact H.
Defined.

Lemma wetDryToggle_flag_witness :
  let ss := {| inScreenSaverMode := true; screensaverDelay1 := MillisDelay_default;
               screensaverDelay2 := MillisDelay_default |} in
  isWetAndDrySelected (settings (fst (fst (wetDryToggle (initial_globals 0) ss)))) = true /\
  snd (fst (wetDryToggle (initial_globals 0) ss)) = Some true /\
  inScreenSaverMode (snd (wetDryToggle (initial_globals 0) ss)) = false /\
  fst (fst (wetDryToggle (set_effect CHORUS (initial_globals 0)) ss))
  = set_effect CHORUS (initial_globals 0).
Proof.
  intros ss.
  destruct (wetDryToggle_flag (initial_globals 0) ss) as ((Hg & Hs) & _ & Hm & _).
  - vm_compute. split; [discriminate | reflexivity].
  - destruct (wetDryToggle_flag (set_effect CHORUS (initial_globals 0)) ss)
      as ((Hg' & _) & _).
    + vm_compute. split; [discriminate | reflexivity].
    + split; [rewrite Hg; reflexivity|]. split; [exact Hs|]. split; [exact Hm | exact Hg'].
Defined.

Lemma justFinished_elapsed_witness :
  snd (MillisDelayClass.justFinished (4294967000 + 500)
         (MillisDelayClass.start 4294967000 (MillisDelay_new 300 0))) = true /\
  snd (MillisDelayClass.justFinished (4294967000 + 300)
         (MillisDelayClass.start 4294967000 (MillisDelay_new 300 0))) = false.
Proof.
  split.
  - rewrite (justFinished_elapsed 4294967000 500 (MillisDelay_new 300 0)).
    + reflexivity.
    + reflexivity.
    + lia.
  - rewrite (justFinished_elapsed 4294967000 300 (MillisDelay_new 300 0)).
    + reflexivity.
    + reflexivity.
    + lia.
Defined.

Lemma screensaver_quiet_after_rotate_witness :
  let ss := setup_screensaver 0 0 0 0
              {| inScreenSaverMode := true; screensaverDelay1 := MillisDelay_default;
                 screensaverDelay2 := MillisDelay_default |} in
  let ss1 := rotate_screensaver 5000 5000 ss in
  inScreenSaverMode ss1 = false /\
  screensaverTick (5000 + 60000) 0 (5000 + 60000) 0 ss1 = (ss1, []).
Proof.
  intros ss ss1. subst ss1.
  apply (screensaver_quiet_after_rotate 5000 5000 60000 60000 0 0 ss).
  - reflexivity.
  - reflexivity.
  - vm_compute. split; discriminate.
  - reflexivity.
  - vm_compute. split; discriminate.
  - reflexivity.
Defined.

Lemma screensaver_blanks_after_delay_witness :
  let ss := setup_screensaver 0 0 0 0
              {| inScreenSaverMode := false; screensaverDelay1 := MillisDelay_default;
                 screensaverDelay2 := MillisDelay_default |} in
  let ss1 := rotate_screensaver 5000 5000 ss in
  inScreenSaverMode (fst (screensaverTick (5000 + 3000001) 0 (5000 + 60001) 0 ss1)) = true /\
  snd (screensaverTick (5000 + 3000001) 0 (5000 + 60001) 0 ss1)
  = [ClearDisplay; FillCircles].
Proof.
  intros ss ss1. subst ss1.
  destruct (screensaver_blanks_after_delay 5000 5000 3000001 60001 0 0 ss)
    as (_ & H1 & H2 & _).
  - reflexivity.
  - reflexivity.
  - vm_compute. split; [discriminate | reflexivity].
  - reflexivity.
  - vm_compute. discriminate.
  - lia.
  - split; [exact H1 | exact H2].
Defined.

Lemma loop_case_PSYCHO_range_witness :
  let md := {| psychoCounter := 220; chorusCounter := 130; directionUp := 1;
               delayCurrentMillis := 0; delayPreviousMillis := 0 |} in
  20 <= psychoCounter (snd (fst (loop_case_PSYCHO (initial_globals 0) md))) <= 220 /\
  50 <= out_pwm2 (snd (loop_case_PSYCHO (initial_globals 0) md)) <= 250.
Proof.
  intros md.
  destruct (loop_case_PSYCHO_range (initial_globals 0) md) as (H1 & _ & _ & _ & H2 & _).
  - vm_compute. split; discriminate.
  - split; [exact H1 | exact H2].
Defined.

Lemma loop_case_CHORUS_range_witness :
  let md := {| psychoCounter := 0; chorusCounter := 184; directionUp := 0;
               delayCurrentMillis := 0; delayPreviousMillis := 0 |} in
  chorusCounter (snd (fst (loop_case_CHORUS false 1000 (initial_globals 0) md))) = 183 /\
  out_pwm2 (snd (loop_case_CHORUS false 1000 (initial_globals 0) md)) = 1.
Proof.
  intros md.
  destruct (loop_case_CHORUS_range 183 false 1000 (initial_globals 0) md)
    as (_ & _ & _ & H & _).
  - lia.
  - vm_compute. split; discriminate.
  - destruct H as (H1 & H2 & _).
    + discriminate.
    + reflexivity.
    + reflexivity.
    + split; [exact H1 | exact H2].
Defined.


Lemma Eeprom_new_total_witness :
  exists m' e', Eeprom_new (Obj := SettingsObjType) EEPROM.blank 1024 = Some (m', e') /\
                eeprom_sizeInBytes e' = u16 1024.
Proof.
  apply (Eeprom_new_total (Obj := SettingsObjType) EEPROM.blank 1024).
  vm_compute. split; reflexivity.
Defined.

Lemma rotate_chorus_reverb_not_symbolic_witness :
  rotate flat_delay DIR_CW
    (set_useSymbolicTimeString true (parameter_state CHORUS 220 7))
  = rotate (fun _ _ => 0) DIR_CW
      (set_useSymbolicTimeString true (parameter_state CHORUS 220 7)).
Proof.
  apply (rotate_chorus_reverb_not_symbolic flat_delay (fun _ _ => 0) DIR_CW
           (set_useSymbolicTimeString true (parameter_state CHORUS 220 7))).
  reflexivity.
Defined.

Lemma burst_writes_once_witness :
  snd (scheduler_run ([Dirty 0; Poll 5; Dirty 100] ++ Poll 10101 :: map Poll [10102; 20000])
         (EEPROM_put EEPROM.blank 0 EMPTY_MARKER)
         {| eeprom_currentAddress := 0; eeprom_sizeInBytes := 1024;
            eeprom_dataItem := 0; blocked := false |}
         (initial_globals 0)) = 1%nat.
Proof.
  apply (burst_writes_once [Dirty 0; Poll 5; Dirty 100] 10101 [10102; 20000]).
  - reflexivity.
  - split.
    + cbn. unfold DELAY_TIME_BEFORE_WRITING_TO_EEPROM_IN_MS. lia.
    + exists 10100. cbn. split; [reflexivity | lia].
Defined.

Lemma rounds_write_once_each_witness :
  snd (scheduler_run
         (rounds_events [([Dirty 0], 10001); ([Dirty 20000; Dirty 20500], 30501)])
         (EEPROM_put EEPROM.blank 0 EMPTY_MARKER)
         {| eeprom_currentAddress := 0; eeprom_sizeInBytes := 1024;
            eeprom_dataItem := 0; blocked := false |}
         (initial_globals 0)) = 2%nat.
Proof.
  apply (rounds_write_once_each [([Dirty 0], 10001); ([Dirty 20000; Dirty 20500], 30501)]).
  - reflexivity.
  - constructor; [|constructor; [|constructor]]; split; cbn;
      unfold DELAY_TIME_BEFORE_WRITING_TO_EEPROM_IN_MS; try lia.
    + exists 10000. split; [reflexivity | lia].
    + exists 30500. split; [reflexivity | lia].
Defined.
